(** * Primascan: the transfer-script interpreter and the chunked read pump

    A shallow embedding of [SANE/primascan.c] (the SANE backend of the
    Primax Colorado 2400u driver): the transfer primitives, [sane_start],
    [sane_read] and [finalizeScanner], together with the properties the
    specification states about them; further the calls around a scan
    ([detectDevice], [sane_open], [sane_close], [sane_cancel],
    [sane_control_option], [sane_get_parameters]) and the reading loop of
    the standalone program, with properties read off the code.

    Conventions of the embedding
    - a C [int] is a [Z]: the tables of a capture hold bytes, and for
      those every shift and sum of the code stays far below 2^31; for a
      table int of 2^23 or more the shifts of the C code overflow, and
      the embedding does not follow them;
    - a [char] is represented by its bit pattern, an integer in 0..255;
      [(char) x] is [to_char x] and [~c] on a char is [char_not c];
    - [largeBuffer] is a [list Z]; an access outside the list is undefined
      behaviour in C and is the outcome [Undefined] here;
    - the process-wide variables of the C file are the fields of [state];
    - libusb is the environment: a [device] answers every request, and each
      request is appended to the trace [usb_log];
    - [primascan.h], which holds the transfer tables, is not part of the
      sources: the tables are the fields of [tables], a parameter. *)

From Stdlib Require Import ZArith Lia List Bool.
From stdpp Require Import base list.
Import ListNotations.

Local Open Scope Z_scope.

(** ** Bytes *)

Definition to_char (x : Z) : Z := Z.land x 0xff.

Definition char_not (c : Z) : Z := to_char (Z.lnot c).

(** [data[k]] for an [int *data]: the list holds the ints from the pointer
    onwards.  The tables are compile-time constants; a read past the
    modelled list yields 0. *)
Definition elem (data : list Z) (k : Z) : Z := nth (Z.to_nat k) data 0.

Notation "d .[ k ]" := (elem d k) (at level 1, left associativity, format "d .[ k ]").

(** ** The USB environment *)

Inductive usb_call : Type :=
| ControlMsg (requestType request value index size timeout : Z)
| BulkRead (ep size timeout : Z)
| BulkWrite (ep size timeout : Z).

(** One entry of the trace: the request, the bytes of the buffer the
    request exposes to the device (its first [size] bytes) and the value
    the library call returned. *)
Record usb_event : Type := mkEvent {
  ev_call : usb_call;
  ev_out : list Z;
  ev_result : Z
}.

Record usb_reply : Type := mkReply {
  rep_result : Z;
  rep_data : list Z
}.

(** A device sees the history, the request and the outgoing bytes. *)
Definition device : Type := list usb_event -> usb_call -> list Z -> usb_reply.

(** ** Program state *)

Record state : Type := mkState {
  largeBuffer : list Z;
  dpiValue : Z;
  dataAvailable : Z;
  whereInBuffer : Z;
  i : Z;
  usb_log : list usb_event
}.

Definition LARGE_BUFFER_SIZE : Z := 0xffff.

Definition set_largeBuffer (b : list Z) (st : state) : state :=
  mkState b (dpiValue st) (dataAvailable st) (whereInBuffer st) (i st) (usb_log st).

Definition set_dataAvailable (v : Z) (st : state) : state :=
  mkState (largeBuffer st) (dpiValue st) v (whereInBuffer st) (i st) (usb_log st).

Definition set_whereInBuffer (v : Z) (st : state) : state :=
  mkState (largeBuffer st) (dpiValue st) (dataAvailable st) v (i st) (usb_log st).

Definition set_i (v : Z) (st : state) : state :=
  mkState (largeBuffer st) (dpiValue st) (dataAvailable st) (whereInBuffer st) v (usb_log st).

Definition set_usb_log (l : list usb_event) (st : state) : state :=
  mkState (largeBuffer st) (dpiValue st) (dataAvailable st) (whereInBuffer st) (i st) l.

(** The state at program start: the initialisers of the static variables. *)
Definition initial_state (dpi : Z) : state :=
  mkState (replicate (Z.to_nat LARGE_BUFFER_SIZE) 0) dpi 0 0 0 [].

(** ** Outcomes and the state monad *)

Inductive outcome (A : Type) : Type :=
| Ret (a : A) (st : state)     (* the function returned [a] *)
| Exit (code : Z) (st : state) (* [exit (code)] was called *)
| Undefined                    (* an access outside [largeBuffer] *)
| Spin.                        (* the polling loop used up its bound *)

Arguments Ret {A} a st.
Arguments Exit {A} code st.
Arguments Undefined {A}.
Arguments Spin {A}.

Definition M (A : Type) : Type := state -> outcome A.

Definition ret {A} (a : A) : M A := fun st => Ret a st.

Definition bind {A B} (m : M A) (k : A -> M B) : M B :=
  fun st =>
    match m st with
    | Ret a st' => k a st'
    | Exit c st' => Exit c st'
    | Undefined => Undefined
    | Spin => Spin
    end.

Declare Scope prog_scope.
Delimit Scope prog_scope with prog.

Notation "x <- c1 ;; c2" := (bind c1 (fun x => c2))
  (at level 100, c1 at next level, right associativity) : prog_scope.
Notation "c1 ;; c2" := (bind c1 (fun _ => c2))
  (at level 100, right associativity) : prog_scope.

Local Open Scope prog_scope.

Definition get {A} (f : state -> A) : M A := fun st => Ret (f st) st.

Definition modify (f : state -> state) : M unit := fun st => Ret tt (f st).

Definition exit {A} (code : Z) : M A := fun st => Exit code st.

(** [largeBuffer[k]] as an rvalue and as an lvalue. *)
Definition load (k : Z) : M Z :=
  fun st =>
    match (if 0 <=? k then largeBuffer st !! Z.to_nat k else None) with
    | Some b => Ret b st
    | None => Undefined
    end.

Definition store (k v : Z) : M unit :=
  fun st =>
    match (if 0 <=? k then largeBuffer st !! Z.to_nat k else None) with
    | Some _ => Ret tt (set_largeBuffer (<[Z.to_nat k := v]> (largeBuffer st)) st)
    | None => Undefined
    end.

(** [for (k = lo; k < hi; ++k) body], for a body that assigns neither [k]
    nor [hi]: [hi - lo] iterations when that is positive, none otherwise. *)
Fixpoint for_count (n : nat) (k : Z) (body : Z -> M unit) : M unit :=
  match n with
  | O => ret tt
  | S n' => body k ;; for_count n' (k + 1) body
  end.

Definition for_range (lo hi : Z) (body : Z -> M unit) : M unit :=
  for_count (Z.to_nat (hi - lo)) lo body.

(** The same loop with a [return] inside the body: [Some v] leaves the
    function with [v], [None] goes on with the next iteration. *)
Fixpoint for_count_ret {R} (n : nat) (k : Z) (body : Z -> M (option R)) : M (option R) :=
  match n with
  | O => ret None
  | S n' =>
      r <- body k ;;
      match r with
      | Some v => ret (Some v)
      | None => for_count_ret n' (k + 1) body
      end
  end.

Definition for_range_ret {R} (lo hi : Z) (body : Z -> M (option R)) : M (option R) :=
  for_count_ret (Z.to_nat (hi - lo)) lo body.

(** ** The transfer tables of [primascan.h] *)

(** [primascan.h] is not among the sources, so its contents are a
    parameter of the development.  Per the comment at the head of
    [primascan.c] it holds one table per phase and mode, each with its
    size: [scannerSetup], [setupBlack], [setupColor], [calibration] with the
    payload [calibWrite], [scanBlack], [scanColor] and [finalize].  The
    tables indexed as [t[i]] are lists of records; those walked through
    [t[0]] with a stride of 16 ints are flat. *)
Record tables : Type := mkTables {
  scannerSetup : list (list Z);  scannerSetupSize : Z;
  setupBlack : list Z;           setupBlackSize : Z;
  setupColor : list Z;           setupColorSize : Z;
  calibration : list (list Z);   calibrationSize : Z;
  calibWrite : list Z;           calibWriteSize : Z;
  scanBlack : list Z;            scanBlackSize : Z;
  scanColor : list Z;            scanColorSize : Z;
  finalize : list (list Z);      finalizeSize : Z
}.

(** [t[i]] for a table of records.  A record ends with its 16th int: past
    it the C code reads on into the next record (a control transfer whose
    size field exceeds 8 does), where [d.[k]] on a row gives 0. *)
Definition row (t : list (list Z)) (k : Z) : list Z := nth (Z.to_nat k) t [].

(** [typePtr + (i * 16)]. *)
Definition at_record (typePtr : list Z) (k : Z) : list Z := drop (Z.to_nat (k * 16)) typePtr.

Inductive SANE_Status : Type :=
| SANE_STATUS_GOOD
| SANE_STATUS_EOF
| SANE_STATUS_IO_ERROR.

Section Driver.

Variable dev : device.
Variable tbl : tables.

(** ** libusb *)

(** Bytes the device sends are stored at the start of the buffer. *)
Definition fill (d : list Z) (buf : list Z) : list Z := d ++ drop (length d) buf.

(** One request on [largeBuffer]: the device is asked, the trace grows by
    one event, and for a transfer towards the host the bytes received, at
    most [size] of them, are stored.  With fewer than [size] bytes in the
    buffer the library runs off its end. *)
Definition usb_transfer (c : usb_call) (size : Z) (incoming : bool) : M Z :=
  fun st =>
    let out := take (Z.to_nat size) (largeBuffer st) in
    if (Z.to_nat size <=? length out)%nat then
      let r := dev (usb_log st) c out in
      let buf' :=
        if incoming
        then fill (take (Z.to_nat size) (map to_char (rep_data r))) (largeBuffer st)
        else largeBuffer st in
      Ret (rep_result r)
          (set_usb_log (usb_log st ++ [mkEvent c out (rep_result r)])
             (set_largeBuffer buf' st))
    else Undefined.

(** A control transfer moves data in the direction its request type says;
    the model lets the device answer with data to any of them (a device
    answers a host-to-device request with no data). *)
Definition usb_control_msg (requestType request value index size timeout : Z) : M Z :=
  usb_transfer (ControlMsg requestType request value index size timeout) size true.

Definition usb_bulk_read (ep size timeout : Z) : M Z :=
  usb_transfer (BulkRead ep size timeout) size true.

Definition usb_bulk_write (ep size timeout : Z) : M Z :=
  usb_transfer (BulkWrite ep size timeout) size false.

(** ** Transfer primitives *)

(** The classification shared by the bulk primitives. *)
Definition bulk_result (result size : Z) : Z :=
  if result >? 0 then (if result =? size then 1 else 2) else 0.

(** [calibrate]: the outer loop [for (i = 0; i < size; i += 64)], with [n]
    the iterations left. *)
Fixpoint calibrate_loop (n : nat) (i incr : Z) : M unit :=
  match n with
  | O => ret tt
  | S n' =>
      let temp := to_char incr in
      for_range 0 64 (fun j => store (j + i) temp) ;;
      let incr := incr + 1 in
      let incr := if incr >? 0xff then 0 else incr in
      calibrate_loop n' (i + 64) incr
  end.

Definition calibrate : M Z :=
  let ep := 2 in
  let size := 0xc000 in
  calibrate_loop (Z.to_nat ((size + 63) / 64)) 0 0 ;;
  result <- usb_bulk_write ep size 100 ;;
  ret (bulk_result result size).

Definition calibrationWrite (data : list Z) : M Z :=
  let ep := data.[1] in
  let size := Z.shiftl data.[2] 8 + data.[3] in
  for_range 0 0x3000 (fun j => store j 0) ;;
  for_range 0 (calibWriteSize tbl) (fun j => store j (to_char (calibWrite tbl).[j])) ;;
  result <- usb_bulk_write ep size 100 ;;
  ret (bulk_result result size).

(** [repeatedControlTransfer]: the [while] loop, at most [bound] passes
    through its body. *)
Fixpoint repeatedControlTransfer_loop (bound : nat)
    (requestType request value index size checkCharacter : Z) : M Z :=
  b <- load 0 ;;
  if negb (Z.land b 0xff =? Z.land checkCharacter 0xff) then
    match bound with
    | O => fun _ => Spin
    | S bound' =>
        result <- usb_control_msg requestType request value index size 300 ;;
        if result <? 0 then ret 0
        else repeatedControlTransfer_loop bound' requestType request value index size
               checkCharacter
    end
  else ret 1.

Definition repeatedControlTransfer (bound : nat) (data : list Z) : M Z :=
  let requestType := data.[1] in
  let request := data.[2] in
  let value := Z.shiftl data.[4] 8 + data.[3] in
  let index := Z.shiftl data.[6] 8 + data.[5] in
  let size := Z.shiftl data.[8] 8 + data.[7] in
  let checkCharacter := to_char data.[9] in
  repeatedControlTransfer_loop bound requestType request value index size checkCharacter.

(** The counting loop that precedes the transfer leaves the state alone. *)
Definition bulkRead (data : list Z) : M Z :=
  let ep := data.[1] in
  let size := Z.shiftl data.[2] 8 + data.[3] in
  result <- usb_bulk_read ep size 3000 ;;
  ret (bulk_result result size).

Definition writeBulk0s (data : list Z) : M Z :=
  let ep := data.[1] in
  let size := Z.shiftl data.[2] 8 + data.[1] in
  for_range 0 (size + 1) (fun i => store i 0) ;;
  result <- usb_bulk_write ep size 100 ;;
  ret (bulk_result result size).

Definition controlTransfer (data : list Z) : M Z :=
  let requestType := data.[0] in
  let request := data.[1] in
  let value := Z.shiftl data.[3] 8 + data.[2] in
  let index := Z.shiftl data.[5] 8 + data.[4] in
  let size := Z.shiftl data.[7] 8 + data.[6] in
  for_range 0 size (fun i => store i (to_char data.[i + 8])) ;;
  result <- usb_control_msg requestType request value index size 300 ;;
  if result <? 0 then ret 0 else ret 1.

Definition finalizeScanner : M Z :=
  for_range 0 (finalizeSize tbl) (fun i =>
    result <- controlTransfer (row (finalize tbl) i) ;;
    if result <? 0 then exit 1 else ret tt) ;;
  ret 1.

(** ** [sane_start] *)

(** The record dispatch of the setup loop. *)
Definition setup_dispatch (bound : nat) (data : list Z) : M Z :=
  if data.[0] =? 0xfa then bulkRead data
  else if data.[0] =? 0xfb then repeatedControlTransfer bound data
  else if data.[0] =? 0xff then writeBulk0s data
  else controlTransfer data.

(** The record dispatch of the calibration loop. *)
Definition calibration_dispatch (data : list Z) : M Z :=
  if data.[0] =? 0xfc then calibrationWrite data
  else if data.[0] =? 0xfd then calibrate
  else controlTransfer data.

Definition initialize_phase : M (option SANE_Status) :=
  for_range_ret 0 (scannerSetupSize tbl) (fun i =>
    result <- controlTransfer (row (scannerSetup tbl) i) ;;
    if negb (result =? 1) then ret (Some SANE_STATUS_IO_ERROR) else ret None).

Definition setup_phase (bound : nat) : M unit :=
  dpi <- get dpiValue ;;
  let typePtr := if dpi =? 200 then setupBlack tbl else setupColor tbl in
  let typeSize := if dpi =? 200 then setupBlackSize tbl else setupColorSize tbl in
  for_range 0 typeSize (fun i =>
    result <- setup_dispatch bound (at_record typePtr i) ;;
    if negb (result =? 1)
    then ret tt (* Something went wrong, but it won't effect the scan any *)
    else ret tt).

Definition calibration_phase : M (option SANE_Status) :=
  for_range_ret 0 (calibrationSize tbl) (fun i =>
    result <- calibration_dispatch (row (calibration tbl) i) ;;
    if negb (result =? 1) then ret (Some SANE_STATUS_IO_ERROR) else ret None).

(** [bound] limits the passes of each polling loop of the setup table. *)
Definition sane_start (bound : nat) : M SANE_Status :=
  r <- initialize_phase ;;
  match r with
  | Some status => ret status
  | None =>
      setup_phase bound ;;
      r <- calibration_phase ;;
      match r with
      | Some status => ret status
      | None => ret SANE_STATUS_GOOD
      end
  end.

(** ** [sane_read] *)

(** [for (j = 0; j < n; ++j) buf[j] = largeBuffer[j + whereInBuffer];]
    the result is the list of the bytes stored in [buf[0..n)]. *)
Fixpoint copy_count (n : nat) (j w : Z) : M (list Z) :=
  match n with
  | O => ret []
  | S n' =>
      b <- load (j + w) ;;
      rest <- copy_count n' (j + 1) w ;;
      ret (b :: rest)
  end.

Definition copy_out (n w : Z) : M (list Z) := copy_count (Z.to_nat n) 0 w.

(** What a call hands back: the status, the bytes it stored in [buf] and
    the value it assigned to [*len] ([None] when it assigned none). *)
Record read_result : Type := mkRead {
  rd_status : SANE_Status;
  rd_buf : list Z;
  rd_len : option Z
}.

(** The branch [if (dataAvailable > 0)] of the loop body. *)
Definition serve (max_len : Z) : M read_result :=
  avail <- get dataAvailable ;;
  w <- get whereInBuffer ;;
  if avail <? max_len then
    dpi <- get dpiValue ;;
    (if dpi =? 200
     then for_range 0 avail (fun j => b <- load (j + w) ;; store (j + w) (char_not b))
     else ret tt) ;;
    buf <- copy_out avail w ;;
    modify (set_dataAvailable 0) ;;
    modify (set_whereInBuffer 0) ;;
    ret (mkRead SANE_STATUS_GOOD buf (Some avail))
  else
    buf <- copy_out max_len w ;;
    modify (set_dataAvailable (avail - max_len)) ;;
    modify (set_whereInBuffer (w + max_len)) ;;
    ret (mkRead SANE_STATUS_GOOD buf (Some max_len)).

(** The record dispatch of the scan loop. *)
Definition scan_dispatch (data : list Z) : M Z :=
  if data.[0] =? 0xfa then
    result <- bulkRead data ;;
    modify (set_dataAvailable (Z.shiftl data.[2] 8 + data.[3])) ;;
    modify (set_whereInBuffer 0) ;;
    ret result
  else controlTransfer data.

(** [for (; i < typeSize; i++)] over the static [i], with [n] the
    iterations left ([typeSize - i]). *)
Fixpoint sane_read_loop (n : nat) (typePtr : list Z) (max_len : Z) : M read_result :=
  match n with
  | O =>
      finalizeScanner ;;
      ret (mkRead SANE_STATUS_EOF [] None)
  | S n' =>
      avail <- get dataAvailable ;;
      if avail >? 0 then serve max_len
      else
        k <- get i ;;
        result <- scan_dispatch (at_record typePtr k) ;;
        if negb (result =? 1) then ret (mkRead SANE_STATUS_IO_ERROR [] None)
        else
          modify (set_i (k + 1)) ;;
          sane_read_loop n' typePtr max_len
  end.

Definition sane_read (max_len : Z) : M read_result :=
  dpi <- get dpiValue ;;
  let typePtr := if dpi =? 200 then scanBlack tbl else scanColor tbl in
  let typeSize := if dpi =? 200 then scanBlackSize tbl else scanColorSize tbl in
  k <- get i ;;
  sane_read_loop (Z.to_nat (typeSize - k)) typePtr max_len.

(** The caller's loop: read with capacity [max_len] until a call does not
    return [SANE_STATUS_GOOD], at most [calls] times; the bytes of all the
    calls, in order, and the status that ended the loop. *)
Fixpoint drain (calls : nat) (max_len : Z) : M (SANE_Status * list Z) :=
  match calls with
  | O => fun _ => Spin
  | S calls' =>
      r <- sane_read max_len ;;
      match rd_status r with
      | SANE_STATUS_GOOD =>
          rest <- drain calls' max_len ;;
          ret (fst rest, rd_buf r ++ snd rest)
      | status => ret (status, [])
      end
  end.

End Driver.

(** ** Observing outcomes *)

Definition returned {A} (o : outcome A) : option A :=
  match o with
  | Ret a _ => Some a
  | _ => None
  end.

Definition final_state {A} (o : outcome A) : option state :=
  match o with
  | Ret _ st => Some st
  | Exit _ st => Some st
  | _ => None
  end.

(** The requests issued, with the value each returned. *)
Definition requests {A} (o : outcome A) : list (usb_call * Z) :=
  match final_state o with
  | Some st => map (fun e => (ev_call e, ev_result e)) (usb_log st)
  | None => []
  end.

(** The static variables of [sane_read]. *)
Definition cursor (st : state) : Z * Z * Z := (dataAvailable st, whereInBuffer st, i st).

(** What the transfer primitives leave alone: the cursor and the mode. *)
Definition frame (st st' : state) : Prop :=
  cursor st' = cursor st /\ dpiValue st' = dpiValue st.

(** [m] never calls [exit]; when it returns, the value satisfies [Q] and
    the cursor and the mode are as before. *)
Definition framed {A} (m : M A) (Q : A -> Prop) : Prop :=
  forall st,
    match m st with
    | Ret a st' => Q a /\ frame st st'
    | Exit _ _ => False
    | Undefined => True
    | Spin => True
    end.

(** ** Concrete tables and devices used in the examples *)

(** A record of 16 ints, the trailing ones 0. *)
Definition rec16 (l : list Z) : list Z := take 16 (l ++ replicate 16 0).

(** A device that completes every request in full and sends the bytes of
    [image] for each bulk read. *)
Definition scanner (image : list Z) : device :=
  fun _ c _ =>
    match c with
    | BulkRead _ size _ => mkReply size (take (Z.to_nat size) image)
    | ControlMsg _ _ _ _ size _ => mkReply size []
    | BulkWrite _ size _ => mkReply size []
    end.

(** A device on which every control transfer fails. *)
Definition broken_control : device :=
  fun _ c _ =>
    match c with
    | ControlMsg _ _ _ _ _ _ => mkReply (-1) []
    | BulkRead _ size _ => mkReply size []
    | BulkWrite _ size _ => mkReply size []
    end.

(** A device on which every bulk transfer fails. *)
Definition broken_bulk : device :=
  fun _ c _ =>
    match c with
    | ControlMsg _ _ _ _ size _ => mkReply size []
    | BulkRead _ _ _ => mkReply (-1) []
    | BulkWrite _ _ _ => mkReply (-1) []
    end.

Definition bulk_read_3 : list Z := rec16 [0xfa; 0x81; 0x00; 0x03].
Definition control_out : list Z := rec16 [0x40; 0x0c; 0x87; 0x00; 0x00; 0x00; 0x00; 0x00].
Definition zero_write_5 : list Z := rec16 [0xff; 0x02; 0x00; 0x05].
Definition control_out_0x55 : list Z :=
  rec16 [0x40; 0x0c; 0x87; 0x00; 0x00; 0x00; 0x01; 0x00; 0x55].
Definition poll_for_0x55 : list Z :=
  rec16 [0xfb; 0xc0; 0x0c; 0x84; 0x00; 0x00; 0x00; 0x00; 0x01; 0x55].

(** A device that answers every control transfer with the one byte
    [status]. *)
Definition ready_device (status : Z) : device :=
  fun _ c _ =>
    match c with
    | ControlMsg _ _ _ _ _ _ => mkReply 1 [status]
    | BulkRead _ size _ => mkReply size []
    | BulkWrite _ size _ => mkReply size []
    end.

(** One bulk read of three bytes followed by a control transfer, as the
    setup table and the scan table of both modes; one control transfer for
    the initialize and calibration tables, two for the finalize table; no
    calibration payload. *)
Definition small_tables : tables :=
  mkTables [control_out] 1
    (bulk_read_3 ++ control_out) 2
    (bulk_read_3 ++ control_out) 2
    [control_out] 1
    [] 0
    (bulk_read_3 ++ control_out) 2
    (bulk_read_3 ++ control_out) 2
    [control_out; control_out] 2.

Section Sessions.

Variable dev : device.
Variable tbl : tables.

(** A whole session: [sane_start], then reads of capacity [max_len] until
    one does not return [SANE_STATUS_GOOD]. *)
Definition session (bound calls : nat) (max_len : Z) : M (SANE_Status * list Z) :=
  status <- sane_start dev tbl bound ;;
  match status with
  | SANE_STATUS_GOOD => drain dev tbl calls max_len
  | _ => ret (status, [])
  end.

(** A session run to its end, then a second [sane_start] and one read:
    the status of the second start, the cursor it leaves, and what the
    read hands back. *)
Definition second_session (bound calls : nat) (max_len : Z)
  : M (SANE_Status * (Z * Z * Z) * read_result) :=
  session bound calls max_len ;;
  status <- sane_start dev tbl bound ;;
  c <- get cursor ;;
  r <- sane_read dev tbl max_len ;;
  ret (status, c, r).

(** A control transfer that leaves its payload byte in the buffer,
    followed by a polling record. *)
Definition write_then_poll (bound : nat) (first poll : list Z) : M Z :=
  controlTransfer dev first ;;
  repeatedControlTransfer dev bound poll.

End Sessions.

(** ** The polling transfer as a relation *)

Section Polling.

Variable dev : device.
Variables requestType request value index size checkCharacter : Z.

(** The first byte of the transfer buffer equals the expected byte. *)
Definition first_byte_matches (st : state) : Prop :=
  exists b, largeBuffer st !! 0%nat = Some b
            /\ Z.land b 0xff = Z.land checkCharacter 0xff.

Definition first_byte_differs (st : state) : Prop :=
  exists b, largeBuffer st !! 0%nat = Some b
            /\ Z.land b 0xff <> Z.land checkCharacter 0xff.

(** [polls st n r st']: from [st] the polling ends in [st'] after [n]
    control transfers with the value [r].  The first byte is examined
    before each transfer: a match ends the polling with 1; otherwise the
    transfer is issued, and a negative result ends the polling with 0. *)
Inductive polls : state -> nat -> Z -> state -> Prop :=
| polls_ready st :
    first_byte_matches st ->
    polls st 0 1 st
| polls_error st result st' :
    first_byte_differs st ->
    usb_control_msg dev requestType request value index size 300 st = Ret result st' ->
    result < 0 ->
    polls st 1 0 st'
| polls_retry st result st1 n r st' :
    first_byte_differs st ->
    usb_control_msg dev requestType request value index size 300 st = Ret result st1 ->
    0 <= result ->
    polls st1 n r st' ->
    polls st (S n) r st'.

End Polling.

(** ** The setup table, record by record *)

Section SetupResults.

Variable dev : device.
Variable tbl : tables.

(** The dispatches of [n] setup records from record [k] on, in table
    order, with the value each one returned. *)
Fixpoint setup_results_from (bound : nat) (typePtr : list Z) (n : nat) (k : Z) : M (list Z) :=
  match n with
  | O => ret []
  | S n' =>
      result <- setup_dispatch dev bound (at_record typePtr k) ;;
      rest <- setup_results_from bound typePtr n' (k + 1) ;;
      ret (result :: rest)
  end.

(** Every record of the setup table of the mode. *)
Definition setup_results (bound : nat) : M (list Z) :=
  dpi <- get dpiValue ;;
  let typePtr := if dpi =? 200 then setupBlack tbl else setupColor tbl in
  let typeSize := if dpi =? 200 then setupBlackSize tbl else setupColorSize tbl in
  setup_results_from bound typePtr (Z.to_nat typeSize) 0.

(** The status [sane_start] returns after the calibration loop. *)
Definition status_after_calibration (r : option SANE_Status) : SANE_Status :=
  match r with
  | Some status => status
  | None => SANE_STATUS_GOOD
  end.

End SetupResults.

(** ** The scan read in one piece *)

Definition outcome_map {A} (f : state -> state) (o : outcome A) : outcome A :=
  match o with
  | Ret a st => Ret a (f st)
  | Exit c st => Exit c (f st)
  | Undefined => Undefined
  | Spin => Spin
  end.

(** What a caller and the device see of a run: the value returned and the
    trace of requests. *)
Definition observe {A} (o : outcome A) : option A * list usb_event :=
  (returned o, match final_state o with Some st => usb_log st | None => [] end).

(** [m] neither reads nor assigns [whereInBuffer]. *)
Definition oblivious {A} (m : M A) : Prop :=
  forall v st, m (set_whereInBuffer v st) = outcome_map (set_whereInBuffer v) (m st).

Section ScanRest.

Variable dev : device.
Variable tbl : tables.

(** The [n] records left of the scan table, run from a state with no
    pending bytes, each bulk read handed over whole: the bytes a caller
    with an unbounded buffer receives.  As in [sane_read], the bytes of a
    bulk read are handed over on the next pass through the loop, so those
    of a bulk read in the last record are not. *)
Fixpoint scan_rest (n : nat) (typePtr : list Z) : M (SANE_Status * list Z) :=
  match n with
  | O =>
      finalizeScanner dev tbl ;;
      ret (SANE_STATUS_EOF, [])
  | S n' =>
      k <- get i ;;
      result <- scan_dispatch dev (at_record typePtr k) ;;
      if negb (result =? 1) then ret (SANE_STATUS_IO_ERROR, [])
      else
        modify (set_i (k + 1)) ;;
        avail <- get dataAvailable ;;
        chunk <- match n' with
                 | O => ret []
                 | S _ =>
                     if avail >? 0 then
                       w <- get whereInBuffer ;;
                       c <- copy_out avail w ;;
                       modify (set_dataAvailable 0) ;;
                       ret c
                     else ret []
                 end ;;
        rest <- scan_rest n' typePtr ;;
        ret (fst rest, chunk ++ snd rest)
  end.

End ScanRest.

(** ** Requests issued and what is kept *)

(** What every transfer primitive keeps: the size of the buffer, the
    cursor and the mode. *)
Definition kept (st st' : state) : Prop :=
  length (largeBuffer st') = length (largeBuffer st)
  /\ cursor st' = cursor st
  /\ dpiValue st' = dpiValue st.

(** [m] never calls [exit]; when it returns [a], it has kept the above
    and appended to the trace events [evs] with [R a evs]. *)
Definition issues {A} (m : M A) (R : A -> list usb_event -> Prop) : Prop :=
  forall st,
    match m st with
    | Ret a st' => kept st st' /\ exists evs, usb_log st' = usb_log st ++ evs /\ R a evs
    | Exit _ _ => False
    | Undefined => True
    | Spin => True
    end.

Definition is_control_msg (e : usb_event) : Prop :=
  match ev_call e with
  | ControlMsg _ _ _ _ _ _ => True
  | _ => False
  end.

(** The scan table of the mode and its size, as [sane_read] selects them. *)
Definition scan_table (tbl : tables) (st : state) : list Z :=
  if dpiValue st =? 200 then scanBlack tbl else scanColor tbl.

Definition scan_table_size (tbl : tables) (st : state) : Z :=
  if dpiValue st =? 200 then scanBlackSize tbl else scanColorSize tbl.

(** The pending bytes, when there are any, lie inside the buffer. *)
Definition cursor_in_buffer (st : state) : Prop :=
  dataAvailable st <= 0
  \/ (0 <= whereInBuffer st
      /\ whereInBuffer st + dataAvailable st <= Z.of_nat (length (largeBuffer st))).

(** A state in the middle of a scan: [avail] bytes pending at offset [w],
    the buffer starting with [bytes]. *)
Definition pending_state (dpi avail w : Z) (bytes : list Z) : state :=
  mkState (fill bytes (replicate (Z.to_nat LARGE_BUFFER_SIZE) 0)) dpi avail w 0 [].

(** [m] never calls [exit]. *)
Definition no_exit {A} (m : M A) : Prop :=
  forall st code st', m st <> Exit code st'.

(** The record [sane_read] dispatches on when nothing is pending. *)
Definition scan_record (tbl : tables) (st : state) : list Z :=
  at_record (scan_table tbl st) (i st).

(** The size field of a bulk record: [(data[2] << 8) + data[3]]. *)
Definition declared_size (data : list Z) : Z := Z.shiftl data.[2] 8 + data.[3].

(** A calibration table of one payload write that declares 8 bytes, with
    a payload of 3 bytes. *)
Definition calibration_write_8 : list Z := rec16 [0xfc; 0x02; 0x00; 0x08].

Definition payload_tables : tables :=
  mkTables [control_out] 1
    (bulk_read_3 ++ control_out) 2
    (bulk_read_3 ++ control_out) 2
    [calibration_write_8] 1
    [1; 2; 3] 3
    (bulk_read_3 ++ control_out) 2
    (bulk_read_3 ++ control_out) 2
    [control_out; control_out] 2.

(** ** Requests that completed and requests that did not *)

(** A control transfer completes with any count that is not negative, a
    bulk transfer with the positive count that was asked for. *)
Definition completed (e : usb_event) : Prop :=
  match ev_call e with
  | ControlMsg _ _ _ _ _ _ => 0 <= ev_result e
  | BulkRead _ size _ => 0 < ev_result e /\ ev_result e = size
  | BulkWrite _ size _ => 0 < ev_result e /\ ev_result e = size
  end.

Definition failed (e : usb_event) : Prop :=
  match ev_call e with
  | ControlMsg _ _ _ _ _ _ => ev_result e < 0
  | BulkRead _ size _ => ev_result e <= 0 \/ ev_result e <> size
  | BulkWrite _ size _ => ev_result e <= 0 \/ ev_result e <> size
  end.

(** The result of a primitive that issued the one request [e]. *)
Definition judged (r : Z) (e : usb_event) : Prop :=
  (r = 1 -> completed e) /\ (r <> 1 -> failed e).


(** What the requests of one call of [sane_read] that returned [status]
    look like. *)
Definition read_trace (tbl : tables) (status : SANE_Status) (evs : list usb_event) : Prop :=
  match status with
  | SANE_STATUS_GOOD => Forall completed evs
  | SANE_STATUS_IO_ERROR => exists evs' e, evs = evs' ++ [e] /\ Forall completed evs' /\ failed e
  | SANE_STATUS_EOF =>
      exists scan fin,
        evs = scan ++ fin
        /\ Forall completed scan
        /\ length fin = Z.to_nat (finalizeSize tbl)
        /\ Forall is_control_msg fin
  end.

(** ** The calls around a scan *)

(** The statuses of the calls around a scan: those of a scan and two
    more. *)
Inductive api_status : Type :=
| Status (s : SANE_Status)
| SANE_STATUS_UNSUPPORTED
| SANE_STATUS_INVAL.

Definition set_dpiValue (v : Z) (st : state) : state :=
  mkState (largeBuffer st) v (dataAvailable st) (whereInBuffer st) (i st) (usb_log st).

(** [sane_control_option]: [val] is the word [val] points to, and the
    second component of the result is that word after the call.  The get
    action assigns to the parameter [val] itself, not to the word. *)
Definition sane_control_option (option action val : Z) : M (api_status * Z) :=
  if option =? 1 then
    if action =? 0 then ret (Status SANE_STATUS_GOOD, val)
    else if action =? 1 then
      let temp := val in
      modify (set_dpiValue temp) ;;
      ret (Status SANE_STATUS_GOOD, val)
    else
      modify (set_dpiValue 100) ;;
      ret (Status SANE_STATUS_GOOD, val)
  else if option =? 0 then ret (Status SANE_STATUS_GOOD, 2)
  else ret (SANE_STATUS_UNSUPPORTED, val).

Inductive SANE_Frame : Type :=
| SANE_FRAME_GRAY
| SANE_FRAME_RGB.

Record SANE_Parameters : Type := mkParameters {
  format : SANE_Frame;
  last_frame : Z;
  lines : Z;
  depth : Z;
  pixels_per_line : Z;
  bytes_per_line : Z
}.

Definition sane_get_parameters : M (api_status * SANE_Parameters) :=
  dpi <- get dpiValue ;;
  if dpi =? 200
  then ret (Status SANE_STATUS_GOOD, mkParameters SANE_FRAME_GRAY 1 2342 1 1656 207)
  else ret (Status SANE_STATUS_GOOD, mkParameters SANE_FRAME_RGB 1 1221 8 826 2478).

(** Samples per pixel of a frame format. *)
Definition channels (f : SANE_Frame) : Z :=
  match f with
  | SANE_FRAME_GRAY => 1
  | SANE_FRAME_RGB => 3
  end.

(** ** Finding and opening the scanner *)

(** What [detectDevice] looks at in a [struct usb_device], and the device
    number to tell one device from another. *)
Record usb_device : Type := mkDevice {
  idVendor : Z;
  idProduct : Z;
  devnum : Z
}.

Definition is_colorado (dev : usb_device) : bool :=
  (idVendor dev =? 0x0461) && (idProduct dev =? 0x0346).

(** The inner loop [for (dev = bus->devices; dev; dev = dev->next)]. *)
Fixpoint detect_on_bus (devices : list usb_device) : option usb_device :=
  match devices with
  | [] => None
  | dev :: next => if is_colorado dev then Some dev else detect_on_bus next
  end.

(** [detectDevice] on the busses [usb_get_busses ()] returns: [Some dev]
    when it stores [dev] in [*device] and returns 1, [None] when it returns
    0. *)
Fixpoint detectDevice (busses : list (list usb_device)) : option usb_device :=
  match busses with
  | [] => None
  | bus :: next =>
      match detect_on_bus bus with
      | Some dev => Some dev
      | None => detectDevice next
      end
  end.

(** The calls of libusb on a device or a handle; a handle is a number, 0
    for [NULL]. *)
Inductive admin_call : Type :=
| usb_open (dev : usb_device)
| usb_set_configuration (handle configuration : Z)
| usb_claim_interface (handle interface : Z)
| usb_set_altinterface (handle alternate : Z)
| usb_release_interface (handle interface : Z)
| usb_close (handle : Z)
| usb_reset (handle : Z).

(** The library answers a call, given the calls so far. *)
Definition host : Type := list (admin_call * Z) -> admin_call -> Z.

Record handle_state : Type := mkHandle {
  isDeviceOpen : Z;
  deviceHandle : Z;
  admin_log : list (admin_call * Z)
}.

Definition set_isDeviceOpen (v : Z) (hs : handle_state) : handle_state :=
  mkHandle v (deviceHandle hs) (admin_log hs).

Definition set_deviceHandle (v : Z) (hs : handle_state) : handle_state :=
  mkHandle (isDeviceOpen hs) v (admin_log hs).

Definition call (h : host) (c : admin_call) (hs : handle_state) : Z * handle_state :=
  let r := h (admin_log hs) c in
  (r, mkHandle (isDeviceOpen hs) (deviceHandle hs) (admin_log hs ++ [(c, r)])).

Definition sane_open (h : host) (busses : list (list usb_device)) (hs : handle_state)
  : api_status * handle_state :=
  if isDeviceOpen hs =? 0 then
    match detectDevice busses with
    | Some dev =>
        let '(handle, hs) := call h (usb_open dev) hs in
        let hs := set_deviceHandle handle hs in
        let '(status1, hs) := call h (usb_set_configuration handle 1) hs in
        let '(status2, hs) := call h (usb_claim_interface handle 0) hs in
        let '(status3, hs) := call h (usb_set_altinterface handle 0) hs in
        if (handle =? 0) || (status1 <? 0) || (status2 <? 0) || (status3 <? 0)
        then (Status SANE_STATUS_IO_ERROR, hs)
        else (Status SANE_STATUS_GOOD, set_isDeviceOpen 1 hs)
    | None => (SANE_STATUS_INVAL, hs)
    end
  else (Status SANE_STATUS_GOOD, hs).

Definition sane_close (h : host) (hs : handle_state) : handle_state :=
  if isDeviceOpen hs =? 0 then hs
  else
    let '(_, hs) := call h (usb_release_interface (deviceHandle hs) 0) hs in
    let '(_, hs) := call h (usb_close (deviceHandle hs)) hs in
    set_isDeviceOpen 0 hs.

(** [sane_cancel] works on the scan state and on the handle. *)
Definition sane_cancel (dev : device) (tbl : tables) (h : host) (hs : handle_state)
  : M handle_state :=
  finalizeScanner dev tbl ;;
  let '(_, hs) := call h (usb_reset (deviceHandle hs)) hs in
  ret (set_isDeviceOpen 0 hs).

(** A library that opens every device with the handle 7 and completes
    every call, and one on which claiming the interface fails. *)
Definition willing_host : host :=
  fun _ c => match c with usb_open _ => 7 | _ => 0 end.

Definition unwilling_host : host :=
  fun _ c =>
    match c with
    | usb_open _ => 7
    | usb_claim_interface _ _ => -1
    | _ => 0
    end.

Definition colorado_2400u : usb_device := mkDevice 0x0461 0x0346 3.

Definition closed_handle : handle_state := mkHandle 0 0 [].

(** The handle state after [willing_host] has opened [colorado_2400u]. *)
Definition opened_handle : handle_state :=
  mkHandle 1 7
    [(usb_open colorado_2400u, 7); (usb_set_configuration 7 1, 0);
     (usb_claim_interface 7 0, 0); (usb_set_altinterface 7 0, 0)].

(** The handle state after [unwilling_host] has refused the interface. *)
Definition refused_handle : handle_state :=
  mkHandle 0 7
    [(usb_open colorado_2400u, 7); (usb_set_configuration 7 1, 0);
     (usb_claim_interface 7 0, -1); (usb_set_altinterface 7 0, 0)].

(** A hub on the first bus, a mouse of the same vendor and the scanner on
    the second. *)
Definition two_busses : list (list usb_device) :=
  [[mkDevice 0x1d6b 2 1]; [mkDevice 0x0461 0x4d15 2; colorado_2400u]].

(** ** The pixel values the standalone program prints *)

(** The value of a [char] that holds the byte [b]. *)
Definition signed_char (b : Z) : Z :=
  if to_char b <? 0x80 then to_char b else to_char b - 0x100.

(** [for (j = n - 1; j > -1; --j)] over the bits of [c]: the numbers
    printed, in order. *)
Fixpoint print_bits (n : nat) (c : Z) : list Z :=
  match n with
  | O => []
  | S j => (if Z.land (Z.shiftr c (Z.of_nat j)) 1 =? 0 then 0 else 255) :: print_bits j c
  end.

(** The body of the loop over the bytes read, in [main]. *)
Definition print_byte (dpiValue : Z) (b : Z) : list Z :=
  let c := signed_char b in
  if dpiValue =? 100 then [Z.land c 0xff] else print_bits 8 c.

Definition print_buffer (dpiValue : Z) (buffer : list Z) (length : Z) : list Z :=
  flat_map (print_byte dpiValue) (take (Z.to_nat length) buffer).

(** The byte whose bits, first the highest, are the samples [vs]. *)
Definition pack_samples (vs : list Z) : Z :=
  fold_left (fun acc v => 2 * acc + (if v =? 0 then 0 else 1)) vs 0.

(** Tables whose scan table ends with its one bulk read. *)
Definition bulk_last_tables : tables :=
  mkTables [control_out] 1
    (bulk_read_3 ++ control_out) 2
    (bulk_read_3 ++ control_out) 2
    [control_out] 1
    [] 0
    bulk_read_3 1
    bulk_read_3 1
    [control_out; control_out] 2.

(** ** The reading loop of the standalone program *)

Module Standalone.

Section Program.

Variable dev : device.
Variable tbl : tables.

(** The standalone [bulkRead] waits 2000 instead of 3000. *)
Definition bulkRead (data : list Z) : M Z :=
  let ep := data.[1] in
  let size := Z.shiftl data.[2] 8 + data.[3] in
  result <- usb_bulk_read dev ep size 2000 ;;
  ret (bulk_result result size).

(** The branch [if (dataAvailable > 0)]: the bytes stored in [buf] and
    the value assigned to [*len]; no byte is complemented. *)
Definition serve (max_len : Z) : M (list Z * Z) :=
  avail <- get dataAvailable ;;
  w <- get whereInBuffer ;;
  if avail <? max_len then
    buf <- copy_out avail w ;;
    modify (set_dataAvailable 0) ;;
    modify (set_whereInBuffer 0) ;;
    ret (buf, avail)
  else
    buf <- copy_out max_len w ;;
    modify (set_dataAvailable (avail - max_len)) ;;
    modify (set_whereInBuffer (w + max_len)) ;;
    ret (buf, max_len).

Definition scan_dispatch (data : list Z) : M Z :=
  if data.[0] =? 0xfa then
    result <- bulkRead data ;;
    modify (set_dataAvailable (Z.shiftl data.[2] 8 + data.[3])) ;;
    modify (set_whereInBuffer 0) ;;
    ret result
  else controlTransfer dev data.

(** [sane_read] returns nothing: [Some (bytes, len)] when it has stored
    [bytes] in [buf] and [len] in [*len], [None] when it has run the
    finalize table and set [tempVar] to 1, touching neither. *)
Fixpoint sane_read_loop (n : nat) (typePtr : list Z) (max_len : Z) : M (option (list Z * Z)) :=
  match n with
  | O =>
      finalizeScanner dev tbl ;;
      ret None
  | S n' =>
      avail <- get dataAvailable ;;
      if avail >? 0 then
        served <- serve max_len ;;
        ret (Some served)
      else
        k <- get i ;;
        result <- scan_dispatch (at_record typePtr k) ;;
        if negb (result =? 1) then exit 1
        else
          modify (set_i (k + 1)) ;;
          sane_read_loop n' typePtr max_len
  end.

Definition sane_read (max_len : Z) : M (option (list Z * Z)) :=
  dpi <- get dpiValue ;;
  let typePtr := if dpi =? 200 then scanBlack tbl else scanColor tbl in
  let typeSize := if dpi =? 200 then scanBlackSize tbl else scanColorSize tbl in
  k <- get i ;;
  sane_read_loop (Z.to_nat (typeSize - k)) typePtr max_len.

(** The variables of the loop in [main], and the numbers printed so far. *)
Record reader : Type := mkReader {
  buffer : list Z;
  length : Z;
  tempVar : Z;
  printed : list Z
}.

(** One pass through the body of [while (tempVar != 1)]. *)
Definition main_pass (r : reader) : M reader :=
  got <- sane_read 3000 ;;
  dpi <- get dpiValue ;;
  let r :=
    match got with
    | Some (bytes, len) => mkReader (fill bytes (buffer r)) len (tempVar r) (printed r)
    | None => mkReader (buffer r) (length r) 1 (printed r)
    end in
  ret (mkReader (buffer r) (length r) (tempVar r)
         (printed r ++ print_buffer dpi (buffer r) (length r))).

Fixpoint main_loop (passes : nat) (r : reader) : M reader :=
  if tempVar r =? 1 then ret r
  else
    match passes with
    | O => fun _ => Spin
    | S passes' =>
        r <- main_pass r ;;
        main_loop passes' r
    end.

End Program.

End Standalone.

(** The variables of the loop when [main] enters it, with a zeroed
    buffer. *)
Definition fresh_reader : Standalone.reader :=
  Standalone.mkReader (replicate 3000 0) 0 0 [].

(** ** Tables of bytes *)

(** The ints of a table as a capture holds them: each one a byte. *)
Definition byte_list (l : list Z) : Prop := Forall (fun x => 0 <= x <= 255) l.

(** ** The dispatch the specification describes *)

(** The primitive for a record of the setup table, chosen by the leading
    byte as the specification lists it. *)
Definition spec_setup_primitive (dev : device) (bound : nat) (data : list Z) : M Z :=
  match data.[0] with
  | 0xfa => bulkRead dev data
  | 0xfb => repeatedControlTransfer dev bound data
  | 0xff => writeBulk0s dev data
  | _ => controlTransfer dev data
  end.

(** The same for a record of the scan table, where only the bulk read is
    told apart; the cursor is set after it. *)
Definition spec_scan_primitive (dev : device) (data : list Z) : M Z :=
  match data.[0] with
  | 0xfa =>
      result <- bulkRead dev data ;;
      modify (set_dataAvailable (declared_size data)) ;;
      modify (set_whereInBuffer 0) ;;
      ret result
  | _ => controlTransfer dev data
  end.

(** Tables whose setup table has one record of each kind. *)
Definition opcode_tables : tables :=
  mkTables [control_out] 1
    (bulk_read_3 ++ poll_for_0x55 ++ zero_write_5 ++ control_out) 4
    (bulk_read_3 ++ poll_for_0x55 ++ zero_write_5 ++ control_out) 4
    [control_out] 1
    [] 0
    (bulk_read_3 ++ control_out) 2
    (bulk_read_3 ++ control_out) 2
    [control_out; control_out] 2.

(** Tables whose scan table is one polling record. *)
Definition poll_scan_tables : tables :=
  mkTables [control_out] 1
    (bulk_read_3 ++ control_out) 2
    (bulk_read_3 ++ control_out) 2
    [control_out] 1
    [] 0
    poll_for_0x55 1
    poll_for_0x55 1
    [control_out] 1.

(** * Basic facts *)

Section MonadFacts.

Lemma bind_Ret {A B} (m : M A) (k : A -> M B) st a st' :
  m st = Ret a st' -> bind m k st = k a st'.
Proof. intros H. unfold bind. now rewrite H. Qed.

Lemma bind_Undefined {A B} (m : M A) (k : A -> M B) st :
  m st = Undefined -> bind m k st = Undefined.
Proof. intros H. unfold bind. now rewrite H. Qed.

Lemma for_count_app n m k body st :
  for_count (n + m) k body st =
  bind (for_count n k body) (fun _ => for_count m (k + Z.of_nat n) body) st.
Proof.
  revert k st. induction n as [|n IH]; intros k st.
  - cbn. now rewrite Z.add_0_r.
  - cbn [Nat.add for_count]. unfold bind in *.
    destruct (body k st) as [[] st1| | |]; try reflexivity.
    rewrite IH. replace (k + 1 + Z.of_nat n) with (k + Z.of_nat (S n)) by lia.
    reflexivity.
Qed.

Lemma store_in_range k v st :
  0 <= k < Z.of_nat (length (largeBuffer st)) ->
  store k v st = Ret tt (set_largeBuffer (<[Z.to_nat k := v]> (largeBuffer st)) st).
Proof.
  intros [H1 H2]. unfold store. apply Z.leb_le in H1. rewrite H1.
  destruct (lookup_lt_is_Some_2 (largeBuffer st) (Z.to_nat k)) as [x ->]; [lia|].
  reflexivity.
Qed.

Lemma store_out_of_range k v st :
  Z.of_nat (length (largeBuffer st)) <= k -> store k v st = Undefined.
Proof.
  intros H. unfold store. destruct (0 <=? k); [|reflexivity].
  now rewrite lookup_ge_None_2 by lia.
Qed.

Lemma load_in_range k st b :
  0 <= k -> largeBuffer st !! Z.to_nat k = Some b -> load k st = Ret b st.
Proof.
  intros H1 H2. unfold load. apply Z.leb_le in H1. now rewrite H1, H2.
Qed.

(** A counted loop of stores [largeBuffer[j + off] = f j] rewrites one
    segment of the buffer. *)
Lemma for_count_store (f : Z -> Z) (off n a : nat) st :
  (a + off + n <= length (largeBuffer st))%nat ->
  for_count n (Z.of_nat a) (fun j => store (j + Z.of_nat off) (f j)) st =
  Ret tt (set_largeBuffer
            (take (a + off) (largeBuffer st)
               ++ map (fun m => f (Z.of_nat m)) (seq a n)
               ++ drop (a + off + n) (largeBuffer st)) st).
Proof.
  revert a st. induction n as [|n IH]; intros a st Hlen.
  - cbn. unfold ret. rewrite Nat.add_0_r, take_drop. now destruct st.
  - cbn [for_count]. erewrite bind_Ret; [|apply store_in_range; lia].
    replace (Z.of_nat a + 1) with (Z.of_nat (S a)) by lia.
    rewrite IH; [|cbn; rewrite length_insert; lia].
    f_equal. unfold set_largeBuffer. cbn. f_equal.
    replace (Z.to_nat (Z.of_nat a + Z.of_nat off)) with (a + off)%nat by lia.
    rewrite drop_insert_lt by lia.
    replace (S (a + off)) with (S a + off)%nat by lia.
    assert (Hlt : (a + off < length (largeBuffer st))%nat) by lia.
    destruct (lookup_lt_is_Some_2 _ _ Hlt) as [x Hx].
    cbn [Nat.add].
    erewrite take_S_r by (rewrite list_lookup_insert_eq by lia; reflexivity).
    rewrite take_insert_ge by lia.
    rewrite <- app_assoc. cbn. repeat f_equal. lia.
Qed.

Lemma for_count_store_overrun (f : Z -> Z) (off n a : nat) st :
  (a + off <= length (largeBuffer st) < a + off + n)%nat ->
  for_count n (Z.of_nat a) (fun j => store (j + Z.of_nat off) (f j)) st = Undefined.
Proof.
  revert a st. induction n as [|n IH]; intros a st Hlen; [lia|].
  cbn [for_count].
  destruct (Nat.eq_dec (a + off)%nat (length (largeBuffer st))) as [He|Hne].
  - apply bind_Undefined, store_out_of_range. lia.
  - erewrite bind_Ret; [|apply store_in_range; lia].
    replace (Z.of_nat a + 1) with (Z.of_nat (S a)) by lia.
    apply IH. cbn. rewrite length_insert. lia.
Qed.

Lemma returned_Some {A} (o : outcome A) a : returned o = Some a -> exists st, o = Ret a st.
Proof. destruct o; cbn; intros [= ->]. eauto. Qed.

End MonadFacts.

(** * What the primitives leave alone *)

Lemma frame_refl st : frame st st.
Proof. now split. Qed.

Lemma frame_trans st1 st2 st3 : frame st1 st2 -> frame st2 st3 -> frame st1 st3.
Proof. unfold frame. intros [H1 H2] [H3 H4]. split; congruence. Qed.

Lemma framed_ret {A} (a : A) (Q : A -> Prop) : Q a -> framed (ret a) Q.
Proof. intros HQ st. cbn. split; [assumption|apply frame_refl]. Qed.

Lemma framed_bind {A B} (m : M A) (k : A -> M B) (Q1 : A -> Prop) (Q : B -> Prop) :
  framed m Q1 -> (forall a, Q1 a -> framed (k a) Q) -> framed (bind m k) Q.
Proof.
  intros Hm Hk st. unfold bind. specialize (Hm st).
  destruct (m st) as [a st1| | |]; try assumption.
  destruct Hm as [Ha Hf]. specialize (Hk a Ha st1).
  destruct (k a st1) as [b st2| | |]; try assumption.
  destruct Hk as [Hb Hf2]. split; [assumption|]. eapply frame_trans; eassumption.
Qed.

Lemma framed_weaken {A} (m : M A) (Q1 Q : A -> Prop) :
  framed m Q1 -> (forall a, Q1 a -> Q a) -> framed m Q.
Proof.
  intros Hm HQ st. specialize (Hm st). destruct (m st); try assumption.
  destruct Hm. split; auto.
Qed.

Lemma framed_get {A} (f : state -> A) : framed (get f) (fun _ => True).
Proof. intros st. cbn. split; [exact I|apply frame_refl]. Qed.

Lemma framed_load k : framed (load k) (fun _ => True).
Proof.
  intros st. unfold load.
  destruct (if 0 <=? k then _ else _); [|exact I].
  split; [exact I|apply frame_refl].
Qed.

Lemma framed_store k v : framed (store k v) (fun _ => True).
Proof.
  intros st. unfold store.
  destruct (if 0 <=? k then _ else _); [|exact I].
  split; [exact I|]. now split.
Qed.

Lemma framed_usb_transfer dev c size incoming :
  framed (usb_transfer dev c size incoming) (fun _ => True).
Proof.
  intros st. unfold usb_transfer. cbv zeta.
  destruct (_ <=? _)%nat; [|exact I].
  split; [exact I|]. now split.
Qed.

Lemma framed_for_count n k body :
  (forall j, framed (body j) (fun _ => True)) ->
  framed (for_count n k body) (fun _ => True).
Proof.
  intros Hbody. revert k. induction n as [|n IH]; intros k.
  - now apply framed_ret.
  - cbn [for_count]. eapply framed_bind; [apply Hbody|]. intros _ _. apply IH.
Qed.

Lemma framed_for_range lo hi body :
  (forall j, framed (body j) (fun _ => True)) ->
  framed (for_range lo hi body) (fun _ => True).
Proof. apply framed_for_count. Qed.

Lemma framed_for_range_ret {R} lo hi (body : Z -> M (option R)) :
  (forall j, framed (body j) (fun _ => True)) ->
  framed (for_range_ret lo hi body) (fun _ => True).
Proof.
  intros Hbody. unfold for_range_ret. generalize (Z.to_nat (hi - lo)) as n.
  intros n. revert lo. induction n as [|n IH]; intros lo.
  - now apply framed_ret.
  - cbn [for_count_ret]. eapply framed_bind; [apply Hbody|].
    intros [v|] _; [now apply framed_ret|apply IH].
Qed.

Lemma framed_bulk_result (m : M Z) size :
  framed m (fun _ => True) ->
  framed (bind m (fun result => ret (bulk_result result size))) (fun _ => True).
Proof.
  intros Hm. eapply framed_bind; [exact Hm|]. intros r _. now apply framed_ret.
Qed.

Lemma framed_controlTransfer dev data :
  framed (controlTransfer dev data) (fun r => r = 0 \/ r = 1).
Proof.
  unfold controlTransfer.
  eapply framed_bind.
  { apply framed_for_range. intros j. apply framed_store. }
  intros _ _. eapply framed_bind; [apply framed_usb_transfer|].
  intros r _. destruct (r <? 0); apply framed_ret; auto.
Qed.

Lemma framed_bulkRead dev data : framed (bulkRead dev data) (fun _ => True).
Proof. unfold bulkRead. apply framed_bulk_result, framed_usb_transfer. Qed.

Lemma framed_writeBulk0s dev data : framed (writeBulk0s dev data) (fun _ => True).
Proof.
  unfold writeBulk0s. eapply framed_bind.
  { apply framed_for_range. intros j. apply framed_store. }
  intros _ _. apply framed_bulk_result, framed_usb_transfer.
Qed.

Lemma framed_calibrationWrite dev tbl data :
  framed (calibrationWrite dev tbl data) (fun _ => True).
Proof.
  unfold calibrationWrite. eapply framed_bind.
  { apply framed_for_range. intros j. apply framed_store. }
  intros _ _. eapply framed_bind.
  { apply framed_for_range. intros j. apply framed_store. }
  intros _ _. apply framed_bulk_result, framed_usb_transfer.
Qed.

Lemma framed_calibrate_loop n k incr : framed (calibrate_loop n k incr) (fun _ => True).
Proof.
  revert k incr. induction n as [|n IH]; intros k incr.
  - now apply framed_ret.
  - cbn [calibrate_loop]. eapply framed_bind.
    { apply framed_for_range. intros j. apply framed_store. }
    intros _ _. apply IH.
Qed.

Lemma framed_calibrate dev : framed (calibrate dev) (fun _ => True).
Proof.
  unfold calibrate. eapply framed_bind; [apply framed_calibrate_loop|].
  intros _ _. apply framed_bulk_result, framed_usb_transfer.
Qed.

Lemma framed_repeatedControlTransfer dev bound data :
  framed (repeatedControlTransfer dev bound data) (fun r => r = 0 \/ r = 1).
Proof.
  unfold repeatedControlTransfer.
  generalize data.[1], data.[2], (Z.shiftl data.[4] 8 + data.[3]),
    (Z.shiftl data.[6] 8 + data.[5]), (Z.shiftl data.[8] 8 + data.[7]), (to_char data.[9]).
  intros requestType request value index size check.
  induction bound as [|bound IH]; cbn [repeatedControlTransfer_loop].
  - eapply framed_bind; [apply framed_load|]. intros b _.
    destruct (negb _); [intros st; exact I|apply framed_ret; auto].
  - eapply framed_bind; [apply framed_load|]. intros b _.
    destruct (negb _); [|apply framed_ret; auto].
    eapply framed_bind; [apply framed_usb_transfer|]. intros r _.
    destruct (r <? 0); [apply framed_ret; auto|apply IH].
Qed.

Lemma framed_any {A} (m : M A) (Q : A -> Prop) : framed m Q -> framed m (fun _ => True).
Proof. intros H. eapply framed_weaken; [exact H|auto]. Qed.

Lemma framed_setup_dispatch dev bound data :
  framed (setup_dispatch dev bound data) (fun _ => True).
Proof.
  unfold setup_dispatch.
  destruct (data.[0] =? 0xfa); [apply framed_bulkRead|].
  destruct (data.[0] =? 0xfb); [eapply framed_any, framed_repeatedControlTransfer|].
  destruct (data.[0] =? 0xff); [apply framed_writeBulk0s|].
  eapply framed_any, framed_controlTransfer.
Qed.

Lemma framed_calibration_dispatch dev tbl data :
  framed (calibration_dispatch dev tbl data) (fun _ => True).
Proof.
  unfold calibration_dispatch.
  destruct (data.[0] =? 0xfc); [apply framed_calibrationWrite|].
  destruct (data.[0] =? 0xfd); [apply framed_calibrate|].
  eapply framed_any, framed_controlTransfer.
Qed.

Lemma framed_sane_start dev tbl bound :
  framed (sane_start dev tbl bound) (fun _ => True).
Proof.
  unfold sane_start. eapply framed_bind.
  { unfold initialize_phase. apply framed_for_range_ret. intros j.
    eapply framed_bind; [apply framed_controlTransfer|].
    intros r _. destruct (negb _); now apply framed_ret. }
  intros [status|] _; [now apply framed_ret|].
  eapply framed_bind.
  { unfold setup_phase. eapply framed_bind; [apply framed_get|]. intros dpi _.
    apply framed_for_range. intros j.
    eapply framed_bind; [apply framed_setup_dispatch|].
    intros r _. destruct (negb _); now apply framed_ret. }
  intros _ _. eapply framed_bind.
  { unfold calibration_phase. apply framed_for_range_ret. intros j.
    eapply framed_bind; [apply framed_calibration_dispatch|].
    intros r _. destruct (negb _); now apply framed_ret. }
  intros [status|] _; now apply framed_ret.
Qed.

(** * The finalize table *)

(** For every table and device [finalizeScanner] never calls [exit], and
    when it returns it returns 1: [controlTransfer] returns 0 or 1, never
    a negative value. *)
Lemma framed_finalizeScanner dev tbl : framed (finalizeScanner dev tbl) (fun r => r = 1).
Proof.
  unfold finalizeScanner. eapply framed_bind.
  { apply framed_for_range. intros j.
    eapply framed_bind; [apply framed_controlTransfer|].
    intros r [-> | ->]; now apply framed_ret. }
  intros _ _. now apply framed_ret.
Qed.

(** C3 (code as written): on a device where every control transfer
    fails, [finalizeScanner] issues both records of the finalize table,
    each returning -1, does not call [exit] and returns 1. *)
Lemma finalizeScanner_survives_failed_transfers :
  returned (finalizeScanner broken_control small_tables (initial_state 100)) = Some 1
  /\ map snd (requests (finalizeScanner broken_control small_tables (initial_state 100)))
     = [-1; -1].
Proof. split; vm_compute; reflexivity. Qed.

(** * Loops of stores and single transfers *)

Lemma for_count_ext n k (body1 body2 : Z -> M unit) st :
  (forall j s, body1 j s = body2 j s) ->
  for_count n k body1 st = for_count n k body2 st.
Proof.
  intros Hext. revert k st. induction n as [|n IH]; intros k st; [reflexivity|].
  cbn [for_count]. unfold bind. rewrite Hext.
  destruct (body2 k st); auto.
Qed.

Lemma map_const_seq {A} (v : A) a n : map (fun _ : nat => v) (seq a n) = replicate n v.
Proof.
  revert a. induction n as [|n IH]; intros a; [reflexivity|].
  cbn. now rewrite IH.
Qed.

(** The zero-fill loop [for (i = 0; i <= size; ++i) largeBuffer[i] = 0;]
    when it stays inside the buffer. *)
Lemma zero_fill_fits size st :
  0 <= size < Z.of_nat (length (largeBuffer st)) ->
  for_range 0 (size + 1) (fun i => store i 0) st =
  Ret tt (set_largeBuffer
            (replicate (Z.to_nat (size + 1)) 0
               ++ drop (Z.to_nat (size + 1)) (largeBuffer st)) st).
Proof.
  intros Hsize. unfold for_range.
  rewrite (for_count_ext _ _ _ (fun j => store (j + Z.of_nat 0) ((fun _ => 0) j)))
    by (intros j s; f_equal; lia).
  change 0 with (Z.of_nat 0) at 2.
  rewrite (for_count_store (fun _ => 0) 0 (Z.to_nat (size + 1 - 0)) 0 st) by lia.
  rewrite map_const_seq. cbn [Nat.add take app].
  now rewrite Z.sub_0_r.
Qed.

Lemma zero_fill_overruns size st :
  Z.of_nat (length (largeBuffer st)) <= size ->
  for_range 0 (size + 1) (fun i => store i 0) st = Undefined.
Proof.
  intros Hsize. unfold for_range.
  rewrite (for_count_ext _ _ _ (fun j => store (j + Z.of_nat 0) ((fun _ => 0) j)))
    by (intros j s; f_equal; lia).
  change 0 with (Z.of_nat 0) at 2.
  apply (for_count_store_overrun (fun _ => 0) 0 (Z.to_nat (size + 1 - 0)) 0 st). lia.
Qed.

Lemma usb_transfer_fits dev c size incoming st :
  size <= Z.of_nat (length (largeBuffer st)) ->
  exists st',
    usb_transfer dev c size incoming st
    = Ret (rep_result (dev (usb_log st) c (take (Z.to_nat size) (largeBuffer st)))) st'
    /\ (incoming = false -> largeBuffer st' = largeBuffer st)
    /\ length (largeBuffer st') = length (largeBuffer st)
    /\ cursor st' = cursor st
    /\ dpiValue st' = dpiValue st
    /\ usb_log st' =
       usb_log st ++
         [mkEvent c (take (Z.to_nat size) (largeBuffer st))
            (rep_result (dev (usb_log st) c (take (Z.to_nat size) (largeBuffer st))))].
Proof.
  intros Hsize. unfold usb_transfer. cbv zeta.
  assert (Hfit : (Z.to_nat size <=? length (take (Z.to_nat size) (largeBuffer st)))%nat = true).
  { apply Nat.leb_le. rewrite length_take. lia. }
  rewrite Hfit.
  eexists. split; [reflexivity|]. cbn.
  repeat split; try reflexivity.
  - now intros ->.
  - destruct incoming; [|reflexivity].
    unfold fill. rewrite length_app, length_drop.
    set (d := take _ (map _ _)). assert (length d <= Z.to_nat size)%nat.
    { unfold d. rewrite length_take. lia. }
    lia.
Qed.

(** * The bulk zero-write *)

(** C10: for a record with a non-negative computed size, the zero-fill
    loop of [writeBulk0s] stores 0 at the indices 0..size, that is size + 1
    bytes, and leaves the rest of the buffer alone; with the 65535-byte
    [largeBuffer] the call runs outside the buffer exactly when the size
    exceeds 0xFFFE, and for the size 0xFFFF the stores at 0..0xFFFE are
    inside and the last one, at index 0xFFFF, is outside. *)
Theorem writeBulk0s_zero_fill_bounds dev data st :
  let size := Z.shiftl data.[2] 8 + data.[1] in
  Z.of_nat (length (largeBuffer st)) = LARGE_BUFFER_SIZE ->
  0 <= size ->
  (size <= 0xFFFE ->
   exists r st',
     writeBulk0s dev data st = Ret r st'
     /\ largeBuffer st' =
        replicate (Z.to_nat (size + 1)) 0 ++ drop (Z.to_nat (size + 1)) (largeBuffer st))
  /\ (writeBulk0s dev data st = Undefined <-> 0xFFFE < size)
  /\ (size = 0xFFFF ->
      exists st1,
        for_range 0 size (fun i => store i 0) st = Ret tt st1
        /\ store size 0 st1 = Undefined).
Proof.
  intros size Hlen Hsize. unfold LARGE_BUFFER_SIZE in Hlen.
  assert (Hfit : size <= 0xFFFE ->
     exists r st',
       writeBulk0s dev data st = Ret r st'
       /\ largeBuffer st' =
          replicate (Z.to_nat (size + 1)) 0 ++ drop (Z.to_nat (size + 1)) (largeBuffer st)).
  { intros Hle. unfold writeBulk0s. fold size.
    erewrite bind_Ret by (apply zero_fill_fits; lia).
    set (st1 := set_largeBuffer _ st).
    assert (Hlen1 : length (largeBuffer st1) = length (largeBuffer st)).
    { unfold st1. cbn. rewrite length_app, length_replicate, length_drop. lia. }
    destruct (usb_transfer_fits dev (BulkWrite data.[1] size 100) size false st1)
      as (st2 & Hrun & Hbuf & _); [lia|].
    unfold usb_bulk_write. erewrite bind_Ret by exact Hrun.
    eexists _, st2. split; [reflexivity|]. now rewrite Hbuf. }
  split; [exact Hfit|]. split.
  - split.
    + intros Hun. destruct (Z_lt_le_dec 0xFFFE size) as [|Hle]; [assumption|].
      destruct (Hfit Hle) as (r & st' & Hrun & _). congruence.
    + intros Hgt. unfold writeBulk0s. fold size.
      apply bind_Undefined, zero_fill_overruns. lia.
  - intros Heq.
    assert (Hrun : for_range 0 size (fun i => store i 0) st
                   = for_range 0 ((size - 1) + 1) (fun i => store i 0) st)
      by (f_equal; lia).
    rewrite Hrun, zero_fill_fits by lia.
    eexists. split; [reflexivity|].
    apply store_out_of_range. cbn.
    rewrite length_app, length_replicate, length_drop. lia.
Qed.

(** The hypotheses of [writeBulk0s_zero_fill_bounds] hold for the record
    [zero_write_5] in the initial state. *)
Lemma writeBulk0s_zero_fill_bounds_witness :
  Z.of_nat (length (largeBuffer (initial_state 100))) = LARGE_BUFFER_SIZE
  /\ 0 <= Z.shiftl zero_write_5.[2] 8 + zero_write_5.[1]
  /\ (writeBulk0s (scanner []) zero_write_5 (initial_state 100) = Undefined
      <-> 0xFFFE < Z.shiftl zero_write_5.[2] 8 + zero_write_5.[1]).
Proof.
  assert (H1 : Z.of_nat (length (largeBuffer (initial_state 100))) = LARGE_BUFFER_SIZE)
    by (vm_compute; reflexivity).
  assert (H2 : 0 <= Z.shiftl zero_write_5.[2] 8 + zero_write_5.[1])
    by (vm_compute; discriminate).
  split; [exact H1|]. split; [exact H2|].
  exact (proj1 (proj2 (writeBulk0s_zero_fill_bounds (scanner []) zero_write_5
                         (initial_state 100) H1 H2))).
Defined.

(** C7 (code as written): for the record [0xff, 0x02, 0x00, 0x05, ...],
    whose size field, read as [bulkRead] and [calibrationWrite] read it,
    is (0x00 << 8) + 0x05 = 5, [writeBulk0s] issues one bulk write of
    (0x00 << 8) + 0x02 = 2 bytes: the low byte is the endpoint [data[1]],
    not [data[3]]. *)
Lemma writeBulk0s_size_takes_endpoint_byte :
  Z.shiftl zero_write_5.[2] 8 + zero_write_5.[3] = 5
  /\ requests (writeBulk0s (scanner []) zero_write_5 (initial_state 100))
     = [(BulkWrite 2 2 100, 2)]
  /\ requests (bulkRead (scanner []) zero_write_5 (initial_state 100))
     = [(BulkRead 2 5 3000, 5)].
Proof. split; [|split]; vm_compute; reflexivity. Qed.

(** * The calibration ramp *)

Lemma to_char_mod x : to_char x = x mod 256.
Proof. unfold to_char. change 0xff with (Z.ones 8). now rewrite Z.land_ones by lia. Qed.

Lemma to_char_small x : 0 <= x < 256 -> to_char x = x.
Proof. intros H. rewrite to_char_mod. now apply Z.mod_small. Qed.

(** The counter of the outer loop of [calibrate] after a block. *)
Lemma incr_wraps b :
  (if Z.of_nat b mod 256 + 1 >? 0xff then 0 else Z.of_nat b mod 256 + 1)
  = Z.of_nat (S b) mod 256.
Proof.
  assert (H := Z.mod_pos_bound (Z.of_nat b) 256 ltac:(lia)).
  replace (Z.of_nat (S b)) with (Z.of_nat b + 1) by lia.
  rewrite (Z.div_mod (Z.of_nat b) 256) at 3 by lia.
  destruct (Z.gtb_spec (Z.of_nat b mod 256 + 1) 0xff) as [Hgt|Hle].
  - replace (256 * (Z.of_nat b / 256) + Z.of_nat b mod 256 + 1)
      with ((Z.of_nat b / 256 + 1) * 256) by lia.
    now rewrite Z.mod_mul by lia.
  - replace (256 * (Z.of_nat b / 256) + Z.of_nat b mod 256 + 1)
      with (Z.of_nat b mod 256 + 1 + (Z.of_nat b / 256) * 256) by lia.
    rewrite Z.mod_add by lia. symmetry. apply Z.mod_small. lia.
Qed.

Lemma ramp_block b :
  map (fun p : nat => Z.of_nat p / 64 mod 256) (seq (64 * b) 64)
  = replicate 64 (Z.of_nat b mod 256).
Proof.
  apply list_eq. intros j.
  destruct (Nat.lt_ge_cases j 64) as [Hlt|Hge].
  - rewrite lookup_replicate_2 by assumption.
    rewrite list_lookup_fmap, lookup_seq_lt by assumption.
    change (Some (Z.of_nat (64 * b + j) / 64 mod 256) = Some (Z.of_nat b mod 256)).
    do 2 f_equal.
    replace (Z.of_nat (64 * b + j)) with (Z.of_nat j + Z.of_nat b * 64) by lia.
    rewrite Z.div_add by lia. rewrite Z.div_small by lia. lia.
  - rewrite lookup_ge_None_2 by (rewrite length_map, length_seq; assumption).
    symmetry. apply lookup_replicate_None. assumption.
Qed.

(** [n] blocks from block [b] on, with the counter at [b mod 256]. *)
Lemma calibrate_loop_ramp n b st :
  (64 * (b + n) <= length (largeBuffer st))%nat ->
  calibrate_loop n (Z.of_nat (64 * b)) (Z.of_nat b mod 256) st =
  Ret tt (set_largeBuffer
            (take (64 * b) (largeBuffer st)
               ++ map (fun p : nat => Z.of_nat p / 64 mod 256) (seq (64 * b) (64 * n))
               ++ drop (64 * (b + n)) (largeBuffer st)) st).
Proof.
  revert b st. induction n as [|n IH]; intros b st Hlen.
  - cbn [calibrate_loop]. unfold ret.
    replace (64 * 0)%nat with 0%nat by lia. cbn [seq map app].
    replace (64 * (b + 0))%nat with (64 * b)%nat by lia.
    rewrite take_drop. now destruct st.
  - cbn [calibrate_loop]. unfold for_range.
    change (Z.to_nat (64 - 0)) with 64%nat.
    assert (Hinner :
      for_count 64 0 (fun j => store (j + Z.of_nat (64 * b)) (to_char (Z.of_nat b mod 256))) st
      = Ret tt (set_largeBuffer
                  (take (64 * b) (largeBuffer st)
                     ++ replicate 64 (Z.of_nat b mod 256)
                     ++ drop (64 * b + 64) (largeBuffer st)) st)).
    { change 0 with (Z.of_nat 0) at 1.
      rewrite (for_count_store (fun _ => to_char (Z.of_nat b mod 256)) (64 * b) 64 0 st)
        by lia.
      rewrite map_const_seq, to_char_small by (apply Z.mod_pos_bound; lia).
      reflexivity. }
    erewrite bind_Ret by exact Hinner. cbv zeta.
    rewrite incr_wraps.
    replace (Z.of_nat (64 * b) + 64) with (Z.of_nat (64 * S b)) by lia.
    set (st1 := set_largeBuffer _ st).
    assert (Hlen1 : length (largeBuffer st1) = length (largeBuffer st)).
    { unfold st1. cbn [largeBuffer set_largeBuffer].
      rewrite !length_app, length_take, length_replicate, length_drop. lia. }
    rewrite IH by lia.
    f_equal. unfold st1, set_largeBuffer. cbn [largeBuffer dpiValue dataAvailable
      whereInBuffer i usb_log]. f_equal.
    set (B := largeBuffer st) in *. set (v := Z.of_nat b mod 256).
    assert (Htake : (64 * b)%nat = length (take (64 * b) B))
      by (rewrite length_take; lia).
    assert (Ht : take (64 * S b) (take (64 * b) B ++ replicate 64 v ++ drop (64 * b + 64) B)
                 = take (64 * b) B ++ replicate 64 v).
    { replace (64 * S b)%nat with (64 * b + 64)%nat by lia.
      rewrite take_app_add' by assumption.
      now rewrite take_app_length' by (now rewrite length_replicate). }
    assert (Hd : drop (64 * (S b + n))
                   (take (64 * b) B ++ replicate 64 v ++ drop (64 * b + 64) B)
                 = drop (64 * (b + S n)) B).
    { replace (64 * (S b + n))%nat with (64 * b + (64 + 64 * n))%nat by lia.
      rewrite drop_app_add' by assumption.
      rewrite drop_app_add' by (now rewrite length_replicate).
      rewrite drop_drop. f_equal. lia. }
    assert (Hs : map (fun p : nat => Z.of_nat p / 64 mod 256) (seq (64 * b) (64 * S n))
                 = replicate 64 v
                     ++ map (fun p : nat => Z.of_nat p / 64 mod 256) (seq (64 * S b) (64 * n))).
    { replace (64 * S n)%nat with (64 + 64 * n)%nat by lia.
      rewrite seq_app, map_app, ramp_block. do 3 f_equal. lia. }
    rewrite Ht, Hd, Hs, <- !app_assoc. reflexivity.
Qed.

Lemma bulk_result_cases result size :
  (result = size -> 0 < size -> bulk_result result size = 1)
  /\ (0 < result -> result <> size -> bulk_result result size = 2)
  /\ (result <= 0 -> bulk_result result size = 0).
Proof.
  unfold bulk_result. repeat split; intros.
  - subst. destruct (Z.gtb_spec size 0); [|lia]. now rewrite Z.eqb_refl.
  - destruct (Z.gtb_spec result 0); [|lia].
    destruct (Z.eqb_spec result size); [lia|reflexivity].
  - destruct (Z.gtb_spec result 0); [lia|reflexivity].
Qed.

(** C9: [calibrate] writes 0xC000 bytes at the start of the shared buffer,
    the 64 bytes of block k all equal to k mod 256, leaves the rest of the
    buffer alone and issues one bulk-out transfer on endpoint 2 of 0xC000
    bytes, which are that ramp; it returns 1 when the count written is
    0xC000, 2 when it is positive and different, 0 when the call reports an
    error. *)
Theorem calibrate_writes_ramp dev st :
  Z.of_nat (length (largeBuffer st)) = LARGE_BUFFER_SIZE ->
  exists result st',
    calibrate dev st = Ret (bulk_result result 0xc000) st'
    /\ (forall k j, 0 <= k < 0xc000 / 64 -> 0 <= j < 64 ->
        largeBuffer st' !! Z.to_nat (64 * k + j) = Some (k mod 256))
    /\ drop (Z.to_nat 0xc000) (largeBuffer st') = drop (Z.to_nat 0xc000) (largeBuffer st)
    /\ length (largeBuffer st') = length (largeBuffer st)
    /\ usb_log st' =
       usb_log st ++
         [mkEvent (BulkWrite 2 0xc000 100) (take (Z.to_nat 0xc000) (largeBuffer st')) result]
    /\ (result = 0xc000 -> bulk_result result 0xc000 = 1)
    /\ (0 < result -> result <> 0xc000 -> bulk_result result 0xc000 = 2)
    /\ (result < 0 -> bulk_result result 0xc000 = 0).
Proof.
  intros Hlen. unfold LARGE_BUFFER_SIZE in Hlen.
  unfold calibrate. cbv zeta.
  change (Z.to_nat ((0xc000 + 63) / 64)) with 768%nat.
  change (calibrate_loop 768 0 0) with
    (calibrate_loop 768 (Z.of_nat (64 * 0)) (Z.of_nat 0 mod 256)).
  erewrite bind_Ret by (apply calibrate_loop_ramp; lia).
  set (ramp := map (fun p : nat => Z.of_nat p / 64 mod 256) (seq (64 * 0) (64 * 768))).
  assert (Hramp : length ramp = Z.to_nat 0xc000).
  { unfold ramp. rewrite length_map, length_seq. lia. }
  replace (take (64 * 0) (largeBuffer st)) with (@nil Z) by (now rewrite Nat.mul_0_r).
  cbn [app].
  set (st1 := set_largeBuffer _ st).
  assert (Hbuf1 : largeBuffer st1 = ramp ++ drop (64 * (0 + 768)) (largeBuffer st))
    by reflexivity.
  assert (Hlen1 : length (largeBuffer st1) = length (largeBuffer st)).
  { rewrite Hbuf1, length_app, length_drop. lia. }
  destruct (usb_transfer_fits dev (BulkWrite 2 0xc000 100) 0xc000 false st1)
    as (st2 & Hrun & Hsame & Hlen2 & _ & _ & Hlog); [lia|].
  specialize (Hsame eq_refl).
  unfold usb_bulk_write. erewrite bind_Ret by exact Hrun. unfold ret.
  eexists _, st2. split; [reflexivity|].
  split; [|split; [|split; [|split]]].
  - intros k j Hk Hj. change (0xc000 / 64) with 768 in Hk.
    rewrite Hsame, Hbuf1, lookup_app_l by lia.
    unfold ramp. rewrite list_lookup_fmap, lookup_seq_lt by lia.
    change (Some (Z.of_nat (64 * 0 + Z.to_nat (64 * k + j)) / 64 mod 256) = Some (k mod 256)).
    do 2 f_equal.
    replace (Z.of_nat (64 * 0 + Z.to_nat (64 * k + j))) with (j + k * 64) by lia.
    rewrite Z.div_add by lia. rewrite Z.div_small by lia. lia.
  - rewrite Hsame, Hbuf1. rewrite drop_app_length' by (symmetry; exact Hramp).
    f_equal; lia.
  - congruence.
  - rewrite Hlog, Hsame. reflexivity.
  - destruct (bulk_result_cases
                (rep_result (dev (usb_log st1) (BulkWrite 2 0xc000 100)
                               (take (Z.to_nat 0xc000) (largeBuffer st1)))) 0xc000)
      as (H1 & H2 & H3).
    repeat split; intros; [apply H1|apply H2|apply H3]; lia.
Qed.

(** The initial state satisfies the hypothesis of [calibrate_writes_ramp]. *)
Lemma calibrate_writes_ramp_witness :
  Z.of_nat (length (largeBuffer (initial_state 100))) = LARGE_BUFFER_SIZE
  /\ exists result st',
       calibrate (scanner []) (initial_state 100) = Ret (bulk_result result 0xc000) st'
       /\ largeBuffer st' !! Z.to_nat (64 * 257 + 5) = Some 1.
Proof.
  assert (H : Z.of_nat (length (largeBuffer (initial_state 100))) = LARGE_BUFFER_SIZE)
    by (vm_compute; reflexivity).
  split; [exact H|].
  destruct (calibrate_writes_ramp (scanner []) (initial_state 100) H)
    as (result & st' & Hrun & Hblocks & _).
  exists result, st'. split; [exact Hrun|].
  apply (Hblocks 257 5); [change (0xc000 / 64) with 768|]; lia.
Defined.

(** * The polling transfer *)

Section PollingFacts.

Variable dev : device.
Variables requestType request value index size checkCharacter : Z.

Local Abbreviation loop bound :=
  (repeatedControlTransfer_loop dev bound requestType request value index size checkCharacter).

Local Abbreviation run :=
  (polls dev requestType request value index size checkCharacter).

Lemma load_first_byte st b : largeBuffer st !! 0%nat = Some b -> load 0 st = Ret b st.
Proof. intros H. now apply load_in_range. Qed.

Lemma polls_within_bound st n r st' :
  run st n r st' -> forall bound, (n <= bound)%nat -> loop bound st = Ret r st'.
Proof.
  induction 1 as [st (b & Hb & Heq)
                 |st result st' (b & Hb & Hne) Hmsg Hneg
                 |st result st1 n r st' (b & Hb & Hne) Hmsg Hpos _ IH];
    intros bound Hbound.
  - assert (Hcond : negb (Z.land b 0xff =? Z.land checkCharacter 0xff) = false)
      by (apply negb_false_iff, Z.eqb_eq; exact Heq).
    destruct bound; cbn [repeatedControlTransfer_loop];
      erewrite bind_Ret by (apply load_first_byte; exact Hb);
      rewrite Hcond; reflexivity.
  - assert (Hcond : negb (Z.land b 0xff =? Z.land checkCharacter 0xff) = true)
      by (apply negb_true_iff, Z.eqb_neq; exact Hne).
    destruct bound as [|bound]; [lia|].
    cbn [repeatedControlTransfer_loop].
    erewrite bind_Ret by (apply load_first_byte; exact Hb).
    rewrite Hcond. erewrite bind_Ret by exact Hmsg.
    apply Z.ltb_lt in Hneg. now rewrite Hneg.
  - assert (Hcond : negb (Z.land b 0xff =? Z.land checkCharacter 0xff) = true)
      by (apply negb_true_iff, Z.eqb_neq; exact Hne).
    destruct bound as [|bound]; [lia|].
    cbn [repeatedControlTransfer_loop].
    erewrite bind_Ret by (apply load_first_byte; exact Hb).
    rewrite Hcond. erewrite bind_Ret by exact Hmsg.
    apply Z.ltb_ge in Hpos. rewrite Hpos. apply IH. lia.
Qed.

Lemma load_Ret k st b st' :
  load k st = Ret b st' -> st' = st /\ 0 <= k /\ largeBuffer st !! Z.to_nat k = Some b.
Proof.
  unfold load. destruct (Z.leb_spec 0 k) as [Hk|Hk]; [|discriminate].
  destruct (largeBuffer st !! Z.to_nat k) as [x|] eqn:Hx; [|discriminate].
  intros [= -> ->]. auto.
Qed.

Lemma returned_loop_polls bound :
  forall st r st', loop bound st = Ret r st' -> exists n, (n <= bound)%nat /\ run st n r st'.
Proof.
  induction bound as [|bound IH]; intros st r st' Hrun;
    cbn [repeatedControlTransfer_loop] in Hrun;
    unfold bind at 1 in Hrun;
    destruct (load 0 st) as [b st0| | |] eqn:Hload; try discriminate;
    apply load_Ret in Hload; destruct Hload as (-> & _ & Hb); change (Z.to_nat 0) with 0%nat in Hb;
    destruct (Z.eqb_spec (Z.land b 0xff) (Z.land checkCharacter 0xff)) as [Heq|Hne];
    cbn [negb] in Hrun.
  - injection Hrun as <- <-. exists 0%nat. split; [lia|].
    apply polls_ready. now exists b.
  - discriminate.
  - injection Hrun as <- <-. exists 0%nat. split; [lia|].
    apply polls_ready. now exists b.
  - unfold bind at 1 in Hrun.
    destruct (usb_control_msg dev requestType request value index size 300 st)
      as [result st1| | |] eqn:Hmsg; try discriminate.
    destruct (Z.ltb_spec result 0) as [Hneg|Hpos].
    + injection Hrun as <- <-. exists 1%nat. split; [lia|].
      eapply polls_error; [now exists b|exact Hmsg|exact Hneg].
    + destruct (IH _ _ _ Hrun) as (n & Hn & Hpolls).
      exists (S n). split; [lia|].
      eapply polls_retry; [now exists b|exact Hmsg|exact Hpos|exact Hpolls].
Qed.

Lemma usb_transfer_Ret c sz incoming st r st' :
  usb_transfer dev c sz incoming st = Ret r st' ->
  exists out, usb_log st' = usb_log st ++ [mkEvent c out r].
Proof.
  unfold usb_transfer. cbv zeta. destruct (_ <=? _)%nat; [|discriminate].
  intros [= <- <-]. eexists. reflexivity.
Qed.

(** What a polling run leaves in the trace. *)
Lemma polls_trace st n r st' :
  run st n r st' ->
  exists evs,
    usb_log st' = usb_log st ++ evs
    /\ length evs = n
    /\ Forall (fun e => ev_call e = ControlMsg requestType request value index size 300) evs
    /\ ((r = 1
         /\ first_byte_matches checkCharacter st'
         /\ Forall (fun e => 0 <= ev_result e) evs)
        \/ (r = 0
            /\ exists evs0 e,
                 evs = evs0 ++ [e]
                 /\ ev_result e < 0
                 /\ Forall (fun e => 0 <= ev_result e) evs0)).
Proof.
  induction 1 as [st Hmatch
                 |st result st' _ Hmsg Hneg
                 |st result st1 n r st' _ Hmsg Hpos _ IH].
  - exists []. rewrite app_nil_r. repeat split; auto.
  - apply usb_transfer_Ret in Hmsg. destruct Hmsg as [out Hlog].
    exists [mkEvent (ControlMsg requestType request value index size 300) out result].
    repeat split; auto. right. split; [reflexivity|].
    exists [], (mkEvent (ControlMsg requestType request value index size 300) out result).
    repeat split; auto.
  - apply usb_transfer_Ret in Hmsg. destruct Hmsg as [out Hlog].
    destruct IH as (evs & Hevs & Hlen & Hcalls & Hend).
    set (e := mkEvent (ControlMsg requestType request value index size 300) out result) in *.
    exists (e :: evs). rewrite Hevs, Hlog, <- app_assoc.
    repeat split; [cbn; lia|constructor; auto|].
    destruct Hend as [(-> & Hm & Hall)|(-> & evs0 & e0 & -> & Hlast & Hall)].
    + left. repeat split; auto.
    + right. split; [reflexivity|]. exists (e :: evs0), e0. repeat split; auto.
Qed.

End PollingFacts.

(** [repeatedControlTransfer] examines the first byte of the
    transfer buffer before each attempt, the first one included, so with
    the expected byte already there it returns 1 and issues nothing.
    Otherwise it repeats the same control transfer; it returns 1 exactly
    when the byte matches (all transfers issued having succeeded) and 0 at
    the first transfer that reports an error, which is then the last one
    issued.  Given a bound of at least the number of transfers the run
    needs, the function returns that result. *)
Lemma repeatedControlTransfer_runs dev data st :
  let run :=
    polls dev data.[1] data.[2] (Z.shiftl data.[4] 8 + data.[3])
      (Z.shiftl data.[6] 8 + data.[5]) (Z.shiftl data.[8] 8 + data.[7]) (to_char data.[9]) in
  let call :=
    ControlMsg data.[1] data.[2] (Z.shiftl data.[4] 8 + data.[3])
      (Z.shiftl data.[6] 8 + data.[5]) (Z.shiftl data.[8] 8 + data.[7]) 300 in
  (first_byte_matches (to_char data.[9]) st ->
   forall bound, repeatedControlTransfer dev bound data st = Ret 1 st)
  /\ (forall n r st', run st n r st' ->
      forall bound, (n <= bound)%nat -> repeatedControlTransfer dev bound data st = Ret r st')
  /\ (forall bound r st', repeatedControlTransfer dev bound data st = Ret r st' ->
      exists n evs,
        (n <= bound)%nat /\ run st n r st'
        /\ usb_log st' = usb_log st ++ evs
        /\ length evs = n
        /\ Forall (fun e => ev_call e = call) evs
        /\ ((r = 1
             /\ first_byte_matches (to_char data.[9]) st'
             /\ Forall (fun e => 0 <= ev_result e) evs)
            \/ (r = 0
                /\ exists evs0 e,
                     evs = evs0 ++ [e]
                     /\ ev_result e < 0
                     /\ Forall (fun e => 0 <= ev_result e) evs0))).
Proof.
  intros run call. split; [|split].
  - intros Hmatch bound. unfold repeatedControlTransfer.
    eapply polls_within_bound; [apply polls_ready; exact Hmatch|lia].
  - intros n r st' Hrun bound Hbound. unfold repeatedControlTransfer.
    eapply polls_within_bound; eassumption.
  - intros bound r st' Hret. unfold repeatedControlTransfer in Hret.
    apply returned_loop_polls in Hret. destruct Hret as (n & Hn & Hrun).
    destruct (polls_trace _ _ _ _ _ _ _ _ _ _ _ Hrun) as (evs & Hlog & Hlen & Hcalls & Hend).
    exists n, evs. repeat split; assumption.
Qed.

(** C8 (code as written): a control transfer leaves its payload byte 0x55
    at the start of the buffer; the polling record that follows waits for
    0x55, finds it there, and returns 1 without issuing any transfer: the
    only request of the run is the first control transfer, and the scanner
    is reported ready without having been asked. *)
Lemma repeatedControlTransfer_may_issue_no_transfer :
  returned (write_then_poll (scanner []) 10 control_out_0x55 poll_for_0x55 (initial_state 100))
  = Some 1
  /\ map fst (requests (write_then_poll (scanner []) 10 control_out_0x55 poll_for_0x55
                          (initial_state 100)))
     = [ControlMsg 0x40 0x0c 0x87 0 1 300].
Proof. split; vm_compute; reflexivity. Qed.

(** * Dispatch by opcode *)

Lemma setup_dispatch_as_spec dev bound data :
  setup_dispatch dev bound data = spec_setup_primitive dev bound data.
Proof.
  unfold setup_dispatch, spec_setup_primitive.
  destruct (Z.eqb_spec data.[0] 0xfa) as [->|Hfa]; [reflexivity|].
  destruct (Z.eqb_spec data.[0] 0xfb) as [->|Hfb]; [reflexivity|].
  destruct (Z.eqb_spec data.[0] 0xff) as [->|Hff]; [reflexivity|].
  destruct data.[0] as [|p|p]; try reflexivity.
  do 8 (destruct p as [p|p|]; try reflexivity); congruence.
Qed.

Lemma scan_dispatch_as_spec dev data :
  scan_dispatch dev data = spec_scan_primitive dev data.
Proof.
  unfold scan_dispatch, spec_scan_primitive, declared_size.
  destruct (Z.eqb_spec data.[0] 0xfa) as [->|Hfa]; [reflexivity|].
  destruct data.[0] as [|p|p]; try reflexivity.
  do 8 (destruct p as [p|p|]; try reflexivity); congruence.
Qed.

(** * The setup phase *)

Lemma setup_loop_as_results dev bound typePtr n k st :
  for_count n k (fun i =>
    result <- setup_dispatch dev bound (at_record typePtr i) ;;
    if negb (result =? 1) then ret tt else ret tt) st
  = (setup_results_from dev bound typePtr n k ;; ret tt) st.
Proof.
  revert k st. induction n as [|n IH]; intros k st; [reflexivity|].
  cbn [for_count setup_results_from]. unfold bind at 1 2 4 5.
  destruct (setup_dispatch dev bound (at_record typePtr k) st) as [r st1| | |];
    try reflexivity.
  replace ((if negb (r =? 1) then ret tt else ret tt) st1) with (Ret tt st1)
    by (now destruct (negb (r =? 1))).
  rewrite IH. unfold bind.
  destruct (setup_results_from dev bound typePtr n (k + 1) st1); reflexivity.
Qed.

Lemma setup_phase_as_results dev tbl bound st :
  setup_phase dev tbl bound st = (setup_results dev tbl bound ;; ret tt) st.
Proof.
  unfold setup_phase, setup_results, for_range. unfold bind at 1 2 4. cbn [get].
  rewrite Z.sub_0_r. apply setup_loop_as_results.
Qed.

Lemma setup_results_from_length dev bound typePtr n :
  forall k st rs st',
    setup_results_from dev bound typePtr n k st = Ret rs st' -> length rs = n.
Proof.
  induction n as [|n IH]; intros k st rs st' Hrun; cbn [setup_results_from] in Hrun.
  - now injection Hrun as <- _.
  - unfold bind at 1 in Hrun.
    destruct (setup_dispatch dev bound (at_record typePtr k) st) as [r st1| | |];
      try discriminate.
    unfold bind at 1 in Hrun.
    destruct (setup_results_from dev bound typePtr n (k + 1) st1) as [rs1 st2| | |] eqn:Hrest;
      try discriminate.
    injection Hrun as <- _. cbn. f_equal. eapply IH. exact Hrest.
Qed.

(** C5: once the initialize table has succeeded, [sane_start] dispatches
    every record of the setup table of the mode, in order, whatever values
    [rs] the dispatches return, goes on with the calibration table, and its
    status is the one the calibration gives: [SANE_STATUS_GOOD] when the
    calibration succeeds, an error only when the calibration fails. *)
Theorem sane_start_ignores_setup_results dev tbl bound st rs :
  returned (initialize_phase dev tbl st) = Some None ->
  returned ((initialize_phase dev tbl ;; setup_results dev tbl bound) st) = Some rs ->
  length rs = Z.to_nat (if dpiValue st =? 200 then setupBlackSize tbl else setupColorSize tbl)
  /\ sane_start dev tbl bound st
     = (initialize_phase dev tbl ;;
        setup_results dev tbl bound ;;
        r <- calibration_phase dev tbl ;;
        ret (status_after_calibration r)) st
  /\ (forall r,
        returned ((initialize_phase dev tbl ;;
                   setup_results dev tbl bound ;;
                   calibration_phase dev tbl) st) = Some r ->
        returned (sane_start dev tbl bound st) = Some (status_after_calibration r)).
Proof.
  intros Hinit Hsetup.
  apply returned_Some in Hinit. destruct Hinit as [st1 Hinit].
  assert (Hdpi : dpiValue st1 = dpiValue st).
  { assert (Hf := framed_for_range_ret 0 (scannerSetupSize tbl)
      (fun i => result <- controlTransfer dev (row (scannerSetup tbl) i) ;;
                if negb (result =? 1) then ret (Some SANE_STATUS_IO_ERROR) else ret None)).
    specialize (Hf ltac:(intros j; eapply framed_bind; [apply framed_controlTransfer|];
                         intros r _; destruct (negb _); now apply framed_ret) st).
    unfold initialize_phase in Hinit. rewrite Hinit in Hf. apply Hf. }
  assert (Heq : sane_start dev tbl bound st
     = (initialize_phase dev tbl ;;
        setup_results dev tbl bound ;;
        r <- calibration_phase dev tbl ;;
        ret (status_after_calibration r)) st).
  { unfold sane_start, bind. rewrite Hinit, setup_phase_as_results. unfold bind.
    destruct (setup_results dev tbl bound st1) as [rs1 st2| | |]; try reflexivity.
    cbn [ret].
    destruct (calibration_phase dev tbl st2) as [[status|] st3| | |]; reflexivity. }
  split; [|split].
  - unfold bind in Hsetup. rewrite Hinit in Hsetup.
    apply returned_Some in Hsetup. destruct Hsetup as [st2 Hsetup].
    unfold setup_results, bind in Hsetup. cbn [get] in Hsetup.
    rewrite Hdpi in Hsetup.
    eapply setup_results_from_length. exact Hsetup.
  - exact Heq.
  - intros r Hcal. rewrite Heq. unfold bind in *. rewrite Hinit in *.
    destruct (setup_results dev tbl bound st1) as [rs1 st2| | |]; try discriminate.
    destruct (calibration_phase dev tbl st2) as [r' st3| | |]; try discriminate.
    cbn in *. congruence.
Qed.

(** A run of [sane_start_ignores_setup_results]: every bulk transfer
    fails, so the first setup record, a bulk read, returns 0; the start
    still succeeds. *)
Lemma sane_start_ignores_setup_results_witness :
  returned (initialize_phase broken_bulk small_tables (initial_state 100)) = Some None
  /\ returned ((initialize_phase broken_bulk small_tables ;;
                setup_results broken_bulk small_tables 10) (initial_state 100)) = Some [0; 1]
  /\ returned (sane_start broken_bulk small_tables 10 (initial_state 100))
     = Some SANE_STATUS_GOOD.
Proof.
  assert (H1 : returned (initialize_phase broken_bulk small_tables (initial_state 100))
               = Some None) by (vm_compute; reflexivity).
  assert (H2 : returned ((initialize_phase broken_bulk small_tables ;;
                          setup_results broken_bulk small_tables 10) (initial_state 100))
               = Some [0; 1]) by (vm_compute; reflexivity).
  split; [exact H1|]. split; [exact H2|].
  apply (proj2 (proj2 (sane_start_ignores_setup_results broken_bulk small_tables 10
                         (initial_state 100) [0; 1] H1 H2)) None).
  vm_compute; reflexivity.
Defined.

(** * The read cursor across sessions *)

(** C6, amended: the cursor is (0, 0, 0) at program start and
    [sane_start] never assigns it: whenever [sane_start] returns, the
    pending-byte count, the buffer offset and the table index are what they
    were before the call. *)
Theorem sane_start_keeps_cursor dev tbl bound st status :
  returned (sane_start dev tbl bound st) = Some status ->
  option_map cursor (final_state (sane_start dev tbl bound st)) = Some (cursor st)
  /\ forall dpi, cursor (initial_state dpi) = (0, 0, 0).
Proof.
  intros Hret. split; [|reflexivity].
  apply returned_Some in Hret. destruct Hret as [st' Hret].
  assert (Hf := framed_sane_start dev tbl bound st).
  rewrite Hret in *. cbn. f_equal. apply Hf.
Qed.

(** A run of [sane_start_keeps_cursor], on a state in the middle of a
    scan: one byte pending at offset 2, table index 1. *)
Lemma sane_start_keeps_cursor_witness :
  returned (sane_start (scanner [1; 2; 3]) small_tables 10
              (set_dataAvailable 1 (set_whereInBuffer 2 (set_i 1 (initial_state 100)))))
  = Some SANE_STATUS_GOOD
  /\ option_map cursor
       (final_state (sane_start (scanner [1; 2; 3]) small_tables 10
                       (set_dataAvailable 1 (set_whereInBuffer 2 (set_i 1 (initial_state 100))))))
     = Some (1, 2, 1).
Proof.
  assert (H : returned (sane_start (scanner [1; 2; 3]) small_tables 10
                (set_dataAvailable 1 (set_whereInBuffer 2 (set_i 1 (initial_state 100)))))
              = Some SANE_STATUS_GOOD) by (vm_compute; reflexivity).
  split; [exact H|].
  exact (proj1 (sane_start_keeps_cursor (scanner [1; 2; 3]) small_tables 10 _ _ H)).
Defined.

(** C6, against the claim: after a colour session read to its end with
    capacity 2, a second [sane_start] succeeds and leaves the cursor at
    (0, 0, 2), and the first read of the second session hands back
    end-of-stream with no bytes. *)
Lemma second_session_starts_at_table_end :
  returned (second_session (scanner [1; 2; 3]) small_tables 10 10 2 (initial_state 100))
  = Some (SANE_STATUS_GOOD, (0, 0, 2), mkRead SANE_STATUS_EOF [] None)
  /\ returned (session (scanner [1; 2; 3]) small_tables 10 10 2 (initial_state 100))
     = Some (SANE_STATUS_EOF, [1; 2; 3]).
Proof. split; vm_compute; reflexivity. Qed.

(** * Serving pending bytes *)

(** The bytes of the buffer from offset [w] on, [n] of them. *)
Lemma copy_count_segment n a w st :
  (a + w + n <= length (largeBuffer st))%nat ->
  copy_count n (Z.of_nat a) (Z.of_nat w) st
  = Ret (take n (drop (a + w) (largeBuffer st))) st.
Proof.
  revert a. induction n as [|n IH]; intros a Hlen; [reflexivity|].
  cbn [copy_count].
  destruct (lookup_lt_is_Some_2 (largeBuffer st) (a + w)) as [b Hb]; [lia|].
  erewrite bind_Ret
    by (apply load_in_range; [lia|];
        replace (Z.to_nat (Z.of_nat a + Z.of_nat w)) with (a + w)%nat by lia; exact Hb).
  replace (Z.of_nat a + 1) with (Z.of_nat (S a)) by lia.
  erewrite bind_Ret by (apply IH; lia).
  unfold ret. rewrite (drop_S _ _ _ Hb). reflexivity.
Qed.

(** The loop that flips the pending bytes in place. *)
Lemma invert_segment n a w st :
  (a + w + n <= length (largeBuffer st))%nat ->
  for_count n (Z.of_nat a)
    (fun j => b <- load (j + Z.of_nat w) ;; store (j + Z.of_nat w) (char_not b)) st
  = Ret tt (set_largeBuffer
              (take (a + w) (largeBuffer st)
                 ++ map char_not (take n (drop (a + w) (largeBuffer st)))
                 ++ drop (a + w + n) (largeBuffer st)) st).
Proof.
  revert a st. induction n as [|n IH]; intros a st Hlen.
  - cbn [for_count]. unfold ret. rewrite take_0. cbn [map app].
    rewrite Nat.add_0_r, take_drop. now destruct st.
  - cbn [for_count].
    destruct (lookup_lt_is_Some_2 (largeBuffer st) (a + w)) as [b Hb]; [lia|].
    assert (Hidx : Z.to_nat (Z.of_nat a + Z.of_nat w) = (a + w)%nat) by lia.
    assert (Hbody :
      (b0 <- load (Z.of_nat a + Z.of_nat w) ;;
       store (Z.of_nat a + Z.of_nat w) (char_not b0)) st
      = Ret tt (set_largeBuffer (<[(a + w)%nat := char_not b]> (largeBuffer st)) st)).
    { erewrite bind_Ret by (apply load_in_range; [lia|rewrite Hidx; exact Hb]).
      rewrite store_in_range by lia. now rewrite Hidx. }
    erewrite bind_Ret by exact Hbody.
    replace (Z.of_nat a + 1) with (Z.of_nat (S a)) by lia.
    rewrite IH by (cbn; rewrite length_insert; lia).
    f_equal. unfold set_largeBuffer. cbn [largeBuffer dpiValue dataAvailable whereInBuffer
      i usb_log]. f_equal.
    set (B := largeBuffer st) in *.
    replace (S a + w)%nat with (S (a + w)) by lia.
    erewrite take_S_r by (rewrite list_lookup_insert_eq by lia; reflexivity).
    rewrite take_insert_ge by lia.
    rewrite !drop_insert_lt by lia.
    rewrite (drop_S B b (a + w) Hb). cbn [take map].
    rewrite <- app_assoc. cbn [app].
    replace (S (a + w) + n)%nat with (a + w + S n)%nat by lia. reflexivity.
Qed.

(** The pending bytes: [dataAvailable] bytes of the buffer from
    [whereInBuffer] on, lying inside the buffer. *)
Lemma serve_last_chunk max_len st :
  0 <= whereInBuffer st ->
  0 <= dataAvailable st < max_len ->
  whereInBuffer st + dataAvailable st <= Z.of_nat (length (largeBuffer st)) ->
  exists st',
    serve max_len st
    = Ret (mkRead SANE_STATUS_GOOD
             (map (if dpiValue st =? 200 then char_not else fun b => b)
                (take (Z.to_nat (dataAvailable st))
                   (drop (Z.to_nat (whereInBuffer st)) (largeBuffer st))))
             (Some (dataAvailable st))) st'
    /\ cursor st' = (0, 0, i st)
    /\ dpiValue st' = dpiValue st
    /\ usb_log st' = usb_log st
    /\ length (largeBuffer st') = length (largeBuffer st).
Proof.
  intros Hw Havail Hfit. unfold serve.
  unfold bind at 1. cbn [get]. unfold bind at 1. cbn [get].
  destruct (Z.ltb_spec (dataAvailable st) max_len) as [_|]; [|lia].
  unfold bind at 1. cbn [get].
  set (n := Z.to_nat (dataAvailable st)). set (w := Z.to_nat (whereInBuffer st)).
  assert (Hwz : whereInBuffer st = Z.of_nat w) by lia.
  destruct (dpiValue st =? 200) eqn:Hdpi.
  - unfold for_range. rewrite Z.sub_0_r. fold n. rewrite Hwz.
    change 0 with (Z.of_nat 0) at 1.
    erewrite bind_Ret by (apply (invert_segment n 0 w st); lia).
    cbn [Nat.add].
    set (st1 := set_largeBuffer _ st).
    assert (Hlen1 : length (largeBuffer st1) = length (largeBuffer st)).
    { unfold st1. cbn [largeBuffer set_largeBuffer].
      rewrite !length_app, length_map, !length_take, !length_drop. lia. }
    unfold copy_out. fold n. change 0 with (Z.of_nat 0) at 1.
    erewrite bind_Ret by (apply (copy_count_segment n 0 w st1); lia).
    cbn [Nat.add]. eexists. split.
    + unfold bind, modify, ret. do 2 f_equal.
      unfold st1. cbn [largeBuffer set_largeBuffer].
      rewrite drop_app_length' by (rewrite length_take; lia).
      rewrite take_app_length' by (rewrite length_map, length_take, length_drop; lia).
      reflexivity.
    + cbn. repeat split; auto.
  - unfold copy_out. fold n. rewrite Hwz. change 0 with (Z.of_nat 0) at 1.
    erewrite bind_Ret by reflexivity.
    erewrite bind_Ret by (apply (copy_count_segment n 0 w st); lia).
    cbn [Nat.add]. eexists. split.
    + unfold bind, modify, ret. do 2 f_equal. now rewrite map_id.
    + cbn. repeat split; auto.
Qed.

Lemma serve_partial_chunk max_len st :
  0 <= whereInBuffer st ->
  0 <= dataAvailable st ->
  max_len <= dataAvailable st ->
  whereInBuffer st + dataAvailable st <= Z.of_nat (length (largeBuffer st)) ->
  serve max_len st
  = Ret (mkRead SANE_STATUS_GOOD
           (take (Z.to_nat max_len) (drop (Z.to_nat (whereInBuffer st)) (largeBuffer st)))
           (Some max_len))
        (set_whereInBuffer (whereInBuffer st + max_len)
           (set_dataAvailable (dataAvailable st - max_len) st)).
Proof.
  intros Hw Hpos Havail Hfit. unfold serve.
  unfold bind at 1. cbn [get]. unfold bind at 1. cbn [get].
  destruct (Z.ltb_spec (dataAvailable st) max_len) as [|_]; [lia|].
  set (n := Z.to_nat max_len). set (w := Z.to_nat (whereInBuffer st)).
  assert (Hwz : whereInBuffer st = Z.of_nat w) by lia.
  unfold copy_out. fold n. rewrite Hwz at 1. change 0 with (Z.of_nat 0) at 1.
  erewrite bind_Ret by (apply (copy_count_segment n 0 w st); lia).
  reflexivity.
Qed.

(** C1 (code as written): in monochrome mode the device sends
    [0x00, 0xff, 0x0f]; a read of capacity 2 is served by the branch for
    pending data of at least the capacity and hands back the raw bytes
    [0x00, 0xff], while a read of capacity 4 hands back their complements. *)
Lemma sane_read_mono_partial_chunk_not_inverted :
  option_map rd_buf
    (returned (sane_read (scanner [0x00; 0xff; 0x0f]) small_tables 2 (initial_state 200)))
  = Some [0x00; 0xff]
  /\ option_map rd_buf
       (returned (sane_read (scanner [0x00; 0xff; 0x0f]) small_tables 4 (initial_state 200)))
     = Some [0xff; 0x00; 0xf0].
Proof. split; vm_compute; reflexivity. Qed.

(** * Chunking in colour mode *)

Lemma oblivious_ret {A} (a : A) : oblivious (ret a).
Proof. intros v st. reflexivity. Qed.

Lemma oblivious_bind {A B} (m : M A) (k : A -> M B) :
  oblivious m -> (forall a, oblivious (k a)) -> oblivious (bind m k).
Proof.
  intros Hm Hk v st. unfold bind. rewrite Hm.
  destruct (m st) as [a st1| | |]; cbn; [apply Hk|reflexivity..].
Qed.

Lemma oblivious_load k : oblivious (load k).
Proof.
  intros v st. unfold load. cbn [largeBuffer set_whereInBuffer].
  destruct (if 0 <=? k then _ else _); reflexivity.
Qed.

Lemma oblivious_store k x : oblivious (store k x).
Proof.
  intros v st. unfold store. cbn [largeBuffer set_whereInBuffer].
  destruct (if 0 <=? k then _ else _); reflexivity.
Qed.

Lemma oblivious_usb_transfer dev c size incoming :
  oblivious (usb_transfer dev c size incoming).
Proof.
  intros v st. unfold usb_transfer. cbn [largeBuffer usb_log set_whereInBuffer]. cbv zeta.
  destruct (_ <=? _)%nat; reflexivity.
Qed.

Lemma oblivious_for_count n k body :
  (forall j, oblivious (body j)) -> oblivious (for_count n k body).
Proof.
  intros Hbody. revert k. induction n as [|n IH]; intros k.
  - apply oblivious_ret.
  - cbn [for_count]. apply oblivious_bind; [apply Hbody|]. intros _. apply IH.
Qed.

Lemma oblivious_controlTransfer dev data : oblivious (controlTransfer dev data).
Proof.
  unfold controlTransfer. apply oblivious_bind.
  { apply oblivious_for_count. intros j. apply oblivious_store. }
  intros _. apply oblivious_bind; [apply oblivious_usb_transfer|].
  intros r. destruct (r <? 0); apply oblivious_ret.
Qed.

Lemma oblivious_bulkRead dev data : oblivious (bulkRead dev data).
Proof.
  unfold bulkRead. apply oblivious_bind; [apply oblivious_usb_transfer|].
  intros r. apply oblivious_ret.
Qed.

Lemma oblivious_finalizeScanner dev tbl : oblivious (finalizeScanner dev tbl).
Proof.
  unfold finalizeScanner. apply oblivious_bind.
  { apply oblivious_for_count. intros j.
    apply oblivious_bind; [apply oblivious_controlTransfer|].
    intros r. destruct (r <? 0); [|apply oblivious_ret]. intros v st. reflexivity. }
  intros _. apply oblivious_ret.
Qed.

Lemma observe_outcome_map {A} v (o : outcome A) :
  observe (outcome_map (set_whereInBuffer v) o) = observe o.
Proof. destruct o; reflexivity. Qed.

Section ColourChunks.

Variable dev : device.
Variable tbl : tables.
Variable cap : Z.
Hypothesis cap_positive : 1 <= cap.

Lemma sane_read_colour st :
  dpiValue st <> 200 ->
  sane_read dev tbl cap st
  = sane_read_loop dev tbl (Z.to_nat (scanColorSize tbl - i st)) (scanColor tbl) cap st.
Proof.
  intros Hdpi. unfold sane_read, bind, get.
  apply Z.eqb_neq in Hdpi. now rewrite Hdpi.
Qed.

Lemma sane_read_loop_pending n typePtr st :
  0 < dataAvailable st ->
  sane_read_loop dev tbl (S n) typePtr cap st = serve cap st.
Proof.
  intros Havail. cbn [sane_read_loop]. unfold bind at 1. cbn [get].
  destruct (Z.gtb_spec (dataAvailable st) 0); [reflexivity|lia].
Qed.

Lemma serve_last_chunk_colour st :
  dpiValue st <> 200 ->
  0 <= whereInBuffer st ->
  0 <= dataAvailable st < cap ->
  whereInBuffer st + dataAvailable st <= Z.of_nat (length (largeBuffer st)) ->
  serve cap st
  = Ret (mkRead SANE_STATUS_GOOD
           (take (Z.to_nat (dataAvailable st))
              (drop (Z.to_nat (whereInBuffer st)) (largeBuffer st)))
           (Some (dataAvailable st)))
        (set_whereInBuffer 0 (set_dataAvailable 0 st)).
Proof.
  intros Hdpi Hw Havail Hfit. unfold serve.
  unfold bind at 1. cbn [get]. unfold bind at 1. cbn [get].
  destruct (Z.ltb_spec (dataAvailable st) cap) as [_|]; [|lia].
  unfold bind at 1. cbn [get].
  apply Z.eqb_neq in Hdpi. rewrite Hdpi.
  set (n := Z.to_nat (dataAvailable st)). set (w := Z.to_nat (whereInBuffer st)).
  assert (Hwz : whereInBuffer st = Z.of_nat w) by lia.
  unfold copy_out. fold n.
  erewrite bind_Ret by reflexivity.
  rewrite Hwz at 1. change 0 with (Z.of_nat 0) at 1.
  erewrite bind_Ret by (apply (copy_count_segment n 0 w st); lia).
  reflexivity.
Qed.

Lemma take_drop_split (B : list Z) (w c a : nat) :
  (c <= a)%nat ->
  take c (drop w B) ++ take (a - c) (drop (w + c) B) = take a (drop w B).
Proof.
  intros Hle. rewrite <- drop_drop.
  rewrite <- (take_drop c (drop w B)) at 3.
  rewrite take_app.
  destruct (Nat.le_gt_cases c (length (drop w B))) as [Hfit|Hshort].
  - rewrite length_take, Nat.min_l by assumption.
    rewrite take_take, Nat.min_r by lia. reflexivity.
  - rewrite (take_ge (drop w B) c) by lia.
    rewrite (drop_ge (drop w B) c) by lia.
    rewrite !take_nil, !app_nil_r. now rewrite take_ge by lia.
Qed.

(** The pending bytes of one bulk read, handed over in chunks of at most
    [cap] bytes by [K] calls. *)
Lemma drain_pending m :
  forall a st,
    Z.to_nat (dataAvailable st) = a ->
    dpiValue st <> 200 ->
    Z.to_nat (scanColorSize tbl - i st) = S m ->
    0 < dataAvailable st ->
    0 <= whereInBuffer st ->
    whereInBuffer st + dataAvailable st <= Z.of_nat (length (largeBuffer st)) ->
    exists K v,
      forall calls,
        drain dev tbl (K + calls) cap st
        = (rest <- drain dev tbl calls cap ;;
           ret (fst rest,
                take (Z.to_nat (dataAvailable st))
                  (drop (Z.to_nat (whereInBuffer st)) (largeBuffer st)) ++ snd rest))
            (set_whereInBuffer v (set_dataAvailable 0 st)).
Proof.
  induction a as [a IH] using lt_wf_ind.
  intros st Ha Hdpi Hn Havail Hw Hfit.
  destruct (Z_lt_le_dec (dataAvailable st) cap) as [Hlast|Hpart].
  - exists 1%nat, 0. intros calls. cbn [Nat.add drain]. unfold bind at 1.
    rewrite sane_read_colour, Hn, sane_read_loop_pending, serve_last_chunk_colour
      by (assumption || lia).
    reflexivity.
  - assert (Hserve := serve_partial_chunk cap st Hw ltac:(lia) Hpart Hfit).
    destruct (Z.eq_dec (dataAvailable st) cap) as [Heq|Hne].
    + exists 1%nat, (whereInBuffer st + cap). intros calls. cbn [Nat.add drain].
      unfold bind at 1.
      rewrite sane_read_colour, Hn, sane_read_loop_pending, Hserve by (assumption || lia).
      cbn [rd_status rd_buf]. rewrite Heq, Z.sub_diag. reflexivity.
    + set (st1 := set_whereInBuffer (whereInBuffer st + cap)
                    (set_dataAvailable (dataAvailable st - cap) st)) in *.
      destruct (IH (Z.to_nat (dataAvailable st - cap)) ltac:(lia) st1)
        as (K1 & v1 & Hrest); try (cbn; (assumption || lia)).
      exists (S K1), v1. intros calls. cbn [Nat.add drain]. unfold bind at 1.
      rewrite sane_read_colour, Hn, sane_read_loop_pending, Hserve by (assumption || lia).
      cbn [rd_status rd_buf]. fold st1. unfold bind at 1. rewrite Hrest.
      change (set_whereInBuffer v1 (set_dataAvailable 0 st1))
        with (set_whereInBuffer v1 (set_dataAvailable 0 st)).
      unfold bind.
      destruct (drain dev tbl calls cap (set_whereInBuffer v1 (set_dataAvailable 0 st)))
        as [[status bytes] s| | |]; try reflexivity.
      cbn [ret fst snd]. do 2 f_equal. rewrite app_assoc. f_equal.
      cbn [st1 largeBuffer dataAvailable whereInBuffer set_whereInBuffer set_dataAvailable].
      replace (Z.to_nat (whereInBuffer st + cap))
        with (Z.to_nat (whereInBuffer st) + Z.to_nat cap)%nat by lia.
      replace (Z.to_nat (dataAvailable st - cap))
        with (Z.to_nat (dataAvailable st) - Z.to_nat cap)%nat by lia.
      apply take_drop_split. lia.
Qed.

Lemma set_whereInBuffer_same st : set_whereInBuffer (whereInBuffer st) st = st.
Proof. now destruct st. Qed.

Lemma observe_bind_ret {A B} (m : M A) (g : A -> B) s :
  observe ((a <- m ;; ret (g a)) s)
  = (option_map g (fst (observe (m s))), snd (observe (m s))).
Proof. unfold bind. destruct (m s); reflexivity. Qed.

Lemma observe_bind_ret_nil {A} (m : M (A * list Z)) s :
  observe ((rest <- m ;; ret (fst rest, [] ++ snd rest)) s) = observe (m s).
Proof. unfold bind. destruct (m s) as [[a b] s'| | |]; reflexivity. Qed.

(** What [bulkRead] leaves: room in the buffer for the declared size. *)
Lemma bulkRead_Ret data st r st1 :
  bulkRead dev data st = Ret r st1 ->
  Z.shiftl data.[2] 8 + data.[3] <= Z.of_nat (length (largeBuffer st1))
  /\ frame st st1.
Proof.
  unfold bulkRead, usb_bulk_read, bind, usb_transfer. cbv zeta.
  set (size := Z.shiftl data.[2] 8 + data.[3]).
  destruct (Nat.leb_spec (Z.to_nat size) (length (take (Z.to_nat size) (largeBuffer st))))
    as [Hfit|]; [|discriminate].
  intros [= <- <-]. rewrite length_take in Hfit.
  split; [|now split].
  cbn [largeBuffer set_usb_log set_largeBuffer]. unfold fill.
  rewrite length_app, length_drop.
  set (d := take _ (map _ _)).
  assert (length d <= Z.to_nat size)%nat by (unfold d; rewrite length_take; lia).
  lia.
Qed.

(** The first pass of the loop of [sane_read] with nothing pending. *)
Lemma sane_read_dispatches n st :
  dpiValue st <> 200 ->
  Z.to_nat (scanColorSize tbl - i st) = S n ->
  dataAvailable st <= 0 ->
  sane_read dev tbl cap st
  = match scan_dispatch dev (at_record (scanColor tbl) (i st)) st with
    | Ret result st1 =>
        if negb (result =? 1) then Ret (mkRead SANE_STATUS_IO_ERROR [] None) st1
        else sane_read_loop dev tbl n (scanColor tbl) cap (set_i (i st + 1) st1)
    | Exit c st1 => Exit c st1
    | Undefined => Undefined
    | Spin => Spin
    end.
Proof.
  intros Hdpi Hn Havail. rewrite sane_read_colour, Hn by assumption.
  cbn [sane_read_loop]. unfold bind at 1. cbn [get].
  destruct (Z.gtb_spec (dataAvailable st) 0); [lia|].
  unfold bind at 1. cbn [get]. unfold bind at 1.
  destruct (scan_dispatch dev (at_record (scanColor tbl) (i st)) st) as [r st1| | |];
    try reflexivity.
  destruct (negb (r =? 1)); reflexivity.
Qed.

Lemma scan_rest_dispatches n st :
  scan_rest dev tbl (S n) (scanColor tbl) st
  = match scan_dispatch dev (at_record (scanColor tbl) (i st)) st with
    | Ret result st1 =>
        if negb (result =? 1) then Ret (SANE_STATUS_IO_ERROR, []) st1
        else
          (chunk <- match n with
                    | O => ret []
                    | S _ =>
                        if dataAvailable st1 >? 0 then
                          w <- get whereInBuffer ;;
                          c <- copy_out (dataAvailable st1) w ;;
                          modify (set_dataAvailable 0) ;;
                          ret c
                        else ret []
                    end ;;
           rest <- scan_rest dev tbl n (scanColor tbl) ;;
           ret (fst rest, chunk ++ snd rest)) (set_i (i st + 1) st1)
    | Exit c st1 => Exit c st1
    | Undefined => Undefined
    | Spin => Spin
    end.
Proof.
  cbn [scan_rest]. unfold bind at 1. cbn [get]. unfold bind at 1.
  destruct (scan_dispatch dev (at_record (scanColor tbl) (i st)) st) as [r st1| | |];
    try reflexivity.
  destruct (negb (r =? 1)); reflexivity.
Qed.

(** A dispatch of the scan loop either resets the offset (a bulk read) or
    neither reads nor assigns it (a control transfer). *)
Lemma scan_dispatch_offset data v st :
  (scan_dispatch dev data (set_whereInBuffer v st) = scan_dispatch dev data st
   /\ forall r st1, scan_dispatch dev data st = Ret r st1 ->
        whereInBuffer st1 = 0
        /\ dataAvailable st1 <= Z.of_nat (length (largeBuffer st1))
        /\ dpiValue st1 = dpiValue st /\ i st1 = i st)
  \/ (scan_dispatch dev data (set_whereInBuffer v st)
      = outcome_map (set_whereInBuffer v) (scan_dispatch dev data st)
      /\ forall r st1, scan_dispatch dev data st = Ret r st1 ->
           dataAvailable st1 = dataAvailable st
           /\ dpiValue st1 = dpiValue st /\ i st1 = i st).
Proof.
  unfold scan_dispatch. destruct (data.[0] =? 0xfa).
  - left. split.
    + unfold bind. rewrite oblivious_bulkRead.
      assert (Hf := framed_bulkRead dev data st).
      destruct (bulkRead dev data st); [reflexivity|contradiction|reflexivity..].
    + intros r st1. unfold bind.
      destruct (bulkRead dev data st) as [r0 s0| | |] eqn:Hb; try discriminate.
      cbn. intros [= <- <-]. cbn.
      apply bulkRead_Ret in Hb. destruct Hb as (Hfit & Hc & Hd).
      unfold cursor in Hc. injection Hc as _ _ Hi. auto.
  - right. split; [apply oblivious_controlTransfer|].
    intros r st1 Hrun. assert (Hf := framed_controlTransfer dev data st).
    rewrite Hrun in Hf. destruct Hf as (_ & Hc & Hd).
    unfold cursor in Hc. injection Hc as Ha _ Hi. auto.
Qed.

Lemma drain_same_first_read st st' :
  sane_read dev tbl cap st = sane_read dev tbl cap st' ->
  forall calls, drain dev tbl calls cap st = drain dev tbl calls cap st'.
Proof.
  intros Hfirst [|c]; [reflexivity|]. cbn [drain]. unfold bind. now rewrite Hfirst.
Qed.

(** With enough calls, draining with capacity [cap] shows the caller and
    the device what [scan_rest] shows them. *)
Lemma drain_as_scan_rest n :
  forall st v,
    dpiValue st <> 200 ->
    Z.to_nat (scanColorSize tbl - i st) = n ->
    (n = 0%nat \/ dataAvailable st <= 0) ->
    exists c0,
      forall calls, (c0 <= calls)%nat ->
        observe (drain dev tbl calls cap (set_whereInBuffer v st))
        = observe (scan_rest dev tbl n (scanColor tbl) st).
Proof.
  induction n as [|n IH]; intros st v Hdpi Hn Hpend.
  - exists 1%nat. intros [|c] Hc; [lia|].
    cbn [drain scan_rest]. unfold bind at 1.
    rewrite sane_read_colour by exact Hdpi.
    cbn [i set_whereInBuffer]. rewrite Hn. cbn [sane_read_loop].
    unfold bind. rewrite oblivious_finalizeScanner.
    destruct (finalizeScanner dev tbl st); reflexivity.
  - destruct Hpend as [|Havail]; [discriminate|].
    assert (Hread : sane_read dev tbl cap (set_whereInBuffer v st)
      = match scan_dispatch dev (at_record (scanColor tbl) (i st)) (set_whereInBuffer v st) with
        | Ret result st1 =>
            if negb (result =? 1) then Ret (mkRead SANE_STATUS_IO_ERROR [] None) st1
            else sane_read_loop dev tbl n (scanColor tbl) cap (set_i (i st + 1) st1)
        | Exit c st1 => Exit c st1
        | Undefined => Undefined
        | Spin => Spin
        end) by exact (sane_read_dispatches n (set_whereInBuffer v st) Hdpi Hn Havail).
    rewrite scan_rest_dispatches.
    set (data := at_record (scanColor tbl) (i st)) in *.
    destruct (scan_dispatch_offset data v st) as [[Hsame Hpost]|[Hmap Hpost]].
    + (* a bulk read *)
      rewrite Hsame in Hread.
      destruct (scan_dispatch dev data st) as [r st1| | |] eqn:Hd.
      * destruct (Hpost r st1 eq_refl) as (Hw1 & Hfit1 & Hdpi1 & Hi1).
        destruct (negb (r =? 1)) eqn:Hr.
        { exists 1%nat. intros [|c] Hc; [lia|]. cbn [drain]. unfold bind at 1.
          rewrite Hread. reflexivity. }
        set (st3 := set_i (i st + 1) st1) in *.
        assert (Hdpi3 : dpiValue st3 <> 200) by (cbn; congruence).
        assert (Hn3 : Z.to_nat (scanColorSize tbl - i st3) = n) by (cbn; lia).
        assert (Hfirst : sane_read dev tbl cap (set_whereInBuffer v st)
                         = sane_read dev tbl cap st3).
        { rewrite Hread, (sane_read_colour st3), Hn3 by assumption. reflexivity. }
        assert (Hdrain := drain_same_first_read _ _ Hfirst).
        assert (Hdirect : (n = 0%nat \/ dataAvailable st3 <= 0) ->
          exists c0, forall calls, (c0 <= calls)%nat ->
            observe (drain dev tbl calls cap (set_whereInBuffer v st))
            = observe ((chunk <- match n with
                                 | O => ret []
                                 | S _ =>
                                     if dataAvailable st1 >? 0 then
                                       w <- get whereInBuffer ;;
                                       c <- copy_out (dataAvailable st1) w ;;
                                       modify (set_dataAvailable 0) ;;
                                       ret c
                                     else ret []
                                 end ;;
                        rest <- scan_rest dev tbl n (scanColor tbl) ;;
                        ret (fst rest, chunk ++ snd rest)) st3)).
        { intros Hcase.
          destruct (IH st3 (whereInBuffer st3) Hdpi3 Hn3 Hcase) as [c0 Hc0].
          rewrite set_whereInBuffer_same in Hc0.
          exists c0. intros calls Hcalls. rewrite Hdrain, Hc0 by assumption.
          assert (Hchunk :
            (match n with
             | O => ret []
             | S _ =>
                 if dataAvailable st1 >? 0 then
                   w <- get whereInBuffer ;;
                   c <- copy_out (dataAvailable st1) w ;;
                   modify (set_dataAvailable 0) ;;
                   ret c
                 else ret []
             end) st3 = Ret [] st3).
          { destruct Hcase as [->|Hle]; [reflexivity|].
            destruct n; [reflexivity|].
            change (dataAvailable st3) with (dataAvailable st1) in Hle.
            destruct (Z.gtb_spec (dataAvailable st1) 0); [lia|reflexivity]. }
          erewrite bind_Ret by exact Hchunk.
          now rewrite observe_bind_ret_nil. }
        destruct n as [|m]; [apply Hdirect; now left|].
        destruct (Z_le_gt_dec (dataAvailable st3) 0) as [Hle|Hgt];
          [apply Hdirect; now right|].
        (* pending bytes, handed over in chunks *)
        destruct (drain_pending m (Z.to_nat (dataAvailable st3)) st3 eq_refl Hdpi3 Hn3)
          as (K & v' & Hchunks); [lia|cbn; lia|cbn; lia|].
        set (st4 := set_dataAvailable 0 st3) in *.
        destruct (IH st4 v') as [c0 Hc0]; [exact Hdpi3|exact Hn3|right; cbn; lia|].
        exists (K + c0)%nat. intros calls Hcalls.
        rewrite Hdrain. replace calls with (K + (calls - K))%nat by lia.
        rewrite Hchunks, observe_bind_ret, Hc0 by lia.
        change (dataAvailable st3) with (dataAvailable st1) in *.
        destruct (Z.gtb_spec (dataAvailable st1) 0) as [_|]; [|lia].
        assert (Hcopy :
          (w <- get whereInBuffer ;;
           c <- copy_out (dataAvailable st1) w ;;
           modify (set_dataAvailable 0) ;;
           ret c) st3
          = Ret (take (Z.to_nat (dataAvailable st1))
                   (drop (Z.to_nat (whereInBuffer st3)) (largeBuffer st3))) st4).
        { unfold bind at 1. cbn [get]. unfold copy_out.
          change (whereInBuffer st3) with (whereInBuffer st1). rewrite Hw1.
          change 0 with (Z.of_nat 0) at 1 2.
          erewrite bind_Ret
            by (apply (copy_count_segment (Z.to_nat (dataAvailable st1)) 0 0 st3); cbn; lia).
          reflexivity. }
        erewrite bind_Ret by exact Hcopy.
        now rewrite observe_bind_ret.
      * exists 1%nat. intros [|c] Hc; [lia|]. cbn [drain]. unfold bind at 1.
        rewrite Hread. reflexivity.
      * exists 1%nat. intros [|c] Hc; [lia|]. cbn [drain]. unfold bind at 1.
        rewrite Hread. reflexivity.
      * exists 1%nat. intros [|c] Hc; [lia|]. cbn [drain]. unfold bind at 1.
        rewrite Hread. reflexivity.
    + (* a control transfer *)
      rewrite Hmap in Hread.
      destruct (scan_dispatch dev data st) as [r st1| | |] eqn:Hd.
      * destruct (Hpost r st1 eq_refl) as (Ha1 & Hdpi1 & Hi1).
        cbn [outcome_map] in Hread.
        destruct (negb (r =? 1)) eqn:Hr.
        { exists 1%nat. intros [|c] Hc; [lia|]. cbn [drain]. unfold bind at 1.
          rewrite Hread. reflexivity. }
        set (st3 := set_i (i st + 1) st1) in *.
        assert (Hdpi3 : dpiValue st3 <> 200) by (cbn; congruence).
        assert (Hn3 : Z.to_nat (scanColorSize tbl - i st3) = n) by (cbn; lia).
        assert (Ha3 : dataAvailable st3 <= 0) by (cbn; lia).
        assert (Hfirst : sane_read dev tbl cap (set_whereInBuffer v st)
                         = sane_read dev tbl cap (set_whereInBuffer v st3)).
        { rewrite Hread, (sane_read_colour (set_whereInBuffer v st3)) by exact Hdpi3.
          cbn [i set_whereInBuffer]. rewrite Hn3. reflexivity. }
        assert (Hdrain := drain_same_first_read _ _ Hfirst).
        destruct (IH st3 v Hdpi3 Hn3 (or_intror Ha3)) as [c0 Hc0].
        exists c0. intros calls Hcalls. rewrite Hdrain, Hc0 by assumption.
        assert (Hchunk :
          (match n with
           | O => ret []
           | S _ =>
               if dataAvailable st1 >? 0 then
                 w <- get whereInBuffer ;;
                 c <- copy_out (dataAvailable st1) w ;;
                 modify (set_dataAvailable 0) ;;
                 ret c
               else ret []
           end) st3 = Ret [] st3).
        { destruct n; [reflexivity|].
          destruct (Z.gtb_spec (dataAvailable st1) 0); [lia|reflexivity]. }
        erewrite bind_Ret by exact Hchunk.
        now rewrite observe_bind_ret_nil.
      * exists 1%nat. intros [|c] Hc; [lia|]. cbn [drain]. unfold bind at 1.
        rewrite Hread. reflexivity.
      * exists 1%nat. intros [|c] Hc; [lia|]. cbn [drain]. unfold bind at 1.
        rewrite Hread. reflexivity.
      * exists 1%nat. intros [|c] Hc; [lia|]. cbn [drain]. unfold bind at 1.
        rewrite Hread. reflexivity.
Qed.

End ColourChunks.

(** X1: Outside monochrome mode chunking is lossless: from a state with no
    pending bytes, the status, the concatenated bytes and the trace of
    requests of a drain do not depend on the capacity, provided each drain
    is given enough calls; they are those of [scan_rest]. *)
Theorem drain_colour_independent_of_capacity dev tbl cap1 cap2 st :
  1 <= cap1 -> 1 <= cap2 ->
  dpiValue st <> 200 ->
  dataAvailable st <= 0 ->
  exists c0,
    forall calls1 calls2, (c0 <= calls1)%nat -> (c0 <= calls2)%nat ->
      observe (drain dev tbl calls1 cap1 st) = observe (drain dev tbl calls2 cap2 st)
      /\ observe (drain dev tbl calls1 cap1 st)
         = observe (scan_rest dev tbl (Z.to_nat (scanColorSize tbl - i st)) (scanColor tbl) st).
Proof.
  intros Hcap1 Hcap2 Hdpi Havail.
  destruct (drain_as_scan_rest dev tbl cap1 Hcap1 _ st (whereInBuffer st) Hdpi eq_refl
              (or_intror Havail)) as [c1 H1].
  destruct (drain_as_scan_rest dev tbl cap2 Hcap2 _ st (whereInBuffer st) Hdpi eq_refl
              (or_intror Havail)) as [c2 H2].
  rewrite set_whereInBuffer_same in H1, H2.
  exists (Nat.max c1 c2). intros calls1 calls2 Hc1 Hc2.
  rewrite H1, H2 by lia. split; reflexivity.
Qed.

(** A run of [drain_colour_independent_of_capacity]: the colour scan of
    [small_tables], drained with capacities 1 and 65535. *)
Lemma drain_colour_independent_of_capacity_witness :
  returned (drain (scanner [1; 2; 3]) small_tables 5 1 (initial_state 100))
  = Some (SANE_STATUS_EOF, [1; 2; 3])
  /\ returned (drain (scanner [1; 2; 3]) small_tables 5 65535 (initial_state 100))
     = Some (SANE_STATUS_EOF, [1; 2; 3])
  /\ exists c0,
       forall calls1 calls2, (c0 <= calls1)%nat -> (c0 <= calls2)%nat ->
         observe (drain (scanner [1; 2; 3]) small_tables calls1 1 (initial_state 100))
         = observe (drain (scanner [1; 2; 3]) small_tables calls2 65535 (initial_state 100)).
Proof.
  split; [vm_compute; reflexivity|]. split; [vm_compute; reflexivity|].
  destruct (drain_colour_independent_of_capacity (scanner [1; 2; 3]) small_tables 1 65535
              (initial_state 100)) as [c0 Hc0];
    [lia|lia|vm_compute; discriminate|vm_compute; discriminate|].
  exists c0. intros calls1 calls2 H1 H2. exact (proj1 (Hc0 calls1 calls2 H1 H2)).
Defined.

(** C2 (code as written): in monochrome mode the device sends
    [0x00, 0xff, 0x0f]; the scan drained with capacity 2 yields
    [0x00, 0xff, 0xf0], drained with capacity 65536 it yields
    [0xff, 0x00, 0xf0]. *)
Lemma drain_mono_depends_on_capacity :
  returned (drain (scanner [0x00; 0xff; 0x0f]) small_tables 10 2 (initial_state 200))
  = Some (SANE_STATUS_EOF, [0x00; 0xff; 0xf0])
  /\ returned (drain (scanner [0x00; 0xff; 0x0f]) small_tables 10 65536 (initial_state 200))
     = Some (SANE_STATUS_EOF, [0xff; 0x00; 0xf0]).
Proof. split; vm_compute; reflexivity. Qed.

(** * Requests issued by the primitives *)

Lemma kept_refl st : kept st st.
Proof. repeat split. Qed.

Lemma kept_trans st1 st2 st3 : kept st1 st2 -> kept st2 st3 -> kept st1 st3.
Proof. unfold kept. intros (H1 & H2 & H3) (H4 & H5 & H6). repeat split; congruence. Qed.

Lemma issues_ret {A} (a : A) (R : A -> list usb_event -> Prop) :
  R a [] -> issues (ret a) R.
Proof.
  intros HR st. cbn. split; [apply kept_refl|].
  exists []. now rewrite app_nil_r.
Qed.

Lemma issues_bind {A B} (m : M A) (k : A -> M B) R1 (R : B -> list usb_event -> Prop) :
  issues m R1 ->
  (forall a evs1, R1 a evs1 -> issues (k a) (fun b evs2 => R b (evs1 ++ evs2))) ->
  issues (bind m k) R.
Proof.
  intros Hm Hk st. unfold bind. specialize (Hm st).
  destruct (m st) as [a st1| | |]; try assumption.
  destruct Hm as (Hkept1 & evs1 & Hlog1 & HR1).
  specialize (Hk a evs1 HR1 st1).
  destruct (k a st1) as [b st2| | |]; try assumption.
  destruct Hk as (Hkept2 & evs2 & Hlog2 & HR2).
  split; [eapply kept_trans; eassumption|].
  exists (evs1 ++ evs2). split; [|assumption].
  now rewrite Hlog2, Hlog1, app_assoc.
Qed.

Lemma issues_weaken {A} (m : M A) (R1 R : A -> list usb_event -> Prop) :
  issues m R1 -> (forall a evs, R1 a evs -> R a evs) -> issues m R.
Proof.
  intros Hm HR st. specialize (Hm st). destruct (m st); try assumption.
  destruct Hm as (Hk & evs & Hlog & H1). split; [assumption|]. eauto.
Qed.

Lemma issues_store k v : issues (store k v) (fun _ evs => evs = []).
Proof.
  intros st. unfold store.
  destruct (if 0 <=? k then _ else _); [|exact I].
  split; [|exists []; now rewrite app_nil_r].
  repeat split. cbn. apply length_insert.
Qed.

Lemma issues_usb_transfer dev c size incoming :
  issues (usb_transfer dev c size incoming) (fun r evs => exists out, evs = [mkEvent c out r]).
Proof.
  intros st. unfold usb_transfer. cbv zeta.
  destruct (Nat.leb_spec (Z.to_nat size) (length (take (Z.to_nat size) (largeBuffer st))))
    as [Hfit|]; [|exact I].
  rewrite length_take in Hfit.
  split; [|eexists; split; [reflexivity|eexists; reflexivity]].
  repeat split. cbn. destruct incoming; [|reflexivity].
  unfold fill. rewrite length_app, length_drop.
  set (d := take _ (map _ _)).
  assert (length d <= Z.to_nat size)%nat by (unfold d; rewrite length_take; lia).
  lia.
Qed.

(** A loop of stores issues nothing. *)
Lemma issues_store_loop n k (f g : Z -> Z) :
  issues (for_count n k (fun j => store (f j) (g j))) (fun _ evs => evs = []).
Proof.
  revert k. induction n as [|n IH]; intros k.
  - now apply issues_ret.
  - cbn [for_count]. eapply issues_bind; [apply issues_store|].
    intros _ evs1 ->. apply IH.
Qed.

Lemma issues_controlTransfer dev data :
  issues (controlTransfer dev data)
    (fun r evs =>
       exists out result,
         evs = [mkEvent (ControlMsg data.[0] data.[1] (Z.shiftl data.[3] 8 + data.[2])
                           (Z.shiftl data.[5] 8 + data.[4]) (Z.shiftl data.[7] 8 + data.[6]) 300)
                  out result]
         /\ r = (if result <? 0 then 0 else 1)).
Proof.
  unfold controlTransfer. eapply issues_bind.
  { unfold for_range. apply (issues_store_loop _ _ (fun j => j) (fun j => to_char data.[j + 8])). }
  intros _ evs1 ->. eapply issues_bind; [apply issues_usb_transfer|].
  intros r evs2 [out ->]. destruct (r <? 0) eqn:Hr; apply issues_ret; cbn;
    exists out, r; now rewrite Hr.
Qed.

(** The loops that run one control transfer per record. *)
Lemma issues_for_count_each n k (body : Z -> M unit) (B : usb_event -> Prop) :
  (forall j, issues (body j) (fun _ evs => exists e, evs = [e] /\ B e)) ->
  issues (for_count n k body) (fun _ evs => length evs = n /\ Forall B evs).
Proof.
  intros Hbody. revert k. induction n as [|n IH]; intros k.
  - apply issues_ret. split; [reflexivity|constructor].
  - cbn [for_count]. eapply issues_bind; [apply Hbody|].
    intros _ evs1 (e & -> & He). eapply issues_weaken; [apply IH|].
    cbn. intros _ evs (Hlen & Hall). split; [now rewrite Hlen|]. now constructor.
Qed.

Lemma issues_Ret {A} (m : M A) R st a st' :
  issues m R -> m st = Ret a st' ->
  kept st st' /\ exists evs, usb_log st' = usb_log st ++ evs /\ R a evs.
Proof. intros Hm Hrun. specialize (Hm st). now rewrite Hrun in Hm. Qed.

Lemma issues_no_exit {A} (m : M A) R : issues m R -> no_exit m.
Proof. intros Hm st code st' Hrun. specialize (Hm st). now rewrite Hrun in Hm. Qed.

Lemma framed_no_exit {A} (m : M A) Q : framed m Q -> no_exit m.
Proof. intros Hm st code st' Hrun. specialize (Hm st). now rewrite Hrun in Hm. Qed.

Lemma no_exit_ret {A} (a : A) : no_exit (ret a).
Proof. intros st code st'. discriminate. Qed.

Lemma no_exit_bind {A B} (m : M A) (k : A -> M B) :
  no_exit m -> (forall a, no_exit (k a)) -> no_exit (bind m k).
Proof.
  intros Hm Hk st code st'. unfold bind.
  destruct (m st) as [a st1| | |] eqn:Hrun; try discriminate.
  - apply Hk.
  - exfalso. eapply Hm. exact Hrun.
Qed.

Lemma no_exit_get {A} (f : state -> A) : no_exit (get f).
Proof. intros st code st'. discriminate. Qed.

Lemma no_exit_modify f : no_exit (modify f).
Proof. intros st code st'. discriminate. Qed.

Lemma issues_load k : issues (load k) (fun _ evs => evs = []).
Proof.
  intros st. unfold load.
  destruct (if 0 <=? k then _ else _); [|exact I].
  split; [apply kept_refl|]. exists []. now rewrite app_nil_r.
Qed.

Lemma issues_bind_quiet {A B} (m : M A) (k : A -> M B) (R : B -> list usb_event -> Prop) :
  issues m (fun _ evs => evs = []) -> (forall a, issues (k a) R) -> issues (bind m k) R.
Proof.
  intros Hm Hk. eapply issues_bind; [exact Hm|].
  intros a evs ->. apply Hk.
Qed.

Lemma issues_invert_loop n k w :
  issues (for_count n k (fun j => b <- load (j + w) ;; store (j + w) (char_not b)))
    (fun _ evs => evs = []).
Proof.
  revert k. induction n as [|n IH]; intros k.
  - now apply issues_ret.
  - cbn [for_count]. apply issues_bind_quiet.
    { apply issues_bind_quiet; [apply issues_load|]. intros b. apply issues_store. }
    intros _. apply IH.
Qed.

Lemma copy_count_Ret n : forall j w st l st',
  copy_count n j w st = Ret l st' -> length l = n /\ st' = st.
Proof.
  induction n as [|n IH]; intros j w st l st' Hrun; cbn [copy_count] in Hrun.
  - injection Hrun as <- <-. auto.
  - unfold bind at 1 in Hrun.
    destruct (load (j + w) st) as [b s1| | |] eqn:Hload; try discriminate.
    apply load_Ret in Hload. destruct Hload as (-> & _).
    unfold bind at 1 in Hrun.
    destruct (copy_count n (j + 1) w st) as [rest s2| | |] eqn:Hrest; try discriminate.
    apply IH in Hrest. destruct Hrest as (Hlen & ->).
    injection Hrun as <- <-. cbn. auto.
Qed.

Lemma copy_count_no_exit n j w : no_exit (copy_count n j w).
Proof.
  revert j. induction n as [|n IH]; intros j; [apply no_exit_ret|].
  cbn [copy_count]. apply no_exit_bind; [eapply issues_no_exit, issues_load|].
  intros b. apply no_exit_bind; [apply IH|]. intros rest. apply no_exit_ret.
Qed.

(** What a call that serves pending bytes hands back and leaves. *)
Lemma serve_Ret max_len st r st' :
  serve max_len st = Ret r st' ->
  rd_status r = SANE_STATUS_GOOD
  /\ rd_len r = Some (Z.min (dataAvailable st) max_len)
  /\ length (rd_buf r) = Z.to_nat (Z.min (dataAvailable st) max_len)
  /\ usb_log st' = usb_log st
  /\ i st' = i st
  /\ dpiValue st' = dpiValue st
  /\ length (largeBuffer st') = length (largeBuffer st)
  /\ (dataAvailable st < max_len -> dataAvailable st' = 0 /\ whereInBuffer st' = 0)
  /\ (max_len <= dataAvailable st ->
      dataAvailable st' = dataAvailable st - max_len
      /\ whereInBuffer st' = whereInBuffer st + max_len).
Proof.
  unfold serve. unfold bind at 1. cbn [get]. unfold bind at 1. cbn [get].
  destruct (Z.ltb_spec (dataAvailable st) max_len) as [Hlt|Hge].
  - unfold bind at 1. cbn [get]. unfold bind at 1.
    set (flip := if dpiValue st =? 200 then _ else _).
    assert (Hflip : issues flip (fun _ evs => evs = [])).
    { unfold flip. destruct (dpiValue st =? 200); [apply issues_invert_loop|].
      now apply issues_ret. }
    destruct (flip st) as [[] s1| | |] eqn:Hrun; try discriminate.
    destruct (issues_Ret _ _ _ _ _ Hflip Hrun) as ((Hlen & Hcur & Hdpi) & evs & Hlog & ->).
    rewrite app_nil_r in Hlog. unfold cursor in Hcur. injection Hcur as Ha Hw Hi.
    unfold bind at 1. unfold copy_out.
    destruct (copy_count (Z.to_nat (dataAvailable st)) 0 (whereInBuffer st) s1)
      as [buf s2| | |] eqn:Hcopy; try discriminate.
    apply copy_count_Ret in Hcopy. destruct Hcopy as (Hbuf & ->).
    cbn. intros [= <- <-]. cbn.
    rewrite Z.min_l by lia. repeat split; auto; lia.
  - unfold bind at 1. unfold copy_out.
    destruct (copy_count (Z.to_nat max_len) 0 (whereInBuffer st) st)
      as [buf s2| | |] eqn:Hcopy; try discriminate.
    apply copy_count_Ret in Hcopy. destruct Hcopy as (Hbuf & ->).
    cbn. intros [= <- <-]. cbn.
    rewrite Z.min_r by lia. repeat split; auto; lia.
Qed.

Lemma serve_no_exit max_len : no_exit (serve max_len).
Proof.
  unfold serve. apply no_exit_bind; [apply no_exit_get|]. intros avail.
  apply no_exit_bind; [apply no_exit_get|]. intros w.
  destruct (avail <? max_len).
  - apply no_exit_bind; [apply no_exit_get|]. intros dpi.
    apply no_exit_bind.
    { destruct (dpi =? 200); [eapply issues_no_exit, issues_invert_loop|apply no_exit_ret]. }
    intros _. apply no_exit_bind; [apply copy_count_no_exit|]. intros buf.
    apply no_exit_bind; [apply no_exit_modify|]. intros _.
    apply no_exit_bind; [apply no_exit_modify|]. intros _. apply no_exit_ret.
  - apply no_exit_bind; [apply copy_count_no_exit|]. intros buf.
    apply no_exit_bind; [apply no_exit_modify|]. intros _.
    apply no_exit_bind; [apply no_exit_modify|]. intros _. apply no_exit_ret.
Qed.

(** [sane_read] in either mode. *)
Lemma sane_read_as_loop dev tbl max_len st :
  sane_read dev tbl max_len st
  = sane_read_loop dev tbl (Z.to_nat (scan_table_size tbl st - i st)) (scan_table tbl st)
      max_len st.
Proof.
  unfold sane_read, scan_table, scan_table_size, bind, get.
  destruct (dpiValue st =? 200); reflexivity.
Qed.

Lemma sane_read_serves dev tbl max_len st :
  0 < dataAvailable st ->
  i st < scan_table_size tbl st ->
  sane_read dev tbl max_len st = serve max_len st.
Proof.
  intros Havail Hi. rewrite sane_read_as_loop.
  destruct (Z.to_nat (scan_table_size tbl st - i st)) as [|n] eqn:Hn; [lia|].
  cbn [sane_read_loop]. unfold bind at 1. cbn [get].
  destruct (Z.gtb_spec (dataAvailable st) 0); [reflexivity|lia].
Qed.

Lemma sane_read_nothing_pending dev tbl max_len st :
  dataAvailable st <= 0 ->
  i st < scan_table_size tbl st ->
  sane_read dev tbl max_len st
  = match scan_dispatch dev (at_record (scan_table tbl st) (i st)) st with
    | Ret result st1 =>
        if negb (result =? 1) then Ret (mkRead SANE_STATUS_IO_ERROR [] None) st1
        else sane_read_loop dev tbl (Z.to_nat (scan_table_size tbl st - (i st + 1)))
               (scan_table tbl st) max_len (set_i (i st + 1) st1)
    | Exit c st1 => Exit c st1
    | Undefined => Undefined
    | Spin => Spin
    end.
Proof.
  intros Havail Hi. rewrite sane_read_as_loop.
  replace (Z.to_nat (scan_table_size tbl st - i st))
    with (S (Z.to_nat (scan_table_size tbl st - (i st + 1)))) by lia.
  cbn [sane_read_loop]. unfold bind at 1. cbn [get].
  destruct (Z.gtb_spec (dataAvailable st) 0); [lia|].
  unfold bind at 1. cbn [get]. unfold bind at 1.
  destruct (scan_dispatch dev (at_record (scan_table tbl st) (i st)) st) as [r st1| | |];
    try reflexivity.
  destruct (negb (r =? 1)); reflexivity.
Qed.

(** * The finalize table, for every table and device *)

Lemma issues_finalizeScanner dev tbl :
  issues (finalizeScanner dev tbl)
    (fun r evs =>
       r = 1 /\ length evs = Z.to_nat (finalizeSize tbl) /\ Forall is_control_msg evs).
Proof.
  unfold finalizeScanner, for_range. rewrite Z.sub_0_r.
  eapply issues_bind.
  { apply (issues_for_count_each _ _ _ is_control_msg). intros j.
    eapply issues_bind; [apply issues_controlTransfer|].
    intros r evs1 (out & result & -> & ->).
    destruct (result <? 0); cbn [Z.ltb Z.compare]; apply issues_ret;
      (eexists; split; [reflexivity|exact I]). }
  intros _ evs1 (Hlen & Hall). apply issues_ret.
  rewrite app_nil_r. auto.
Qed.

(** X2: [finalizeScanner] never calls [exit], whatever its transfers return;
    when it returns, it returns 1, has issued one control transfer for each
    of the [finalizeSize] records, the failed ones included, and has left
    the cursor alone. *)
Theorem finalizeScanner_always_returns_1 dev tbl st :
  match finalizeScanner dev tbl st with
  | Ret r st' =>
      r = 1
      /\ cursor st' = cursor st
      /\ exists evs,
           usb_log st' = usb_log st ++ evs
           /\ length evs = Z.to_nat (finalizeSize tbl)
           /\ Forall is_control_msg evs
  | Exit _ _ => False
  | Undefined => True
  | Spin => True
  end.
Proof.
  assert (H := issues_finalizeScanner dev tbl st).
  destruct (finalizeScanner dev tbl st); try assumption.
  destruct H as ((_ & Hc & _) & evs & Hlog & -> & Hlen & Hall). eauto 6.
Qed.

(** * The read pump at the end of the table *)

Lemma sane_read_past_records dev tbl max_len st :
  scan_table_size tbl st <= i st ->
  match sane_read dev tbl max_len st with
  | Ret r st' =>
      r = mkRead SANE_STATUS_EOF [] None
      /\ kept st st'
      /\ i st' = i st
      /\ exists evs,
           usb_log st' = usb_log st ++ evs
           /\ length evs = Z.to_nat (finalizeSize tbl)
           /\ Forall is_control_msg evs
  | Exit _ _ => False
  | Undefined => True
  | Spin => True
  end.
Proof.
  intros Hend. rewrite sane_read_as_loop.
  replace (Z.to_nat (scan_table_size tbl st - i st)) with 0%nat by lia.
  cbn [sane_read_loop]. unfold bind.
  assert (H := issues_finalizeScanner dev tbl st).
  destruct (finalizeScanner dev tbl st); try assumption.
  destruct H as (Hkept & evs & Hlog & _ & Hlen & Hall).
  split; [reflexivity|]. split; [exact Hkept|].
  destruct Hkept as (_ & Hc & _). injection Hc as _ _ Hi. split; [exact Hi|]. eauto.
Qed.

(** X3: Once the table index has reached the size of the scan table, a call
    to [sane_read] runs the finalize table and returns end-of-stream with
    no bytes, every time it is called; bytes still pending are neither
    handed over nor dropped from the cursor. *)
Theorem sane_read_at_table_end dev tbl max_len st :
  scan_table_size tbl st <= i st ->
  match sane_read dev tbl max_len st with
  | Ret r st' =>
      r = mkRead SANE_STATUS_EOF [] None
      /\ cursor st' = cursor st
      /\ exists evs,
           usb_log st' = usb_log st ++ evs
           /\ length evs = Z.to_nat (finalizeSize tbl)
           /\ Forall is_control_msg evs
  | Exit _ _ => False
  | Undefined => True
  | Spin => True
  end.
Proof.
  intros Hend. assert (H := sane_read_past_records dev tbl max_len st Hend).
  destruct (sane_read dev tbl max_len st); try assumption.
  destruct H as (Hr & (_ & Hc & _) & _ & Hevs). auto.
Qed.

(** Three bytes pending at offset 1 and the index at the end of the table
    of [small_tables]. *)
Lemma sane_read_at_table_end_witness :
  scan_table_size small_tables (set_i 2 (pending_state 100 3 1 [7; 8; 9; 10]))
  <= i (set_i 2 (pending_state 100 3 1 [7; 8; 9; 10]))
  /\ match sane_read (scanner []) small_tables 10 (set_i 2 (pending_state 100 3 1 [7; 8; 9; 10]))
     with
     | Ret r st' =>
         r = mkRead SANE_STATUS_EOF [] None
         /\ cursor st' = cursor (set_i 2 (pending_state 100 3 1 [7; 8; 9; 10]))
         /\ exists evs,
              usb_log st' = usb_log (set_i 2 (pending_state 100 3 1 [7; 8; 9; 10])) ++ evs
              /\ length evs = Z.to_nat (finalizeSize small_tables)
              /\ Forall is_control_msg evs
     | Exit _ _ => False
     | Undefined => True
     | Spin => True
     end.
Proof.
  assert (H : scan_table_size small_tables (set_i 2 (pending_state 100 3 1 [7; 8; 9; 10]))
              <= i (set_i 2 (pending_state 100 3 1 [7; 8; 9; 10])))
    by (vm_compute; discriminate).
  split; [exact H|].
  exact (sane_read_at_table_end (scanner []) small_tables 10 _ H).
Defined.

(** * What a read hands back *)

Lemma sane_read_loop_hands_back dev tbl typePtr max_len n :
  1 <= max_len ->
  forall st,
    match sane_read_loop dev tbl n typePtr max_len st with
    | Ret r st' =>
        (rd_status r = SANE_STATUS_GOOD ->
         exists len,
           rd_len r = Some len /\ 1 <= len <= max_len /\ Z.of_nat (length (rd_buf r)) = len)
        /\ (rd_status r <> SANE_STATUS_GOOD -> rd_buf r = [] /\ rd_len r = None)
    | _ => True
    end.
Proof.
  intros Hcap. induction n as [|n IH]; intros st; cbn [sane_read_loop].
  - unfold bind. destruct (finalizeScanner dev tbl st); try exact I.
    cbn. split; [discriminate|auto].
  - unfold bind at 1. cbn [get].
    destruct (Z.gtb_spec (dataAvailable st) 0) as [Havail|Havail].
    + destruct (serve max_len st) as [r st'| | |] eqn:Hserve; try exact I.
      apply serve_Ret in Hserve.
      destruct Hserve as (Hstatus & Hlen & Hbuf & _).
      split; [|congruence]. intros _.
      exists (Z.min (dataAvailable st) max_len). rewrite Hbuf. repeat split; [assumption|lia..].
    + unfold bind at 1. cbn [get]. unfold bind at 1.
      destruct (scan_dispatch dev (at_record typePtr (i st)) st) as [result st1| | |];
        try exact I.
      destruct (negb (result =? 1)).
      * cbn. split; [discriminate|auto].
      * unfold bind. cbn [modify]. apply IH.
Qed.

(** X4: A call that returns [SANE_STATUS_GOOD] to a caller with room for at
    least one byte hands back at least one byte and at most [max_len], as
    many as [*len] says; a call that returns another status stores no
    byte and does not assign [*len]. *)
Theorem sane_read_good_hands_back_bytes dev tbl max_len st :
  1 <= max_len ->
  match sane_read dev tbl max_len st with
  | Ret r st' =>
      (rd_status r = SANE_STATUS_GOOD ->
       exists len,
         rd_len r = Some len /\ 1 <= len <= max_len /\ Z.of_nat (length (rd_buf r)) = len)
      /\ (rd_status r <> SANE_STATUS_GOOD -> rd_buf r = [] /\ rd_len r = None)
  | _ => True
  end.
Proof.
  intros Hcap. rewrite sane_read_as_loop. now apply sane_read_loop_hands_back.
Qed.

(** The first read of the colour scan of [small_tables], capacity 2. *)
Lemma sane_read_good_hands_back_bytes_witness :
  1 <= 2
  /\ option_map rd_len
       (returned (sane_read (scanner [1; 2; 3]) small_tables 2 (initial_state 100)))
     = Some (Some 2)
  /\ match sane_read (scanner [1; 2; 3]) small_tables 2 (initial_state 100) with
     | Ret r st' =>
         (rd_status r = SANE_STATUS_GOOD ->
          exists len,
            rd_len r = Some len /\ 1 <= len <= 2 /\ Z.of_nat (length (rd_buf r)) = len)
         /\ (rd_status r <> SANE_STATUS_GOOD -> rd_buf r = [] /\ rd_len r = None)
     | _ => True
     end.
Proof.
  split; [lia|]. split; [vm_compute; reflexivity|].
  apply (sane_read_good_hands_back_bytes (scanner [1; 2; 3]) small_tables 2
           (initial_state 100)). lia.
Defined.

(** * The two serving branches *)

(** X5: A call with fewer bytes pending than the capacity hands all of them
    over, complemented in monochrome mode and as they are otherwise, and
    clears the cursor. *)
Theorem sane_read_last_chunk dev tbl max_len st :
  i st < scan_table_size tbl st ->
  0 <= whereInBuffer st ->
  0 < dataAvailable st < max_len ->
  whereInBuffer st + dataAvailable st <= Z.of_nat (length (largeBuffer st)) ->
  exists st',
    sane_read dev tbl max_len st
    = Ret (mkRead SANE_STATUS_GOOD
             (map (if dpiValue st =? 200 then char_not else fun b => b)
                (take (Z.to_nat (dataAvailable st))
                   (drop (Z.to_nat (whereInBuffer st)) (largeBuffer st))))
             (Some (dataAvailable st))) st'
    /\ cursor st' = (0, 0, i st)
    /\ usb_log st' = usb_log st.
Proof.
  intros Hi Hw Havail Hfit. rewrite sane_read_serves by (assumption || lia).
  destruct (serve_last_chunk max_len st Hw ltac:(lia) Hfit)
    as (st' & Hrun & Hc & _ & Hlog & _).
  exists st'. auto.
Qed.

Lemma sane_read_last_chunk_witness :
  option_map rd_buf
    (returned (sane_read (scanner []) small_tables 4 (pending_state 200 3 1 [7; 8; 9; 10])))
  = Some [0xf7; 0xf6; 0xf5]
  /\ exists st',
       sane_read (scanner []) small_tables 4 (pending_state 200 3 1 [7; 8; 9; 10])
       = Ret (mkRead SANE_STATUS_GOOD
                (map (if dpiValue (pending_state 200 3 1 [7; 8; 9; 10]) =? 200
                      then char_not else fun b => b)
                   (take (Z.to_nat (dataAvailable (pending_state 200 3 1 [7; 8; 9; 10])))
                      (drop (Z.to_nat (whereInBuffer (pending_state 200 3 1 [7; 8; 9; 10])))
                         (largeBuffer (pending_state 200 3 1 [7; 8; 9; 10])))))
                (Some (dataAvailable (pending_state 200 3 1 [7; 8; 9; 10])))) st'
       /\ cursor st' = (0, 0, i (pending_state 200 3 1 [7; 8; 9; 10]))
       /\ usb_log st' = usb_log (pending_state 200 3 1 [7; 8; 9; 10]).
Proof.
  split; [vm_compute; reflexivity|].
  apply (sane_read_last_chunk (scanner []) small_tables 4 (pending_state 200 3 1 [7; 8; 9; 10]));
    vm_compute; (reflexivity || discriminate || (split; reflexivity)).
Defined.

(** X6: A call with at least [max_len] bytes pending hands over the first
    [max_len] of them as they are in the buffer, in either mode, and
    moves the cursor on by [max_len]; nothing else changes. *)
Theorem sane_read_partial_chunk dev tbl max_len st :
  i st < scan_table_size tbl st ->
  0 <= whereInBuffer st ->
  0 < dataAvailable st ->
  max_len <= dataAvailable st ->
  whereInBuffer st + dataAvailable st <= Z.of_nat (length (largeBuffer st)) ->
  sane_read dev tbl max_len st
  = Ret (mkRead SANE_STATUS_GOOD
           (take (Z.to_nat max_len) (drop (Z.to_nat (whereInBuffer st)) (largeBuffer st)))
           (Some max_len))
        (set_whereInBuffer (whereInBuffer st + max_len)
           (set_dataAvailable (dataAvailable st - max_len) st)).
Proof.
  intros Hi Hw Havail Hcap Hfit. rewrite sane_read_serves by assumption.
  apply serve_partial_chunk; (assumption || lia).
Qed.

Lemma sane_read_partial_chunk_witness :
  take (Z.to_nat 2)
    (drop (Z.to_nat (whereInBuffer (pending_state 200 3 1 [7; 8; 9; 10])))
       (largeBuffer (pending_state 200 3 1 [7; 8; 9; 10])))
  = [8; 9]
  /\ sane_read (scanner []) small_tables 2 (pending_state 200 3 1 [7; 8; 9; 10])
     = Ret (mkRead SANE_STATUS_GOOD
              (take (Z.to_nat 2)
                 (drop (Z.to_nat (whereInBuffer (pending_state 200 3 1 [7; 8; 9; 10])))
                    (largeBuffer (pending_state 200 3 1 [7; 8; 9; 10]))))
              (Some 2))
           (set_whereInBuffer (whereInBuffer (pending_state 200 3 1 [7; 8; 9; 10]) + 2)
              (set_dataAvailable (dataAvailable (pending_state 200 3 1 [7; 8; 9; 10]) - 2)
                 (pending_state 200 3 1 [7; 8; 9; 10]))).
Proof.
  split; [vm_compute; reflexivity|].
  apply (sane_read_partial_chunk (scanner []) small_tables 2
           (pending_state 200 3 1 [7; 8; 9; 10]));
    vm_compute; (reflexivity || discriminate).
Defined.

(** X7: A call with capacity 0 while bytes are pending returns
    [SANE_STATUS_GOOD] with no byte and leaves the whole state as it is,
    so repeating it never makes progress. *)
Theorem sane_read_zero_capacity dev tbl st :
  i st < scan_table_size tbl st ->
  0 <= whereInBuffer st ->
  0 < dataAvailable st ->
  whereInBuffer st + dataAvailable st <= Z.of_nat (length (largeBuffer st)) ->
  sane_read dev tbl 0 st = Ret (mkRead SANE_STATUS_GOOD [] (Some 0)) st.
Proof.
  intros Hi Hw Havail Hfit.
  assert (H := serve_partial_chunk 0 st Hw ltac:(lia) ltac:(lia) Hfit).
  rewrite sane_read_serves, H by assumption.
  rewrite Z.add_0_r, Z.sub_0_r. cbn [Z.to_nat take]. f_equal. now destruct st.
Qed.

Lemma sane_read_zero_capacity_witness :
  i (pending_state 100 3 1 [7; 8; 9; 10])
  < scan_table_size small_tables (pending_state 100 3 1 [7; 8; 9; 10])
  /\ sane_read (scanner []) small_tables 0 (pending_state 100 3 1 [7; 8; 9; 10])
     = Ret (mkRead SANE_STATUS_GOOD [] (Some 0)) (pending_state 100 3 1 [7; 8; 9; 10]).
Proof.
  assert (H : i (pending_state 100 3 1 [7; 8; 9; 10])
              < scan_table_size small_tables (pending_state 100 3 1 [7; 8; 9; 10]))
    by (vm_compute; reflexivity).
  split; [exact H|].
  apply (sane_read_zero_capacity (scanner []) small_tables _ H);
    vm_compute; (reflexivity || discriminate).
Defined.

(** * A bulk read that fails *)

Lemma scan_dispatch_bulk dev data st :
  data.[0] = 0xfa ->
  scan_dispatch dev data st
  = match bulkRead dev data st with
    | Ret r st1 => Ret r (set_whereInBuffer 0 (set_dataAvailable (declared_size data) st1))
    | Exit c st1 => Exit c st1
    | Undefined => Undefined
    | Spin => Spin
    end.
Proof.
  intros Hop. unfold scan_dispatch. rewrite Hop. cbn [Z.eqb Pos.eqb].
  unfold bind at 1. destruct (bulkRead dev data st); reflexivity.
Qed.

(** X8: When the bulk read of a scan record fails or comes up short, the call
    returns [SANE_STATUS_IO_ERROR] with the whole declared size marked as
    pending and the table index still at that record.  If the declared
    size is positive, the next call therefore returns [SANE_STATUS_GOOD]
    and hands back bytes of the buffer without asking the device. *)
Theorem sane_read_failed_bulk_read dev tbl max_len st r st1 :
  dataAvailable st <= 0 ->
  i st < scan_table_size tbl st ->
  (scan_record tbl st).[0] = 0xfa ->
  bulkRead dev (scan_record tbl st) st = Ret r st1 ->
  r <> 1 ->
  exists st2,
    sane_read dev tbl max_len st = Ret (mkRead SANE_STATUS_IO_ERROR [] None) st2
    /\ cursor st2 = (declared_size (scan_record tbl st), 0, i st)
    /\ (0 < declared_size (scan_record tbl st) ->
        exists r' st3,
          sane_read dev tbl max_len st2 = Ret r' st3
          /\ rd_status r' = SANE_STATUS_GOOD
          /\ rd_len r' = Some (Z.min (declared_size (scan_record tbl st)) max_len)
          /\ usb_log st3 = usb_log st2).
Proof.
  intros Havail Hi Hop Hbulk Hr.
  destruct (bulkRead_Ret _ _ _ _ _ Hbulk) as (Hfit & Hcur & Hdpi).
  injection Hcur as _ _ Hi1.
  set (size := declared_size (scan_record tbl st)) in *.
  set (st2 := set_whereInBuffer 0 (set_dataAvailable size st1)).
  exists st2. split; [|split].
  - rewrite sane_read_nothing_pending by assumption.
    fold (scan_record tbl st). rewrite scan_dispatch_bulk, Hbulk by assumption.
    destruct (Z.eqb_spec r 1); [contradiction|]. reflexivity.
  - unfold cursor, st2. cbn. now rewrite Hi1.
  - intros Hsize.
    assert (Hi2 : i st2 < scan_table_size tbl st2).
    { unfold scan_table_size, st2. cbn. rewrite Hdpi, Hi1. exact Hi. }
    assert (Havail2 : 0 < dataAvailable st2) by exact Hsize.
    rewrite (sane_read_serves dev tbl max_len st2 Havail2 Hi2).
    assert (Hfit2 : whereInBuffer st2 + dataAvailable st2 <= Z.of_nat (length (largeBuffer st2))).
    { unfold st2. cbn. fold size in Hfit. unfold size, declared_size in *. lia. }
    destruct (Z.ltb_spec size max_len) as [Hlt|Hge].
    + destruct (serve_last_chunk max_len st2 ltac:(cbn; lia) ltac:(cbn; lia) Hfit2)
        as (st3 & Hrun & _ & _ & Hlog & _).
      eexists _, st3. split; [exact Hrun|]. cbn. repeat split; [|exact Hlog].
      f_equal. lia.
    + eexists _, _. split.
      { apply (serve_partial_chunk max_len st2); cbn; lia || exact Hfit2. }
      cbn. repeat split. f_equal. lia.
Qed.

(** The first read of the colour scan of [small_tables] on a device whose
    bulk transfers fail. *)
Lemma sane_read_failed_bulk_read_witness :
  option_map rd_status
    (returned (sane_read broken_bulk small_tables 2 (initial_state 100)))
  = Some SANE_STATUS_IO_ERROR
  /\ exists st2,
       sane_read broken_bulk small_tables 2 (initial_state 100)
       = Ret (mkRead SANE_STATUS_IO_ERROR [] None) st2
       /\ cursor st2 = (declared_size (scan_record small_tables (initial_state 100)), 0,
                        i (initial_state 100))
       /\ (0 < declared_size (scan_record small_tables (initial_state 100)) ->
           exists r' st3,
             sane_read broken_bulk small_tables 2 st2 = Ret r' st3
             /\ rd_status r' = SANE_STATUS_GOOD
             /\ rd_len r'
                = Some (Z.min (declared_size (scan_record small_tables (initial_state 100))) 2)
             /\ usb_log st3 = usb_log st2).
Proof.
  split; [vm_compute; reflexivity|].
  assert (Hr : returned (bulkRead broken_bulk (scan_record small_tables (initial_state 100))
                           (initial_state 100)) = Some 0) by (vm_compute; reflexivity).
  destruct (bulkRead broken_bulk (scan_record small_tables (initial_state 100))
              (initial_state 100)) as [r st1| | |] eqn:Hbulk; try discriminate.
  injection Hr as ->.
  apply (sane_read_failed_bulk_read broken_bulk small_tables 2 (initial_state 100) 0 st1);
    [vm_compute; discriminate|vm_compute; reflexivity|vm_compute; reflexivity
    |exact Hbulk|discriminate].
Defined.

(** * The cursor stays inside the buffer *)

Lemma kept_cursor_in_buffer st st' :
  kept st st' -> cursor_in_buffer st -> cursor_in_buffer st'.
Proof.
  intros (Hlen & Hcur & _). injection Hcur as Ha Hw _.
  unfold cursor_in_buffer. rewrite Hlen, Ha, Hw. auto.
Qed.

Lemma serve_cursor_in_buffer max_len st r st' :
  0 <= max_len ->
  cursor_in_buffer st ->
  serve max_len st = Ret r st' ->
  cursor_in_buffer st'.
Proof.
  intros Hcap Hin Hserve. apply serve_Ret in Hserve.
  destruct Hserve as (_ & _ & _ & _ & _ & _ & Hlen & Hlast & Hpart).
  unfold cursor_in_buffer in *. rewrite Hlen.
  destruct (Z.ltb_spec (dataAvailable st) max_len) as [Hlt|Hge].
  - destruct (Hlast Hlt) as [-> _]. left. lia.
  - destruct (Hpart Hge) as [-> ->]. lia.
Qed.

Lemma scan_dispatch_cursor_in_buffer dev data st r st1 :
  cursor_in_buffer st ->
  scan_dispatch dev data st = Ret r st1 ->
  cursor_in_buffer st1.
Proof.
  intros Hin. unfold scan_dispatch. destruct (data.[0] =? 0xfa).
  - unfold bind at 1. destruct (bulkRead dev data st) as [r0 s| | |] eqn:Hbulk; try discriminate.
    apply bulkRead_Ret in Hbulk. destruct Hbulk as [Hfit _].
    cbn. intros [= _ <-]. unfold cursor_in_buffer. cbn. right. lia.
  - intros Hrun.
    destruct (issues_Ret _ _ _ _ _ (issues_controlTransfer dev data) Hrun) as [Hkept _].
    now apply (kept_cursor_in_buffer st).
Qed.

Lemma set_i_cursor_in_buffer v st : cursor_in_buffer st -> cursor_in_buffer (set_i v st).
Proof. exact (fun H => H). Qed.

Lemma sane_read_loop_cursor_in_buffer dev tbl typePtr max_len n :
  0 <= max_len ->
  forall st,
    cursor_in_buffer st ->
    match sane_read_loop dev tbl n typePtr max_len st with
    | Ret _ st' => cursor_in_buffer st'
    | _ => True
    end.
Proof.
  intros Hcap. induction n as [|n IH]; intros st Hin; cbn [sane_read_loop].
  - unfold bind. destruct (finalizeScanner dev tbl st) as [r s| | |] eqn:Hrun; try exact I.
    destruct (issues_Ret _ _ _ _ _ (issues_finalizeScanner dev tbl) Hrun) as [Hkept _].
    now apply (kept_cursor_in_buffer st).
  - unfold bind at 1. cbn [get]. destruct (dataAvailable st >? 0).
    + destruct (serve max_len st) as [r s| | |] eqn:Hserve; try exact I.
      now apply (serve_cursor_in_buffer max_len st r).
    + unfold bind at 1. cbn [get]. unfold bind at 1.
      destruct (scan_dispatch dev (at_record typePtr (i st)) st) as [r s| | |] eqn:Hrun;
        try exact I.
      apply scan_dispatch_cursor_in_buffer in Hrun; [|assumption].
      destruct (negb (r =? 1)); [exact Hrun|].
      unfold bind. cbn [modify]. apply IH. exact Hrun.
Qed.



(** * No entry point of a scan ends the process *)

Lemma no_exit_sane_read_loop dev tbl typePtr max_len n :
  no_exit (sane_read_loop dev tbl n typePtr max_len).
Proof.
  induction n as [|n IH]; cbn [sane_read_loop].
  - apply no_exit_bind; [exact (issues_no_exit _ _ (issues_finalizeScanner dev tbl))|].
    intros _. apply no_exit_ret.
  - apply no_exit_bind; [apply no_exit_get|]. intros avail.
    destruct (avail >? 0); [exact (serve_no_exit max_len)|].
    apply no_exit_bind; [apply no_exit_get|]. intros k.
    apply no_exit_bind.
    { unfold scan_dispatch. destruct (_ =? 0xfa).
      - apply no_exit_bind; [exact (framed_no_exit _ _ (framed_bulkRead dev _))|].
        intros r. apply no_exit_bind; [apply no_exit_modify|]. intros _.
        apply no_exit_bind; [apply no_exit_modify|]. intros _. apply no_exit_ret.
      - exact (framed_no_exit _ _ (framed_controlTransfer dev _)). }
    intros r. destruct (negb _); [apply no_exit_ret|].
    apply no_exit_bind; [apply no_exit_modify|]. intros _. exact IH.
Qed.

Lemma no_exit_sane_read dev tbl max_len : no_exit (sane_read dev tbl max_len).
Proof.
  unfold sane_read. apply no_exit_bind; [apply no_exit_get|]. intros dpi.
  apply no_exit_bind; [apply no_exit_get|]. intros k. apply no_exit_sane_read_loop.
Qed.

Lemma no_exit_drain dev tbl max_len calls : no_exit (drain dev tbl calls max_len).
Proof.
  induction calls as [|calls IH]; cbn [drain]; [discriminate|].
  apply no_exit_bind; [apply no_exit_sane_read|]. intros r.
  destruct (rd_status r); try apply no_exit_ret.
  apply no_exit_bind; [exact IH|]. intros rest. apply no_exit_ret.
Qed.

(** X10: Neither [sane_start], nor [sane_read], nor a caller's loop of reads,
    nor a whole session ever ends the process with [exit], whatever the
    tables hold and whatever the device answers: the one [exit (1)] of the
    backend cannot be reached. *)
Theorem scan_entry_points_never_exit dev tbl bound calls max_len :
  no_exit (sane_start dev tbl bound)
  /\ no_exit (sane_read dev tbl max_len)
  /\ no_exit (drain dev tbl calls max_len)
  /\ no_exit (session dev tbl bound calls max_len).
Proof.
  assert (Hstart : no_exit (sane_start dev tbl bound))
    by exact (framed_no_exit _ _ (framed_sane_start dev tbl bound)).
  split; [exact Hstart|]. split; [apply no_exit_sane_read|].
  split; [apply no_exit_drain|].
  unfold session. apply no_exit_bind; [exact Hstart|].
  intros status. destruct status; try apply no_exit_ret. apply no_exit_drain.
Qed.

(** * A bulk read in the last record *)

(** X11: When the last record of the scan table is a bulk read, the call that
    performs it in full goes on to the finalize table and returns
    end-of-stream with no byte, leaving the bytes just read marked as
    pending; every later call returns end-of-stream with no byte as well,
    so those bytes never reach the caller. *)
Theorem sane_read_drops_final_bulk_read dev tbl max_len st st1 :
  dataAvailable st <= 0 ->
  i st + 1 = scan_table_size tbl st ->
  (scan_record tbl st).[0] = 0xfa ->
  bulkRead dev (scan_record tbl st) st = Ret 1 st1 ->
  match sane_read dev tbl max_len st with
  | Ret r st' =>
      r = mkRead SANE_STATUS_EOF [] None
      /\ 0 < declared_size (scan_record tbl st)
      /\ cursor st' = (declared_size (scan_record tbl st), 0, i st + 1)
      /\ forall max_len',
           match sane_read dev tbl max_len' st' with
           | Ret r' st'' => r' = mkRead SANE_STATUS_EOF [] None /\ cursor st'' = cursor st'
           | Exit _ _ => False
           | Undefined => True
           | Spin => True
           end
  | Exit _ _ => False
  | Undefined => True
  | Spin => True
  end.
Proof.
  intros Havail Hlast Hop Hbulk.
  assert (Hsize : 0 < declared_size (scan_record tbl st)).
  { revert Hbulk. unfold bulkRead, usb_bulk_read, bind. cbv zeta.
    fold (declared_size (scan_record tbl st)).
    destruct (usb_transfer _ _ _ _ st) as [result s| | |]; try discriminate.
    unfold ret, bulk_result. intros [= Hr _]. revert Hr.
    destruct (Z.gtb_spec result 0); [|discriminate].
    destruct (Z.eqb_spec result (declared_size (scan_record tbl st))); [lia|discriminate]. }
  destruct (bulkRead_Ret _ _ _ _ _ Hbulk) as (_ & Hcur & Hdpi).
  injection Hcur as _ _ Hi1.
  rewrite sane_read_nothing_pending by lia.
  fold (scan_record tbl st). rewrite scan_dispatch_bulk, Hbulk by assumption.
  cbn [Z.eqb Pos.eqb negb].
  replace (Z.to_nat (scan_table_size tbl st - (i st + 1))) with 0%nat by lia.
  cbn [sane_read_loop]. unfold bind.
  set (st2 := set_i (i st + 1) _).
  assert (H := issues_finalizeScanner dev tbl st2).
  destruct (finalizeScanner dev tbl st2) as [r st'| | |]; try exact H.
  destruct H as ((_ & Hc & Hd) & _).
  split; [reflexivity|]. split; [exact Hsize|]. split; [rewrite Hc; reflexivity|].
  intros max_len'.
  assert (Hend : scan_table_size tbl st' <= i st').
  { injection Hc as _ _ Hi'. rewrite Hi'. unfold scan_table_size. rewrite Hd.
    unfold st2. cbn [dpiValue set_i set_whereInBuffer set_dataAvailable i]. rewrite Hdpi.
    unfold scan_table_size in Hlast. lia. }
  assert (H := sane_read_past_records dev tbl max_len' st' Hend).
  destruct (sane_read dev tbl max_len' st'); try assumption.
  destruct H as (Hr & (_ & Hc' & _) & _). auto.
Qed.

Lemma sane_read_drops_final_bulk_read_witness :
  option_map rd_status
    (returned (sane_read (scanner [1; 2; 3]) bulk_last_tables 10 (initial_state 100)))
  = Some SANE_STATUS_EOF
  /\ match sane_read (scanner [1; 2; 3]) bulk_last_tables 10 (initial_state 100) with
     | Ret r st' =>
         r = mkRead SANE_STATUS_EOF [] None
         /\ 0 < declared_size (scan_record bulk_last_tables (initial_state 100))
         /\ cursor st'
            = (declared_size (scan_record bulk_last_tables (initial_state 100)), 0,
               i (initial_state 100) + 1)
         /\ forall max_len',
              match sane_read (scanner [1; 2; 3]) bulk_last_tables max_len' st' with
              | Ret r' st'' => r' = mkRead SANE_STATUS_EOF [] None /\ cursor st'' = cursor st'
              | Exit _ _ => False
              | Undefined => True
              | Spin => True
              end
     | Exit _ _ => False
     | Undefined => True
     | Spin => True
     end.
Proof.
  split; [vm_compute; reflexivity|].
  assert (Hr : returned (bulkRead (scanner [1; 2; 3])
                           (scan_record bulk_last_tables (initial_state 100))
                           (initial_state 100)) = Some 1) by (vm_compute; reflexivity).
  destruct (bulkRead (scanner [1; 2; 3]) (scan_record bulk_last_tables (initial_state 100))
              (initial_state 100)) as [r st1| | |] eqn:Hbulk; try discriminate.
  injection Hr as ->.
  apply (sane_read_drops_final_bulk_read (scanner [1; 2; 3]) bulk_last_tables 10
           (initial_state 100) st1);
    [vm_compute; discriminate|vm_compute; reflexivity|vm_compute; reflexivity|exact Hbulk].
Defined.

(** * What the transfer primitives send *)

Lemma elem_byte d k : byte_list d -> 0 <= d.[k] <= 255.
Proof.
  intros Hd. unfold elem.
  destruct (nth_in_or_default (Z.to_nat k) d 0) as [Hin|Hdef]; [|rewrite Hdef; lia].
  exact (proj1 (List.Forall_forall _ d) Hd _ Hin).
Qed.

Lemma size16_bound a b : 0 <= a <= 255 -> 0 <= b <= 255 -> 0 <= Z.shiftl a 8 + b <= 0xffff.
Proof. intros Ha Hb. rewrite Z.shiftl_mul_pow2 by lia. change (2 ^ 8) with 256. lia. Qed.

(** [for (j = 0; j < n; j++) largeBuffer[j] = f (j);] inside the buffer. *)
Lemma store_prefix (f : Z -> Z) n st :
  n <= Z.of_nat (length (largeBuffer st)) ->
  for_range 0 n (fun j => store j (f j)) st =
  Ret tt (set_largeBuffer
            (map (fun m => f (Z.of_nat m)) (seq 0 (Z.to_nat n))
               ++ drop (Z.to_nat n) (largeBuffer st)) st).
Proof.
  intros Hn. unfold for_range.
  rewrite (for_count_ext _ _ _ (fun j => store (j + Z.of_nat 0) (f j)))
    by (intros j s; f_equal; lia).
  change 0 with (Z.of_nat 0) at 2.
  rewrite (for_count_store f 0 (Z.to_nat (n - 0)) 0 st) by lia.
  cbn [Nat.add take app]. now rewrite Z.sub_0_r.
Qed.

Lemma take_prefix {A} (l k : list A) n : n = length l -> take n (l ++ k) = l.
Proof. intros ->. now rewrite take_app_length. Qed.

Lemma kept_set_largeBuffer b st :
  length b = length (largeBuffer st) -> kept st (set_largeBuffer b st).
Proof. intros Hlen. now repeat split. Qed.

Lemma kept_usb_transfer dev c size incoming st :
  size <= Z.of_nat (length (largeBuffer st)) ->
  exists st',
    usb_transfer dev c size incoming st
    = Ret (rep_result (dev (usb_log st) c (take (Z.to_nat size) (largeBuffer st)))) st'
    /\ kept st st'
    /\ usb_log st' =
       usb_log st ++
         [mkEvent c (take (Z.to_nat size) (largeBuffer st))
            (rep_result (dev (usb_log st) c (take (Z.to_nat size) (largeBuffer st))))].
Proof.
  intros Hsize.
  destruct (usb_transfer_fits dev c size incoming st Hsize)
    as (st' & Hrun & _ & Hlen & Hcur & Hdpi & Hlog).
  exists st'. now repeat split.
Qed.

(** [controlTransfer] when its size fits the buffer. *)
Lemma controlTransfer_fits dev data st :
  Z.shiftl data.[7] 8 + data.[6] <= Z.of_nat (length (largeBuffer st)) ->
  exists result st',
    controlTransfer dev data st = Ret (if result <? 0 then 0 else 1) st'
    /\ usb_log st' =
       usb_log st ++
         [mkEvent (ControlMsg data.[0] data.[1] (Z.shiftl data.[3] 8 + data.[2])
                     (Z.shiftl data.[5] 8 + data.[4]) (Z.shiftl data.[7] 8 + data.[6]) 300)
            (map (fun k => to_char data.[Z.of_nat k + 8])
               (seq 0 (Z.to_nat (Z.shiftl data.[7] 8 + data.[6]))))
            result]
    /\ kept st st'.
Proof.
  set (size := Z.shiftl data.[7] 8 + data.[6]). intros Hfit.
  unfold controlTransfer. cbv zeta. fold size.
  erewrite bind_Ret by (apply (store_prefix (fun j => to_char data.[j + 8])); exact Hfit).
  set (payload := map _ (seq 0 (Z.to_nat size))).
  assert (Hpay : length payload = Z.to_nat size)
    by (unfold payload; now rewrite length_map, length_seq).
  set (st1 := set_largeBuffer _ st).
  assert (Hlen1 : length (largeBuffer st1) = length (largeBuffer st)).
  { unfold st1. cbn. rewrite length_app, length_drop. lia. }
  destruct (kept_usb_transfer dev
              (ControlMsg data.[0] data.[1] (Z.shiftl data.[3] 8 + data.[2])
                 (Z.shiftl data.[5] 8 + data.[4]) size 300) size true st1 ltac:(lia))
    as (st' & Hrun & Hkept & Hlog).
  unfold usb_control_msg. erewrite bind_Ret by exact Hrun.
  set (result := rep_result _) in *.
  exists result, st'. split; [now destruct (result <? 0)|]. split.
  - rewrite Hlog. cbn [usb_log st1 set_largeBuffer largeBuffer].
    now rewrite (take_prefix payload).
  - apply (kept_trans st st1); [now apply kept_set_largeBuffer|exact Hkept].
Qed.



(** X13: With a payload of at most 0x3000 bytes and a record that declares at
    most 0x3000 bytes, [calibrationWrite] issues exactly one bulk write on
    the endpoint the record names, with a timeout of 100, and the bytes it
    sends are the first ones of the payload followed by zeros; the result
    is classified as for the other bulk primitives. *)
Theorem calibrationWrite_sends_payload_then_zeros dev tbl data st :
  0 <= calibWriteSize tbl <= 0x3000 ->
  0x3000 <= Z.of_nat (length (largeBuffer st)) ->
  declared_size data <= 0x3000 ->
  exists result st',
    calibrationWrite dev tbl data st = Ret (bulk_result result (declared_size data)) st'
    /\ usb_log st' =
       usb_log st ++
         [mkEvent (BulkWrite data.[1] (declared_size data) 100)
            (take (Z.to_nat (declared_size data))
               (map (fun k => to_char (calibWrite tbl).[Z.of_nat k])
                  (seq 0 (Z.to_nat (calibWriteSize tbl)))
                ++ replicate (Z.to_nat (0x3000 - calibWriteSize tbl)) 0))
            result]
    /\ kept st st'.
Proof.
  intros Hpayload Hbuf Hsize.
  unfold calibrationWrite. cbv zeta. fold (declared_size data).
  set (size := declared_size data) in *.
  erewrite bind_Ret by (apply (store_prefix (fun _ => 0)); exact Hbuf).
  rewrite map_const_seq.
  set (st1 := set_largeBuffer _ st).
  assert (Hlen1 : length (largeBuffer st1) = length (largeBuffer st)).
  { unfold st1. cbn. rewrite length_app, length_replicate, length_drop. lia. }
  erewrite bind_Ret
    by (apply (store_prefix (fun j => to_char (calibWrite tbl).[j])); rewrite Hlen1; lia).
  set (payload := map _ (seq 0 (Z.to_nat (calibWriteSize tbl)))).
  assert (Hpay : length payload = Z.to_nat (calibWriteSize tbl))
    by (unfold payload; now rewrite length_map, length_seq).
  set (st2 := set_largeBuffer _ st1).
  assert (Hbuf2 : largeBuffer st2
                  = (payload ++ replicate (Z.to_nat (0x3000 - calibWriteSize tbl)) 0)
                      ++ drop (Z.to_nat 0x3000) (largeBuffer st)).
  { unfold st2, st1. cbn [largeBuffer set_largeBuffer].
    rewrite drop_app_le by (rewrite length_replicate; lia).
    rewrite drop_replicate, <- app_assoc. do 3 f_equal. lia. }
  assert (Hlen2 : length (largeBuffer st2) = length (largeBuffer st)).
  { rewrite Hbuf2, !length_app, length_replicate, length_drop. lia. }
  destruct (kept_usb_transfer dev (BulkWrite data.[1] size 100) size false st2 ltac:(lia))
    as (st' & Hrun & Hkept & Hlog).
  unfold usb_bulk_write. erewrite bind_Ret by exact Hrun.
  set (result := rep_result _) in *.
  exists result, st'. split; [reflexivity|]. split.
  - rewrite Hlog, Hbuf2. cbn [usb_log st2 st1 set_largeBuffer].
    rewrite take_app_le by (rewrite length_app, length_replicate; lia). reflexivity.
  - apply (kept_trans st st2); [|exact Hkept].
    unfold st2, st1. repeat split. exact Hlen2.
Qed.

Lemma calibrationWrite_sends_payload_then_zeros_witness :
  exists result st',
    calibrationWrite (scanner []) payload_tables calibration_write_8 (initial_state 100)
    = Ret (bulk_result result 8) st'
    /\ usb_log st' = [mkEvent (BulkWrite 2 8 100) [1; 2; 3; 0; 0; 0; 0; 0] result].
Proof.
  destruct (calibrationWrite_sends_payload_then_zeros (scanner []) payload_tables
              calibration_write_8 (initial_state 100))
    as (result & st' & Hrun & Hlog & _).
  - vm_compute. split; discriminate.
  - unfold initial_state. cbn [largeBuffer]. rewrite length_replicate. vm_compute. discriminate.
  - vm_compute. discriminate.
  - exists result, st'. split; [exact Hrun|]. rewrite Hlog. reflexivity.
Defined.

(** [bulkRead] when the declared size fits the buffer. *)
Lemma bulkRead_fits dev data st :
  declared_size data <= Z.of_nat (length (largeBuffer st)) ->
  exists result st',
    bulkRead dev data st = Ret (bulk_result result (declared_size data)) st'
    /\ usb_log st' =
       usb_log st ++
         [mkEvent (BulkRead data.[1] (declared_size data) 3000)
            (take (Z.to_nat (declared_size data)) (largeBuffer st)) result]
    /\ kept st st'.
Proof.
  intros Hfit. unfold bulkRead. cbv zeta. fold (declared_size data).
  set (size := declared_size data) in *.
  destruct (kept_usb_transfer dev (BulkRead data.[1] size 3000) size true st Hfit)
    as (st' & Hrun & Hkept & Hlog).
  unfold usb_bulk_read. erewrite bind_Ret by exact Hrun.
  set (result := rep_result _) in *.
  exists result, st'. auto.
Qed.

(** X14: [bulkRead] issues exactly one bulk read on the endpoint the record
    names, for the declared size and with a timeout of 3000.  It returns 1
    exactly when the count the library reports is the declared size and
    positive, 2 exactly when it is positive and another number, and 0
    exactly when it is not positive: a record that declares no byte never
    gives 1. *)
Theorem bulkRead_complete_iff dev data st :
  declared_size data <= Z.of_nat (length (largeBuffer st)) ->
  exists result r st',
    bulkRead dev data st = Ret r st'
    /\ usb_log st' =
       usb_log st ++
         [mkEvent (BulkRead data.[1] (declared_size data) 3000)
            (take (Z.to_nat (declared_size data)) (largeBuffer st)) result]
    /\ kept st st'
    /\ (r = 1 <-> 0 < declared_size data /\ result = declared_size data)
    /\ (r = 2 <-> 0 < result /\ result <> declared_size data)
    /\ (r = 0 <-> result <= 0).
Proof.
  intros Hfit. destruct (bulkRead_fits dev data st Hfit) as (result & st' & Hrun & Hlog & Hkept).
  exists result, (bulk_result result (declared_size data)), st'.
  split; [exact Hrun|]. split; [exact Hlog|]. split; [exact Hkept|].
  unfold bulk_result.
  destruct (Z.gtb_spec result 0); [destruct (Z.eqb_spec result (declared_size data))|]; lia.
Qed.

Lemma bulkRead_complete_iff_witness :
  requests (bulkRead (scanner [1; 2; 3]) bulk_read_3 (initial_state 100))
  = [(BulkRead 0x81 3 3000, 3)]
  /\ exists result r st',
       bulkRead (scanner [1; 2; 3]) bulk_read_3 (initial_state 100) = Ret r st'
       /\ usb_log st' =
          usb_log (initial_state 100) ++
            [mkEvent (BulkRead bulk_read_3.[1] (declared_size bulk_read_3) 3000)
               (take (Z.to_nat (declared_size bulk_read_3)) (largeBuffer (initial_state 100)))
               result]
       /\ kept (initial_state 100) st'
       /\ (r = 1 <-> 0 < declared_size bulk_read_3 /\ result = declared_size bulk_read_3)
       /\ (r = 2 <-> 0 < result /\ result <> declared_size bulk_read_3)
       /\ (r = 0 <-> result <= 0).
Proof.
  split; [vm_compute; reflexivity|].
  apply (bulkRead_complete_iff (scanner [1; 2; 3]) bulk_read_3 (initial_state 100)).
  change (declared_size bulk_read_3) with 3.
  unfold initial_state. cbn [largeBuffer]. rewrite length_replicate. vm_compute. discriminate.
Defined.

(** X15: When its size is not negative and below the size of the buffer,
    [writeBulk0s] issues exactly one bulk write, on the endpoint [data[1]]
    and with a timeout of 100, of [(data[2] << 8) + data[1]] bytes, all of
    them 0: the low byte of the size is the endpoint byte, and [data[3]]
    is not looked at: only [data[1]] and [data[2]] matter.  The result is
    classified as for the other bulk primitives. *)
Theorem writeBulk0s_sends_zeros dev data st :
  0 <= Z.shiftl data.[2] 8 + data.[1] < Z.of_nat (length (largeBuffer st)) ->
  exists result st',
    writeBulk0s dev data st = Ret (bulk_result result (Z.shiftl data.[2] 8 + data.[1])) st'
    /\ usb_log st' =
       usb_log st ++
         [mkEvent (BulkWrite data.[1] (Z.shiftl data.[2] 8 + data.[1]) 100)
            (replicate (Z.to_nat (Z.shiftl data.[2] 8 + data.[1])) 0) result]
    /\ kept st st'
    /\ forall data',
         data'.[1] = data.[1] -> data'.[2] = data.[2] ->
         writeBulk0s dev data' st = writeBulk0s dev data st.
Proof.
  set (size := Z.shiftl data.[2] 8 + data.[1]). intros Hsize.
  assert (Hsame : forall data',
            data'.[1] = data.[1] -> data'.[2] = data.[2] ->
            writeBulk0s dev data' st = writeBulk0s dev data st).
  { intros data' H1 H2. unfold writeBulk0s. now rewrite H1, H2. }
  assert (Hmain : exists result st',
            writeBulk0s dev data st = Ret (bulk_result result size) st'
            /\ usb_log st' =
               usb_log st ++
                 [mkEvent (BulkWrite data.[1] size 100) (replicate (Z.to_nat size) 0) result]
            /\ kept st st').
  { unfold writeBulk0s. cbv zeta. fold size.
    erewrite bind_Ret by (apply zero_fill_fits; exact Hsize).
    set (st1 := set_largeBuffer _ st).
    assert (Hlen1 : length (largeBuffer st1) = length (largeBuffer st)).
    { unfold st1. cbn. rewrite length_app, length_replicate, length_drop. lia. }
    destruct (kept_usb_transfer dev (BulkWrite data.[1] size 100) size false st1 ltac:(lia))
      as (st' & Hrun & Hkept & Hlog).
    unfold usb_bulk_write. erewrite bind_Ret by exact Hrun.
    set (result := rep_result _) in *.
    exists result, st'. split; [reflexivity|]. split.
    - rewrite Hlog. cbn [usb_log st1 set_largeBuffer largeBuffer].
      rewrite take_app_le by (rewrite length_replicate; lia).
      rewrite take_replicate. do 4 f_equal. lia.
    - apply (kept_trans st st1); [now apply kept_set_largeBuffer|exact Hkept]. }
  destruct Hmain as (result & st' & Hrun & Hlog & Hkept).
  exists result, st'. auto.
Qed.

Lemma writeBulk0s_sends_zeros_witness :
  exists result st',
    writeBulk0s (scanner []) zero_write_5 (initial_state 100)
    = Ret (bulk_result result (Z.shiftl zero_write_5.[2] 8 + zero_write_5.[1])) st'
    /\ usb_log st' =
       usb_log (initial_state 100) ++
         [mkEvent (BulkWrite zero_write_5.[1] (Z.shiftl zero_write_5.[2] 8 + zero_write_5.[1])
                     100)
            (replicate (Z.to_nat (Z.shiftl zero_write_5.[2] 8 + zero_write_5.[1])) 0) result]
    /\ kept (initial_state 100) st'
    /\ forall data',
         data'.[1] = zero_write_5.[1] -> data'.[2] = zero_write_5.[2] ->
         writeBulk0s (scanner []) data' (initial_state 100)
         = writeBulk0s (scanner []) zero_write_5 (initial_state 100).
Proof.
  apply (writeBulk0s_sends_zeros (scanner []) zero_write_5 (initial_state 100)).
  change (Z.shiftl zero_write_5.[2] 8 + zero_write_5.[1]) with 2.
  unfold initial_state. cbn [largeBuffer]. rewrite length_replicate. vm_compute.
  split; [discriminate|reflexivity].
Defined.

(** * The status of [sane_start] and the requests behind it *)



Lemma judged_control c out result :
  is_control_msg (mkEvent c out result) ->
  judged (if result <? 0 then 0 else 1) (mkEvent c out result).
Proof.
  unfold is_control_msg, judged, completed, failed. cbn.
  destruct c; try contradiction. intros _.
  destruct (Z.ltb_spec result 0); split; intros; lia.
Qed.


Lemma issues_controlTransfer_judged dev data :
  issues (controlTransfer dev data) (fun r evs => exists e, evs = [e] /\ judged r e).
Proof.
  eapply issues_weaken; [apply issues_controlTransfer|].
  intros r evs (out & result & -> & ->). eexists. split; [reflexivity|].
  now apply judged_control.
Qed.












(** * The status of [sane_read] and the requests behind it *)

Lemma judged_bulk_read ep size timeout out result :
  judged (bulk_result result size) (mkEvent (BulkRead ep size timeout) out result).
Proof.
  unfold judged, completed, failed, bulk_result. cbn.
  destruct (Z.gtb_spec result 0); [destruct (Z.eqb_spec result size)|]; split; intros; lia.
Qed.

Lemma issues_bulkRead dev data :
  issues (bulkRead dev data) (fun r evs => exists e, evs = [e] /\ judged r e).
Proof.
  unfold bulkRead. cbv zeta. eapply issues_bind; [apply issues_usb_transfer|].
  intros result evs1 (out & ->). apply issues_ret.
  eexists. split; [reflexivity|]. apply judged_bulk_read.
Qed.

Lemma scan_dispatch_trace dev data st :
  match scan_dispatch dev data st with
  | Ret r st1 => exists e, usb_log st1 = usb_log st ++ [e] /\ judged r e
  | Exit _ _ => False
  | Undefined => True
  | Spin => True
  end.
Proof.
  unfold scan_dispatch. destruct (_ =? 0xfa).
  - unfold bind at 1. assert (H := issues_bulkRead dev data st).
    destruct (bulkRead dev data st) as [r s| | |]; try exact H.
    destruct H as (_ & evs & Hlog & e & -> & Hj). cbn. now exists e.
  - assert (H := issues_controlTransfer_judged dev data st).
    destruct (controlTransfer dev data st) as [r s| | |]; try exact H.
    destruct H as (_ & evs & Hlog & e & -> & Hj). now exists e.
Qed.

Lemma sane_read_loop_trace dev tbl typePtr max_len n :
  forall st,
    match sane_read_loop dev tbl n typePtr max_len st with
    | Ret r st' => exists evs, usb_log st' = usb_log st ++ evs /\ read_trace tbl (rd_status r) evs
    | Exit _ _ => False
    | Undefined => True
    | Spin => True
    end.
Proof.
  induction n as [|n IH]; intros st; cbn [sane_read_loop].
  - unfold bind. assert (H := issues_finalizeScanner dev tbl st).
    destruct (finalizeScanner dev tbl st) as [r s| | |]; try exact H.
    destruct H as (_ & evs & Hlog & _ & Hlen & Hall).
    exists evs. split; [exact Hlog|]. now exists [], evs.
  - unfold bind at 1. cbn [get]. destruct (dataAvailable st >? 0).
    + destruct (serve max_len st) as [r s|code s| |] eqn:Hserve; try exact I.
      * apply serve_Ret in Hserve. destruct Hserve as (-> & _ & _ & Hlog & _).
        exists []. rewrite app_nil_r. split; [exact Hlog|constructor].
      * exact (serve_no_exit max_len st code s Hserve).
    + unfold bind at 1. cbn [get]. unfold bind at 1.
      assert (H := scan_dispatch_trace dev (at_record typePtr (i st)) st).
      destruct (scan_dispatch dev (at_record typePtr (i st)) st) as [r s| | |]; try exact H.
      destruct H as (e & Hlog & Hcomp & Hfail).
      destruct (Z.eqb_spec r 1) as [Hr|Hr]; cbn [negb].
      * unfold bind. cbn [modify]. specialize (IH (set_i (i st + 1) s)).
        destruct (sane_read_loop dev tbl n typePtr max_len (set_i (i st + 1) s))
          as [r' s'| | |]; try exact IH.
        destruct IH as (evs & Hlog' & Htrace). cbn [usb_log set_i] in Hlog'.
        exists (e :: evs). split; [rewrite Hlog', Hlog, <- app_assoc; reflexivity|].
        destruct (rd_status r'); cbn [read_trace] in *.
        -- constructor; auto.
        -- destruct Htrace as (scan & fin & -> & Hscan & Hfin).
           exists (e :: scan), fin. split; [reflexivity|]. split; [constructor; auto|exact Hfin].
        -- destruct Htrace as (evs' & e' & -> & Hall & He').
           exists (e :: evs'), e'. split; [reflexivity|]. split; [constructor; auto|exact He'].
      * exists [e]. split; [exact Hlog|]. exists [], e. cbn. auto.
Qed.

(** X17: A call of [sane_read] returns [SANE_STATUS_IO_ERROR] only right
    after a request that did not complete, all its requests before that
    one having completed; it returns [SANE_STATUS_GOOD] only when all its
    requests have completed; and it returns [SANE_STATUS_EOF] only after
    the control transfers of the finalize table, one per record, whether
    those have completed or not, all its requests before them having
    completed.  It never ends the process. *)
Theorem sane_read_status_follows_requests dev tbl max_len st :
  match sane_read dev tbl max_len st with
  | Ret r st' =>
      exists evs,
        usb_log st' = usb_log st ++ evs
        /\ match rd_status r with
           | SANE_STATUS_GOOD => Forall completed evs
           | SANE_STATUS_IO_ERROR =>
               exists evs' e, evs = evs' ++ [e] /\ Forall completed evs' /\ failed e
           | SANE_STATUS_EOF =>
               exists scan fin,
                 evs = scan ++ fin
                 /\ Forall completed scan
                 /\ length fin = Z.to_nat (finalizeSize tbl)
                 /\ Forall is_control_msg fin
           end
  | Exit _ _ => False
  | Undefined => True
  | Spin => True
  end.
Proof.
  rewrite sane_read_as_loop. apply sane_read_loop_trace.
Qed.

(** * Reads stay inside the buffer *)

Lemma byte_list_at_record typePtr k : byte_list typePtr -> byte_list (at_record typePtr k).
Proof. intros Hd. unfold at_record, byte_list. now apply Forall_drop. Qed.

Lemma byte_list_row t k : Forall byte_list t -> byte_list (row t k).
Proof.
  intros Ht. unfold row.
  destruct (nth_in_or_default (Z.to_nat k) t []) as [Hin|Hdef]; [|rewrite Hdef; constructor].
  exact (proj1 (List.Forall_forall _ t) Ht _ Hin).
Qed.

Lemma for_count_returns (P : state -> Prop) n (body : Z -> M unit) :
  (forall j s, P s -> exists s', body j s = Ret tt s' /\ P s') ->
  forall k st, P st -> exists st', for_count n k body st = Ret tt st' /\ P st'.
Proof.
  intros Hbody. induction n as [|n IH]; intros k st Hst; cbn [for_count].
  - exists st. now split.
  - destruct (Hbody k st Hst) as (s1 & Hrun & Hs1).
    erewrite bind_Ret by exact Hrun. now apply IH.
Qed.

Lemma controlTransfer_bytes dev data st :
  byte_list data ->
  Z.of_nat (length (largeBuffer st)) = LARGE_BUFFER_SIZE ->
  exists r st', controlTransfer dev data st = Ret r st' /\ kept st st'.
Proof.
  intros Hdata Hlen.
  assert (Hsize := size16_bound _ _ (elem_byte data 7 Hdata) (elem_byte data 6 Hdata)).
  destruct (controlTransfer_fits dev data st) as (result & st' & Hrun & _ & Hkept).
  { rewrite Hlen. unfold LARGE_BUFFER_SIZE. lia. }
  eauto.
Qed.

Lemma finalizeScanner_bytes dev tbl st :
  Forall byte_list (finalize tbl) ->
  Z.of_nat (length (largeBuffer st)) = LARGE_BUFFER_SIZE ->
  exists st', finalizeScanner dev tbl st = Ret 1 st' /\ kept st st'.
Proof.
  intros Htbl Hlen. unfold finalizeScanner, for_range.
  destruct (for_count_returns
              (fun s => Z.of_nat (length (largeBuffer s)) = LARGE_BUFFER_SIZE)
              (Z.to_nat (finalizeSize tbl - 0))
              (fun i => result <- controlTransfer dev (row (finalize tbl) i) ;;
                        if result <? 0 then exit 1 else ret tt)) with (k := 0) (st := st)
    as (st' & Hrun & _); [|exact Hlen|].
  { intros j s Hs.
    destruct (controlTransfer_fits dev (row (finalize tbl) j) s)
      as (result & s' & Hrun & _ & Hkept).
    { assert (Hrow := byte_list_row (finalize tbl) j Htbl).
      assert (Hsize := size16_bound _ _ (elem_byte _ 7 Hrow) (elem_byte _ 6 Hrow)).
      rewrite Hs. unfold LARGE_BUFFER_SIZE. lia. }
    exists s'. erewrite bind_Ret by exact Hrun.
    split; [now destruct (result <? 0)|].
    destruct Hkept as (Hl & _). now rewrite Hl. }
  assert (Hfin : finalizeScanner dev tbl st = Ret 1 st').
  { unfold finalizeScanner, for_range. now erewrite bind_Ret by exact Hrun. }
  exists st'. split; [exact Hfin|].
  exact (proj1 (issues_Ret _ _ _ _ _ (issues_finalizeScanner dev tbl) Hfin)).
Qed.

Lemma serve_returns max_len st :
  0 <= max_len ->
  0 < dataAvailable st ->
  cursor_in_buffer st ->
  exists r st', serve max_len st = Ret r st'.
Proof.
  intros Hcap Havail [Hnone|[Hw Hfit]]; [lia|].
  destruct (Z.ltb_spec (dataAvailable st) max_len).
  - destruct (serve_last_chunk max_len st Hw ltac:(lia) Hfit) as (st' & Hrun & _). eauto.
  - eexists _, _. apply serve_partial_chunk; (assumption || lia).
Qed.

Lemma scan_dispatch_returns dev data st :
  byte_list data ->
  Z.of_nat (length (largeBuffer st)) = LARGE_BUFFER_SIZE ->
  exists r st1,
    scan_dispatch dev data st = Ret r st1
    /\ length (largeBuffer st1) = length (largeBuffer st)
    /\ i st1 = i st.
Proof.
  intros Hdata Hlen. unfold scan_dispatch. destruct (_ =? 0xfa).
  - assert (Hsize := size16_bound _ _ (elem_byte data 2 Hdata) (elem_byte data 3 Hdata)).
    destruct (bulkRead_fits dev data st) as (result & s & Hrun & _ & Hl & Hc & _).
    { unfold declared_size. rewrite Hlen. unfold LARGE_BUFFER_SIZE. lia. }
    erewrite bind_Ret by exact Hrun. injection Hc as _ _ Hi.
    eexists _, _. split; [reflexivity|]. cbn. auto.
  - destruct (controlTransfer_bytes dev data st Hdata Hlen) as (r & s & Hrun & Hl & Hc & _).
    injection Hc as _ _ Hi. eauto.
Qed.

Lemma sane_read_loop_returns dev tbl typePtr max_len n :
  0 <= max_len ->
  byte_list typePtr ->
  Forall byte_list (finalize tbl) ->
  forall st,
    Z.of_nat (length (largeBuffer st)) = LARGE_BUFFER_SIZE ->
    cursor_in_buffer st ->
    exists r st', sane_read_loop dev tbl n typePtr max_len st = Ret r st'.
Proof.
  intros Hcap Htable Hfin. induction n as [|n IH]; intros st Hlen Hin; cbn [sane_read_loop].
  - destruct (finalizeScanner_bytes dev tbl st Hfin Hlen) as (st' & Hrun & _).
    erewrite bind_Ret by exact Hrun. eexists _, _. reflexivity.
  - unfold bind at 1. cbn [get]. destruct (Z.gtb_spec (dataAvailable st) 0) as [Havail|Havail].
    + apply serve_returns; (assumption || lia).
    + unfold bind at 1. cbn [get].
      destruct (scan_dispatch_returns dev (at_record typePtr (i st)) st
                  (byte_list_at_record _ _ Htable) Hlen) as (r & s & Hrun & Hl & Hi).
      erewrite bind_Ret by exact Hrun.
      destruct (negb (r =? 1)); [eexists _, _; reflexivity|].
      unfold bind. cbn [modify]. apply IH.
      * cbn. now rewrite Hl.
      * apply set_i_cursor_in_buffer.
        exact (scan_dispatch_cursor_in_buffer dev _ st r s Hin Hrun).
Qed.

Lemma scan_dispatch_shape dev data st r st1 :
  scan_dispatch dev data st = Ret r st1 ->
  length (largeBuffer st1) = length (largeBuffer st) /\ dpiValue st1 = dpiValue st.
Proof.
  unfold scan_dispatch. destruct (_ =? 0xfa).
  - unfold bind at 1. assert (H := issues_bulkRead dev data st).
    destruct (bulkRead dev data st) as [r0 s| | |]; try discriminate.
    destruct H as ((Hl & _ & Hd) & _). cbn. intros [= _ <-]. cbn. auto.
  - intros Hrun.
    destruct (issues_Ret _ _ _ _ _ (issues_controlTransfer dev data) Hrun)
      as ((Hl & _ & Hd) & _).
    auto.
Qed.

Lemma sane_read_loop_shape dev tbl typePtr max_len n :
  forall st r st',
    sane_read_loop dev tbl n typePtr max_len st = Ret r st' ->
    length (largeBuffer st') = length (largeBuffer st) /\ dpiValue st' = dpiValue st.
Proof.
  induction n as [|n IH]; intros st r st'; cbn [sane_read_loop].
  - unfold bind. destruct (finalizeScanner dev tbl st) as [r0 s| | |] eqn:Hrun; try discriminate.
    destruct (issues_Ret _ _ _ _ _ (issues_finalizeScanner dev tbl) Hrun)
      as ((Hl & _ & Hd) & _).
    cbn. intros [= _ <-]. auto.
  - unfold bind at 1. cbn [get]. destruct (_ >? 0).
    + intros Hserve. apply serve_Ret in Hserve. tauto.
    + unfold bind at 1. cbn [get]. unfold bind at 1.
      destruct (scan_dispatch dev (at_record typePtr (i st)) st) as [r0 s| | |] eqn:Hrun;
        try discriminate.
      apply scan_dispatch_shape in Hrun. destruct Hrun as [Hl Hd].
      destruct (negb _); [cbn; intros [= _ <-]; auto|].
      unfold bind. cbn [modify]. intros Hrest. apply IH in Hrest. cbn in Hrest.
      destruct Hrest as [Hl' Hd']. split; congruence.
Qed.

Lemma sane_read_returns_in_buffer dev tbl max_len st :
  0 <= max_len ->
  byte_list (scan_table tbl st) ->
  Forall byte_list (finalize tbl) ->
  Z.of_nat (length (largeBuffer st)) = LARGE_BUFFER_SIZE ->
  cursor_in_buffer st ->
  exists r st',
    sane_read dev tbl max_len st = Ret r st'
    /\ Z.of_nat (length (largeBuffer st')) = LARGE_BUFFER_SIZE
    /\ cursor_in_buffer st'
    /\ scan_table tbl st' = scan_table tbl st.
Proof.
  intros Hcap Htable Hfin Hlen Hin.
  assert (Hret : exists r st', sane_read dev tbl max_len st = Ret r st').
  { rewrite sane_read_as_loop. now apply sane_read_loop_returns. }
  destruct Hret as (r & st' & Hrun). exists r, st'. split; [exact Hrun|].
  assert (Hkeep := sane_read_loop_cursor_in_buffer dev tbl (scan_table tbl st) max_len
                     (Z.to_nat (scan_table_size tbl st - i st)) Hcap st Hin).
  rewrite <- sane_read_as_loop, Hrun in Hkeep.
  assert (Hshape : length (largeBuffer st') = length (largeBuffer st)
                   /\ dpiValue st' = dpiValue st).
  { rewrite sane_read_as_loop in Hrun. exact (sane_read_loop_shape _ _ _ _ _ _ _ _ Hrun). }
  destruct Hshape as [Hl Hd].
  split; [now rewrite Hl|]. split; [exact Hkeep|].
  unfold scan_table. now rewrite Hd.
Qed.

(** X18: With tables of bytes, the 65535-byte buffer, a capacity that is not
    negative and the pending bytes inside the buffer, [sane_read] always
    returns: no load or store of the call, and no transfer it asks for,
    falls outside [largeBuffer], and it neither ends the process nor runs
    forever.  The buffer keeps its size and the pending bytes stay inside
    it, so the same holds for the next call. *)
Theorem sane_read_stays_in_buffer dev tbl max_len st :
  0 <= max_len ->
  byte_list (scan_table tbl st) ->
  Forall byte_list (finalize tbl) ->
  Z.of_nat (length (largeBuffer st)) = LARGE_BUFFER_SIZE ->
  cursor_in_buffer st ->
  exists r st',
    sane_read dev tbl max_len st = Ret r st'
    /\ Z.of_nat (length (largeBuffer st')) = LARGE_BUFFER_SIZE
    /\ cursor_in_buffer st'
    /\ scan_table tbl st' = scan_table tbl st.
Proof. apply sane_read_returns_in_buffer. Qed.

(** The first read of the colour scan of [small_tables]. *)
Lemma sane_read_stays_in_buffer_witness :
  option_map rd_buf
    (returned (sane_read (scanner [1; 2; 3]) small_tables 2 (initial_state 100)))
  = Some [1; 2]
  /\ exists r st',
       sane_read (scanner [1; 2; 3]) small_tables 2 (initial_state 100) = Ret r st'
       /\ Z.of_nat (length (largeBuffer st')) = LARGE_BUFFER_SIZE
       /\ cursor_in_buffer st'
       /\ scan_table small_tables st' = scan_table small_tables (initial_state 100).
Proof.
  split; [vm_compute; reflexivity|].
  apply (sane_read_stays_in_buffer (scanner [1; 2; 3]) small_tables 2 (initial_state 100)).
  - lia.
  - unfold byte_list. apply (bool_decide_unpack _). vm_compute. exact I.
  - unfold byte_list. apply (bool_decide_unpack _). vm_compute. exact I.
  - unfold initial_state. cbn [largeBuffer]. rewrite length_replicate. reflexivity.
  - left. vm_compute. discriminate.
Defined.

(** X19: Under the same conditions a caller's loop of reads, however many
    calls it makes, never reaches an access outside [largeBuffer] and
    never ends the process: it returns, unless the calls allowed run
    out. *)
Theorem drain_stays_in_buffer dev tbl max_len calls st :
  0 <= max_len ->
  byte_list (scan_table tbl st) ->
  Forall byte_list (finalize tbl) ->
  Z.of_nat (length (largeBuffer st)) = LARGE_BUFFER_SIZE ->
  cursor_in_buffer st ->
  match drain dev tbl calls max_len st with
  | Ret _ st' => Z.of_nat (length (largeBuffer st')) = LARGE_BUFFER_SIZE /\ cursor_in_buffer st'
  | Exit _ _ => False
  | Undefined => False
  | Spin => True
  end.
Proof.
  intros Hcap Htable Hfin. revert st Htable.
  induction calls as [|calls IH]; intros st Htable Hlen Hin; cbn [drain]; [exact I|].
  destruct (sane_read_returns_in_buffer dev tbl max_len st Hcap Htable Hfin Hlen Hin)
    as (r & st1 & Hrun & Hlen1 & Hin1 & Htable1).
  erewrite bind_Ret by exact Hrun.
  destruct (rd_status r); try (cbn; auto).
  specialize (IH st1 ltac:(now rewrite Htable1) Hlen1 Hin1). unfold bind.
  destruct (drain dev tbl calls max_len st1); auto.
Qed.

(** The colour scan of [small_tables], read two bytes at a time. *)
Lemma drain_stays_in_buffer_witness :
  returned (drain (scanner [1; 2; 3]) small_tables 5 2 (initial_state 100))
  = Some (SANE_STATUS_EOF, [1; 2; 3])
  /\ match drain (scanner [1; 2; 3]) small_tables 5 2 (initial_state 100) with
     | Ret _ st' =>
         Z.of_nat (length (largeBuffer st')) = LARGE_BUFFER_SIZE /\ cursor_in_buffer st'
     | Exit _ _ => False
     | Undefined => False
     | Spin => True
     end.
Proof.
  split; [vm_compute; reflexivity|].
  apply (drain_stays_in_buffer (scanner [1; 2; 3]) small_tables 2 5 (initial_state 100)).
  - lia.
  - unfold byte_list. apply (bool_decide_unpack _). vm_compute. exact I.
  - unfold byte_list. apply (bool_decide_unpack _). vm_compute. exact I.
  - unfold initial_state. cbn [largeBuffer]. rewrite length_replicate. reflexivity.
  - left. vm_compute. discriminate.
Defined.

(** * Options and parameters *)

(** X20: Setting the dpi option stores whatever value the caller passes,
    not only the 100 and 200 of the option's word list, and the calls
    that follow take their mode from it: [sane_get_parameters] reports the
    gray frame exactly when the value is 200; [sane_read] walks the
    monochrome scan table exactly when the value is 200 and the colour one
    for every other value, and a last chunk it serves is complemented
    exactly when the value is 200.  The value cannot be read back: the
    get action leaves the caller's word as it was. *)
Theorem sane_control_option_selects_mode dev tbl v w max_len st :
  exists st1,
    sane_control_option 1 1 v st = Ret (Status SANE_STATUS_GOOD, v) st1
    /\ dpiValue st1 = v
    /\ cursor st1 = cursor st
    /\ (exists p,
          sane_get_parameters st1 = Ret (Status SANE_STATUS_GOOD, p) st1
          /\ (format p = SANE_FRAME_GRAY <-> v = 200))
    /\ sane_read dev tbl max_len st1
       = sane_read_loop dev tbl
           (Z.to_nat ((if v =? 200 then scanBlackSize tbl else scanColorSize tbl) - i st))
           (if v =? 200 then scanBlack tbl else scanColor tbl) max_len st1
    /\ (i st < (if v =? 200 then scanBlackSize tbl else scanColorSize tbl) ->
        0 <= whereInBuffer st ->
        0 < dataAvailable st < max_len ->
        whereInBuffer st + dataAvailable st <= Z.of_nat (length (largeBuffer st)) ->
        exists st',
          sane_read dev tbl max_len st1
          = Ret (mkRead SANE_STATUS_GOOD
                   (map (if v =? 200 then char_not else fun b => b)
                      (take (Z.to_nat (dataAvailable st))
                         (drop (Z.to_nat (whereInBuffer st)) (largeBuffer st))))
                   (Some (dataAvailable st))) st')
    /\ sane_control_option 1 0 w st1 = Ret (Status SANE_STATUS_GOOD, w) st1.
Proof.
  exists (set_dpiValue v st).
  split; [reflexivity|]. split; [reflexivity|]. split; [reflexivity|]. split; [|split; [|split]].
  - unfold sane_get_parameters, bind, get. cbn [dpiValue set_dpiValue].
    destruct (Z.eqb_spec v 200) as [Hv|Hv]; eexists; (split; [reflexivity|]); cbn;
      split; (congruence || discriminate).
  - now rewrite sane_read_as_loop.
  - intros Hi Hw Havail Hfit.
    rewrite sane_read_serves by (cbn; unfold scan_table_size; cbn; lia).
    destruct (serve_last_chunk max_len (set_dpiValue v st) Hw ltac:(cbn; lia) Hfit)
      as (st' & Hrun & _).
    exists st'. exact Hrun.
  - reflexivity.
Qed.

(** X21: [sane_get_parameters] always returns [SANE_STATUS_GOOD] and leaves the
    state alone; the frame is gray exactly when the dpi value is 200; and
    in both modes the bytes of a line hold exactly its pixels: eight times
    the bytes per line is the pixels per line times the depth times the
    samples per pixel. *)
Theorem sane_get_parameters_line_size st :
  exists p,
    sane_get_parameters st = Ret (Status SANE_STATUS_GOOD, p) st
    /\ (format p = SANE_FRAME_GRAY <-> dpiValue st = 200)
    /\ last_frame p = 1
    /\ 8 * bytes_per_line p = pixels_per_line p * depth p * channels (format p).
Proof.
  unfold sane_get_parameters, bind, get.
  destruct (Z.eqb_spec (dpiValue st) 200) as [Hdpi|Hdpi]; eexists; (split; [reflexivity|]);
    cbn; repeat split; (congruence || lia || discriminate).
Qed.

(** * Finding, opening and closing the scanner *)

Lemma detect_on_bus_first devices :
  match detect_on_bus devices with
  | Some dev =>
      exists before after,
        devices = before ++ dev :: after
        /\ is_colorado dev = true
        /\ Forall (fun d => is_colorado d = false) before
  | None => Forall (fun d => is_colorado d = false) devices
  end.
Proof.
  induction devices as [|d devices IH]; cbn [detect_on_bus]; [constructor|].
  destruct (is_colorado d) eqn:Hd.
  - exists [], devices. repeat split; [exact Hd|constructor].
  - destruct (detect_on_bus devices) as [dev|].
    + destruct IH as (before & after & -> & Hdev & Hbefore).
      exists (d :: before), after. repeat split; [exact Hdev|now constructor].
    + now constructor.
Qed.

Lemma is_colorado_true dev :
  is_colorado dev = true <-> idVendor dev = 0x0461 /\ idProduct dev = 0x0346.
Proof. unfold is_colorado. rewrite andb_true_iff, !Z.eqb_eq. reflexivity. Qed.

Lemma is_colorado_false dev :
  is_colorado dev = false <-> ~ (idVendor dev = 0x0461 /\ idProduct dev = 0x0346).
Proof. rewrite <- is_colorado_true. now destruct (is_colorado dev). Qed.

(** X22: [detectDevice] returns 1 exactly when some device on some bus has the
    vendor number 0x0461 and the product number 0x0346, and the device it
    stores is then the first such one, in the order of the busses and of
    the devices on a bus; it returns 0 exactly when there is none. *)
Theorem detectDevice_finds_first_match busses :
  match detectDevice busses with
  | Some dev =>
      exists before after,
        concat busses = before ++ dev :: after
        /\ idVendor dev = 0x0461 /\ idProduct dev = 0x0346
        /\ Forall (fun d => ~ (idVendor d = 0x0461 /\ idProduct d = 0x0346)) before
  | None => Forall (fun d => ~ (idVendor d = 0x0461 /\ idProduct d = 0x0346)) (concat busses)
  end.
Proof.
  assert (Hno : forall l, Forall (fun d => is_colorado d = false) l ->
                  Forall (fun d => ~ (idVendor d = 0x0461 /\ idProduct d = 0x0346)) l).
  { intros l Hl. eapply Forall_impl; [exact Hl|]. intros d. apply is_colorado_false. }
  induction busses as [|bus busses IH]; cbn [detectDevice concat]; [constructor|].
  assert (Hbus := detect_on_bus_first bus).
  destruct (detect_on_bus bus) as [dev|].
  - destruct Hbus as (before & after & -> & Hdev & Hbefore).
    exists before, (after ++ concat busses).
    apply is_colorado_true in Hdev. destruct Hdev as [Hv Hp].
    rewrite <- app_assoc. repeat split; auto.
  - destruct (detectDevice busses) as [dev|].
    + destruct IH as (before & after & -> & Hv & Hp & Hbefore).
      exists (bus ++ before), after. rewrite app_assoc. repeat split; try assumption.
      apply Forall_app. split; auto.
    + apply Forall_app. split; auto.
Qed.

(** [sane_open] on a closed handle. *)
Lemma sane_open_closed h busses hs :
  isDeviceOpen hs = 0 ->
  match detectDevice busses with
  | None => sane_open h busses hs = (SANE_STATUS_INVAL, hs)
  | Some dev =>
      exists handle status1 status2 status3,
        let ok := negb ((handle =? 0) || (status1 <? 0) || (status2 <? 0) || (status3 <? 0)) in
        let log :=
          admin_log hs ++
            [(usb_open dev, handle); (usb_set_configuration handle 1, status1);
             (usb_claim_interface handle 0, status2); (usb_set_altinterface handle 0, status3)] in
        sane_open h busses hs
        = (Status (if ok then SANE_STATUS_GOOD else SANE_STATUS_IO_ERROR),
           mkHandle (if ok then 1 else 0) handle log)
  end.
Proof.
  intros Hclosed. unfold sane_open. rewrite Hclosed. cbn [Z.eqb].
  destruct (detectDevice busses) as [dev|]; [|reflexivity].
  unfold call. cbn [admin_log set_deviceHandle isDeviceOpen deviceHandle].
  match goal with
  | |- context [(?a =? 0) || (?b <? 0) || (?c <? 0) || (?d <? 0)] => exists a, b, c, d
  end.
  cbv zeta. rewrite <- !app_assoc. cbn [app].
  destruct (_ || _); cbn [negb]; unfold set_isDeviceOpen; cbn; rewrite ?Hclosed; reflexivity.
Qed.

(** X23: A [sane_open] that returns [SANE_STATUS_GOOD] on a closed handle has
    found the scanner and issued four calls: open, set configuration 1,
    claim interface 0, set alternate setting 0, all on the handle that
    open gave, which is not [NULL], and none with a negative result.  A
    second [sane_open] then does nothing, whatever is on the busses;
    [sane_close] releases interface 0 and closes that handle, and a
    second [sane_close] does nothing. *)
Theorem sane_open_then_close h busses hs hs1 :
  isDeviceOpen hs = 0 ->
  sane_open h busses hs = (Status SANE_STATUS_GOOD, hs1) ->
  exists dev handle status1 status2 status3 r1 r2,
    detectDevice busses = Some dev
    /\ handle <> 0 /\ 0 <= status1 /\ 0 <= status2 /\ 0 <= status3
    /\ admin_log hs1 =
       admin_log hs ++
         [(usb_open dev, handle); (usb_set_configuration handle 1, status1);
          (usb_claim_interface handle 0, status2); (usb_set_altinterface handle 0, status3)]
    /\ (forall busses', sane_open h busses' hs1 = (Status SANE_STATUS_GOOD, hs1))
    /\ sane_close h hs1
       = mkHandle 0 handle
           (admin_log hs1 ++ [(usb_release_interface handle 0, r1); (usb_close handle, r2)])
    /\ sane_close h (sane_close h hs1) = sane_close h hs1.
Proof.
  intros Hclosed Hopen. assert (H := sane_open_closed h busses hs Hclosed).
  destruct (detectDevice busses) as [dev|]; [|rewrite H in Hopen; discriminate].
  destruct H as (handle & s1 & s2 & s3 & H). cbv zeta in H. rewrite H in Hopen.
  destruct (_ || _) eqn:Hbad in Hopen; cbn [negb] in Hopen; [discriminate|].
  injection Hopen as <-.
  apply orb_false_iff in Hbad. destruct Hbad as [Hbad H3].
  apply orb_false_iff in Hbad. destruct Hbad as [Hbad H2].
  apply orb_false_iff in Hbad. destruct Hbad as [H0 H1].
  apply Z.eqb_neq in H0. apply Z.ltb_ge in H1, H2, H3.
  exists dev, handle, s1, s2, s3. do 2 eexists.
  split; [reflexivity|]. do 4 (split; [assumption|]).
  split; [reflexivity|]. split; [reflexivity|].
  split; [|reflexivity].
  unfold sane_close, call. cbn. rewrite <- !app_assoc. reflexivity.
Qed.

Lemma sane_open_then_close_witness :
  exists dev handle status1 status2 status3 r1 r2,
    detectDevice two_busses = Some dev
    /\ handle <> 0 /\ 0 <= status1 /\ 0 <= status2 /\ 0 <= status3
    /\ admin_log opened_handle =
       admin_log closed_handle ++
         [(usb_open dev, handle); (usb_set_configuration handle 1, status1);
          (usb_claim_interface handle 0, status2); (usb_set_altinterface handle 0, status3)]
    /\ (forall busses',
          sane_open willing_host busses' opened_handle
          = (Status SANE_STATUS_GOOD, opened_handle))
    /\ sane_close willing_host opened_handle
       = mkHandle 0 handle
           (admin_log opened_handle
              ++ [(usb_release_interface handle 0, r1); (usb_close handle, r2)])
    /\ sane_close willing_host (sane_close willing_host opened_handle)
       = sane_close willing_host opened_handle.
Proof.
  apply (sane_open_then_close willing_host two_busses closed_handle); reflexivity.
Defined.

(** X24: A [sane_open] that returns [SANE_STATUS_IO_ERROR] has found the
    scanner and has issued all four calls, the last three also on a
    [NULL] handle, and one of them has failed.  It leaves the handle that
    open gave in [deviceHandle] and the driver marked as closed, so a
    following [sane_close] issues no call: nothing closes that handle or
    releases its interface. *)
Theorem sane_open_failure_leaves_handle h busses hs hs1 :
  isDeviceOpen hs = 0 ->
  sane_open h busses hs = (Status SANE_STATUS_IO_ERROR, hs1) ->
  exists dev handle status1 status2 status3,
    detectDevice busses = Some dev
    /\ (handle = 0 \/ status1 < 0 \/ status2 < 0 \/ status3 < 0)
    /\ hs1
       = mkHandle 0 handle
           (admin_log hs ++
              [(usb_open dev, handle); (usb_set_configuration handle 1, status1);
               (usb_claim_interface handle 0, status2);
               (usb_set_altinterface handle 0, status3)])
    /\ sane_close h hs1 = hs1.
Proof.
  intros Hclosed Hopen. assert (H := sane_open_closed h busses hs Hclosed).
  destruct (detectDevice busses) as [dev|]; [|rewrite H in Hopen; discriminate].
  destruct H as (handle & s1 & s2 & s3 & H). cbv zeta in H. rewrite H in Hopen.
  destruct (_ || _) eqn:Hbad in Hopen; cbn [negb] in Hopen; [|discriminate].
  injection Hopen as <-.
  exists dev, handle, s1, s2, s3. split; [reflexivity|]. split; [|split; reflexivity].
  rewrite !orb_true_iff, Z.eqb_eq, !Z.ltb_lt in Hbad. tauto.
Qed.

Lemma sane_open_failure_leaves_handle_witness :
  exists dev handle status1 status2 status3,
    detectDevice two_busses = Some dev
    /\ (handle = 0 \/ status1 < 0 \/ status2 < 0 \/ status3 < 0)
    /\ refused_handle
       = mkHandle 0 handle
           (admin_log closed_handle ++
              [(usb_open dev, handle); (usb_set_configuration handle 1, status1);
               (usb_claim_interface handle 0, status2);
               (usb_set_altinterface handle 0, status3)])
    /\ sane_close unwilling_host refused_handle = refused_handle.
Proof.
  apply (sane_open_failure_leaves_handle unwilling_host two_busses closed_handle);
    reflexivity.
Defined.

(** X25: [sane_cancel] runs the finalize table, one control transfer per
    record, whether or not a read has run it before, resets the device
    through [deviceHandle] whether or not the driver is open, and marks
    the driver as closed without closing the handle: a following
    [sane_close] issues no call.  The read cursor stays where it was. *)
Theorem sane_cancel_then_close dev tbl h hs st :
  match sane_cancel dev tbl h hs st with
  | Ret hs1 st1 =>
      hs1
      = mkHandle 0 (deviceHandle hs)
          (admin_log hs
             ++ [(usb_reset (deviceHandle hs), h (admin_log hs) (usb_reset (deviceHandle hs)))])
      /\ sane_close h hs1 = hs1
      /\ cursor st1 = cursor st
      /\ exists evs,
           usb_log st1 = usb_log st ++ evs
           /\ length evs = Z.to_nat (finalizeSize tbl)
           /\ Forall is_control_msg evs
  | Exit _ _ => False
  | Undefined => True
  | Spin => True
  end.
Proof.
  unfold sane_cancel, bind. assert (H := issues_finalizeScanner dev tbl st).
  destruct (finalizeScanner dev tbl st) as [r s| | |]; try exact H.
  destruct H as ((_ & Hcur & _) & evs & Hlog & _ & Hlen & Hall).
  cbn. repeat split; [exact Hcur|]. now exists evs.
Qed.

(** * The standalone program: printing the samples *)

Lemma all_bytes (P : Z -> bool) :
  forallb P (map Z.of_nat (seq 0 256)) = true ->
  forall b, 0 <= b < 256 -> P b = true.
Proof.
  intros Hall b Hb. rewrite forallb_forall in Hall. apply Hall.
  apply in_map_iff. exists (Z.to_nat b). split; [lia|]. apply in_seq. lia.
Qed.

(** X26: For every byte the colour branch of [main] prints the byte itself, as
    a number from 0 to 255, although [buffer] holds signed chars; every
    other branch prints eight numbers for it, each 0 or 255, one per bit
    and the highest bit first, from which the byte can be rebuilt. *)
Theorem print_byte_round_trip dpi b :
  0 <= b < 256 ->
  print_byte 100 b = [b]
  /\ (dpi <> 100 ->
      List.length (print_byte dpi b) = 8%nat
      /\ Forall (fun v => v = 0 \/ v = 255) (print_byte dpi b)
      /\ pack_samples (print_byte dpi b) = b
      /\ forall j, (j < 8)%nat ->
           print_byte dpi b !! j = Some (if Z.testbit b (Z.of_nat (7 - j)) then 255 else 0)).
Proof.
  intros Hb.
  pose (P := fun b : Z =>
    bool_decide (print_byte 100 b = [b])
    && bool_decide (Forall (fun v => v = 0 \/ v = 255) (print_bits 8 (signed_char b)))
    && bool_decide (pack_samples (print_bits 8 (signed_char b)) = b)
    && bool_decide (print_bits 8 (signed_char b)
                    = map (fun j => if Z.testbit b (Z.of_nat (7 - j)) then 255 else 0)
                        (seq 0 8))).
  assert (HP : P b = true) by (apply all_bytes; [vm_compute; reflexivity|exact Hb]).
  unfold P in HP. rewrite !andb_true_iff, !bool_decide_eq_true in HP.
  destruct HP as (((Hcolour & Hvalues) & Hpack) & Hbits).
  split; [exact Hcolour|]. intros Hdpi.
  unfold print_byte. destruct (Z.eqb_spec dpi 100); [contradiction|]. cbv zeta.
  split; [reflexivity|]. split; [exact Hvalues|]. split; [exact Hpack|].
  intros j Hj. rewrite Hbits.
  do 8 (destruct j as [|j]; [reflexivity|]). lia.
Qed.

Lemma print_byte_round_trip_witness :
  0 <= 0xa5 < 256
  /\ print_byte 200 0xa5 = [255; 0; 255; 0; 0; 255; 0; 255]
  /\ print_byte 100 0xa5 = [0xa5]
  /\ (200 <> 100 ->
      List.length (print_byte 200 0xa5) = 8%nat
      /\ Forall (fun v => v = 0 \/ v = 255) (print_byte 200 0xa5)
      /\ pack_samples (print_byte 200 0xa5) = 0xa5
      /\ forall j, (j < 8)%nat ->
           print_byte 200 0xa5 !! j
           = Some (if Z.testbit 0xa5 (Z.of_nat (7 - j)) then 255 else 0)).
Proof.
  split; [lia|]. split; [vm_compute; reflexivity|].
  apply (print_byte_round_trip 200 0xa5). lia.
Defined.

(** * The standalone program: the last pass of the reading loop *)

Lemma standalone_serve_dpi max_len st r st' :
  Standalone.serve max_len st = Ret r st' -> dpiValue st' = dpiValue st.
Proof.
  unfold Standalone.serve. unfold bind at 1. cbn [get]. unfold bind at 1. cbn [get].
  destruct (_ <? _); unfold bind at 1, copy_out.
  - destruct (copy_count _ 0 (whereInBuffer st) st) as [l s| | |] eqn:Hcopy; try discriminate.
    apply copy_count_Ret in Hcopy. destruct Hcopy as [_ ->]. cbn. now intros [= _ <-].
  - destruct (copy_count _ 0 (whereInBuffer st) st) as [l s| | |] eqn:Hcopy; try discriminate.
    apply copy_count_Ret in Hcopy. destruct Hcopy as [_ ->]. cbn. now intros [= _ <-].
Qed.

Lemma framed_standalone_bulkRead dev data :
  framed (Standalone.bulkRead dev data) (fun _ => True).
Proof. unfold Standalone.bulkRead. apply framed_bulk_result, framed_usb_transfer. Qed.

Lemma standalone_scan_dispatch_dpi dev data st r st' :
  Standalone.scan_dispatch dev data st = Ret r st' -> dpiValue st' = dpiValue st.
Proof.
  unfold Standalone.scan_dispatch. destruct (_ =? 0xfa).
  - unfold bind at 1. assert (H := framed_standalone_bulkRead dev data st).
    destruct (Standalone.bulkRead dev data st) as [r0 s| | |]; try discriminate.
    destruct H as (_ & _ & Hdpi). cbn. now intros [= _ <-].
  - intros Hrun. assert (H := framed_controlTransfer dev data st).
    rewrite Hrun in H. now destruct H as (_ & _ & Hdpi).
Qed.

Lemma standalone_sane_read_loop_dpi dev tbl typePtr max_len n :
  forall st r st',
    Standalone.sane_read_loop dev tbl n typePtr max_len st = Ret r st' ->
    dpiValue st' = dpiValue st.
Proof.
  induction n as [|n IH]; intros st r st'; cbn [Standalone.sane_read_loop].
  - unfold bind. assert (H := framed_finalizeScanner dev tbl st).
    destruct (finalizeScanner dev tbl st) as [r0 s| | |]; try discriminate.
    destruct H as (_ & _ & Hdpi). cbn. now intros [= _ <-].
  - unfold bind at 1. cbn [get]. destruct (_ >? 0).
    + unfold bind. destruct (Standalone.serve max_len st) as [r0 s| | |] eqn:Hserve;
        try discriminate.
      apply standalone_serve_dpi in Hserve. cbn. now intros [= _ <-].
    + unfold bind at 1. cbn [get]. unfold bind at 1.
      destruct (Standalone.scan_dispatch dev (at_record typePtr (i st)) st)
        as [r0 s| | |] eqn:Hrun; try discriminate.
      apply standalone_scan_dispatch_dpi in Hrun.
      destruct (negb _); [discriminate|].
      unfold bind. cbn [modify]. intros Hrest. apply IH in Hrest. cbn in Hrest. congruence.
Qed.

Lemma standalone_sane_read_dpi dev tbl max_len st r st' :
  Standalone.sane_read dev tbl max_len st = Ret r st' -> dpiValue st' = dpiValue st.
Proof. unfold Standalone.sane_read, bind, get. apply standalone_sane_read_loop_dpi. Qed.

(** X27: When a pass of the loop in [main] reads a chunk and the next call of
    [sane_read] reaches the end of the scan table, that call stores
    nothing in [buffer] and [length], and the loop prints the samples of
    the chunk a second time before it ends. *)
Theorem main_loop_prints_last_chunk_twice dev tbl passes r st :
  Standalone.tempVar r <> 1 ->
  match Standalone.sane_read dev tbl 3000 st with
  | Ret (Some (bytes, len)) st1 =>
      match Standalone.sane_read dev tbl 3000 st1 with
      | Ret None st2 =>
          Standalone.main_loop dev tbl (S (S passes)) r st
          = Ret (Standalone.mkReader (fill bytes (Standalone.buffer r)) len 1
                   (Standalone.printed r
                      ++ print_buffer (dpiValue st) (fill bytes (Standalone.buffer r)) len
                      ++ print_buffer (dpiValue st) (fill bytes (Standalone.buffer r)) len))
                st2
      | _ => True
      end
  | _ => True
  end.
Proof.
  intros Hrun.
  destruct (Standalone.sane_read dev tbl 3000 st) as [[[bytes len]|] st1| | |] eqn:H1;
    try exact I.
  destruct (Standalone.sane_read dev tbl 3000 st1) as [[|] st2| | |] eqn:H2; try exact I.
  assert (Hd1 := standalone_sane_read_dpi _ _ _ _ _ _ H1).
  assert (Hd2 := standalone_sane_read_dpi _ _ _ _ _ _ H2).
  cbn [Standalone.main_loop].
  destruct (Z.eqb_spec (Standalone.tempVar r) 1); [contradiction|].
  unfold Standalone.main_pass. unfold bind at 1. unfold bind at 1. rewrite H1.
  unfold bind at 1. cbn [get ret Standalone.buffer Standalone.length Standalone.tempVar
                         Standalone.printed].
  destruct (Z.eqb_spec (Standalone.tempVar r) 1); [contradiction|].
  unfold bind at 1. unfold bind at 1. rewrite H2.
  unfold bind at 1. cbn [get ret Standalone.buffer Standalone.length Standalone.tempVar
                         Standalone.printed].
  destruct passes; cbn [Standalone.main_loop Standalone.tempVar Z.eqb Pos.eqb];
    unfold ret; rewrite Hd2, Hd1, <- app_assoc; reflexivity.
Qed.

(** The colour scan of [small_tables]: one chunk of three bytes, printed
    twice. *)
Lemma main_loop_prints_last_chunk_twice_witness :
  Standalone.tempVar fresh_reader <> 1
  /\ option_map Standalone.printed
       (returned (Standalone.main_loop (scanner [1; 2; 3]) small_tables 2 fresh_reader
                    (initial_state 100)))
     = Some [1; 2; 3; 1; 2; 3]
  /\ match Standalone.sane_read (scanner [1; 2; 3]) small_tables 3000 (initial_state 100) with
     | Ret (Some (bytes, len)) st1 =>
         match Standalone.sane_read (scanner [1; 2; 3]) small_tables 3000 st1 with
         | Ret None st2 =>
             Standalone.main_loop (scanner [1; 2; 3]) small_tables 2 fresh_reader
               (initial_state 100)
             = Ret (Standalone.mkReader (fill bytes (Standalone.buffer fresh_reader)) len 1
                      (Standalone.printed fresh_reader
                         ++ print_buffer (dpiValue (initial_state 100))
                              (fill bytes (Standalone.buffer fresh_reader)) len
                         ++ print_buffer (dpiValue (initial_state 100))
                              (fill bytes (Standalone.buffer fresh_reader)) len))
                   st2
         | _ => True
         end
     | _ => True
     end.
Proof.
  assert (H : Standalone.tempVar fresh_reader <> 1) by discriminate.
  split; [exact H|]. split; [vm_compute; reflexivity|].
  exact (main_loop_prints_last_chunk_twice (scanner [1; 2; 3]) small_tables 0 fresh_reader
           (initial_state 100) H).
Defined.


(** * Dispatch by opcode in [sane_start] and [sane_read] *)

Lemma setup_body_as_spec dev bound typePtr k s :
  (result <- setup_dispatch dev bound (at_record typePtr k) ;;
   if negb (result =? 1) then ret tt else ret tt) s
  = (spec_setup_primitive dev bound (at_record typePtr k) ;; ret tt) s.
Proof.
  rewrite setup_dispatch_as_spec. unfold bind.
  destruct (spec_setup_primitive dev bound (at_record typePtr k) s) as [r s'| | |];
    try reflexivity.
  now destruct (negb (r =? 1)).
Qed.

(** C4, amended: [sane_start] runs the initialize table, then for every
    record of the setup table of the mode the primitive its leading byte
    selects (0xfa [bulkRead], 0xfb [repeatedControlTransfer], 0xff
    [writeBulk0s], anything else [controlTransfer]), whose result it drops,
    then the calibration table.  [sane_read], for every record it reaches
    with nothing pending, runs [bulkRead] and sets the cursor when the
    leading byte is 0xfa, and [controlTransfer] for every other leading
    byte, 0xfb and 0xff included; it returns [SANE_STATUS_IO_ERROR] when
    the result is not 1 and goes on with the next record otherwise. *)
Theorem dispatch_by_opcode dev tbl bound max_len st :
  sane_start dev tbl bound st
  = (r <- initialize_phase dev tbl ;;
     match r with
     | Some status => ret status
     | None =>
         dpi <- get dpiValue ;;
         for_range 0 (if dpi =? 200 then setupBlackSize tbl else setupColorSize tbl)
           (fun k =>
              spec_setup_primitive dev bound
                (at_record (if dpi =? 200 then setupBlack tbl else setupColor tbl) k) ;;
              ret tt) ;;
         r <- calibration_phase dev tbl ;;
         ret (status_after_calibration r)
     end) st
  /\ (dataAvailable st <= 0 ->
      i st < scan_table_size tbl st ->
      sane_read dev tbl max_len st
      = (result <- spec_scan_primitive dev (scan_record tbl st) ;;
         if negb (result =? 1) then ret (mkRead SANE_STATUS_IO_ERROR [] None)
         else
           modify (set_i (i st + 1)) ;;
           sane_read_loop dev tbl (Z.to_nat (scan_table_size tbl st - (i st + 1)))
             (scan_table tbl st) max_len) st)
  /\ (forall n typePtr s,
        dataAvailable s <= 0 ->
        sane_read_loop dev tbl (S n) typePtr max_len s
        = (result <- spec_scan_primitive dev (at_record typePtr (i s)) ;;
           if negb (result =? 1) then ret (mkRead SANE_STATUS_IO_ERROR [] None)
           else
             modify (set_i (i s + 1)) ;;
             sane_read_loop dev tbl n typePtr max_len) s).
Proof.
  assert (Hbind : forall A B (m : M A) (k : A -> M B) s,
            bind m k s = match m s with
                         | Ret a s' => k a s'
                         | Exit c s' => Exit c s'
                         | Undefined => Undefined
                         | Spin => Spin
                         end) by reflexivity.
  split; [|split].
  - unfold sane_start. rewrite !Hbind.
    destruct (initialize_phase dev tbl st) as [[status|] st1| | |]; try reflexivity.
    unfold setup_phase. rewrite !Hbind. cbn [get]. rewrite !Hbind. unfold for_range.
    match goal with
    | |- match for_count ?n 0 ?b1 st1 with _ => _ end
         = match for_count _ 0 ?b2 st1 with _ => _ end =>
        assert (Hloop : for_count n 0 b1 st1 = for_count n 0 b2 st1)
          by (apply for_count_ext; intros j s; apply setup_body_as_spec);
        rewrite Hloop; clear Hloop
    end.
    destruct (for_count _ 0 _ st1) as [[] st2| | |]; try reflexivity.
    rewrite !Hbind. destruct (calibration_phase dev tbl st2) as [[status|] st3| | |]; reflexivity.
  - intros Havail Hi. rewrite sane_read_nothing_pending by assumption.
    fold (scan_record tbl st). rewrite scan_dispatch_as_spec, Hbind.
    destruct (spec_scan_primitive dev (scan_record tbl st) st) as [r st1| | |];
      try reflexivity; destruct (negb (r =? 1)); reflexivity.
  - intros n typePtr s Havail. cbn [sane_read_loop]. rewrite Hbind. cbn [get].
    destruct (Z.gtb_spec (dataAvailable s) 0); [lia|].
    rewrite Hbind. cbn [get]. rewrite scan_dispatch_as_spec, !Hbind.
    destruct (spec_scan_primitive dev (at_record typePtr (i s)) s) as [r st1| | |];
      try reflexivity; destruct (negb (r =? 1)); reflexivity.
Qed.

(** A run of [dispatch_by_opcode]: with a setup table of one record of
    each kind, [sane_start] issues the initialize transfer, a bulk read,
    the polling transfer, the zero write, a plain control transfer and the
    calibration transfer; and the first read of the colour scan of
    [small_tables] starts with the primitive of the first scan record. *)
Lemma dispatch_by_opcode_witness :
  map fst (requests (sane_start (ready_device 0x55) opcode_tables 10 (initial_state 100)))
  = [ControlMsg 0x40 0x0c 0x87 0 0 300;
     BulkRead 0x81 3 3000;
     ControlMsg 0xc0 0x0c 0x84 0 256 300;
     BulkWrite 2 2 100;
     ControlMsg 0x40 0x0c 0x87 0 0 300;
     ControlMsg 0x40 0x0c 0x87 0 0 300]
  /\ sane_read (scanner [1; 2; 3]) small_tables 2 (initial_state 100)
     = (result <- spec_scan_primitive (scanner [1; 2; 3])
                    (scan_record small_tables (initial_state 100)) ;;
        if negb (result =? 1) then ret (mkRead SANE_STATUS_IO_ERROR [] None)
        else
          modify (set_i (i (initial_state 100) + 1)) ;;
          sane_read_loop (scanner [1; 2; 3]) small_tables
            (Z.to_nat (scan_table_size small_tables (initial_state 100)
                       - (i (initial_state 100) + 1)))
            (scan_table small_tables (initial_state 100)) 2) (initial_state 100).
Proof.
  split; [vm_compute; reflexivity|].
  apply (proj1 (proj2 (dispatch_by_opcode (scanner [1; 2; 3]) small_tables 0 2
                         (initial_state 100)))).
  - vm_compute. discriminate.
  - vm_compute. reflexivity.
Defined.

(** C4, against the claim: a scan table of the one record
    [poll_for_0x55], whose leading byte is 0xfb.  [sane_read] runs it as a
    plain control transfer with request type 0xfb and size 0, then the
    finalize transfer, and returns end-of-stream;
    [repeatedControlTransfer] on the same record issues the polling
    transfer with request type 0xc0 and size 256. *)
Lemma sane_read_does_not_poll :
  poll_for_0x55.[0] = 0xfb
  /\ option_map rd_status
       (returned (sane_read (ready_device 0x55) poll_scan_tables 10 (initial_state 100)))
     = Some SANE_STATUS_EOF
  /\ map fst (requests (sane_read (ready_device 0x55) poll_scan_tables 10 (initial_state 100)))
     = [ControlMsg 0xfb 0xc0 0x840c 0 0 300; ControlMsg 0x40 0x0c 0x87 0 0 300]
  /\ map fst (requests (repeatedControlTransfer (ready_device 0x55) 10 poll_for_0x55
                          (initial_state 100)))
     = [ControlMsg 0xc0 0x0c 0x84 0 256 300].
Proof. split; [|split; [|split]]; vm_compute; reflexivity. Qed.

(** * The polling transfer on a record of bytes *)

(** X28: On a record of bytes, whose fields all fit an int,
    [repeatedControlTransfer] examines the first byte of the transfer
    buffer before each attempt, the first one included, so with the
    expected byte already there it returns 1 and issues nothing.
    Otherwise it repeats the same control transfer; when it returns, it
    returns 1 exactly when the byte matches (all transfers issued having
    succeeded) and 0 at the first transfer that reports an error, which is
    then the last one issued.  Given a bound of at least the number of
    transfers the run needs, the function returns that result. *)
Theorem repeatedControlTransfer_polls dev data st :
  byte_list data ->
  (first_byte_matches (to_char data.[9]) st ->
   forall bound, repeatedControlTransfer dev bound data st = Ret 1 st)
  /\ (forall n r st',
        polls dev data.[1] data.[2] (Z.shiftl data.[4] 8 + data.[3])
          (Z.shiftl data.[6] 8 + data.[5]) (Z.shiftl data.[8] 8 + data.[7])
          (to_char data.[9]) st n r st' ->
        forall bound, (n <= bound)%nat -> repeatedControlTransfer dev bound data st = Ret r st')
  /\ (forall bound r st', repeatedControlTransfer dev bound data st = Ret r st' ->
      exists n evs,
        (n <= bound)%nat
        /\ usb_log st' = usb_log st ++ evs
        /\ length evs = n
        /\ Forall (fun e =>
                     ev_call e
                     = ControlMsg data.[1] data.[2] (Z.shiftl data.[4] 8 + data.[3])
                         (Z.shiftl data.[6] 8 + data.[5]) (Z.shiftl data.[8] 8 + data.[7]) 300)
             evs
        /\ ((r = 1
             /\ first_byte_matches (to_char data.[9]) st'
             /\ Forall (fun e => 0 <= ev_result e) evs)
            \/ (r = 0
                /\ exists evs0 e,
                     evs = evs0 ++ [e]
                     /\ ev_result e < 0
                     /\ Forall (fun e => 0 <= ev_result e) evs0)))
  /\ 0 <= Z.shiftl data.[4] 8 + data.[3] <= 0xffff
  /\ 0 <= Z.shiftl data.[6] 8 + data.[5] <= 0xffff
  /\ 0 <= Z.shiftl data.[8] 8 + data.[7] <= 0xffff.
Proof.
  intros Hdata.
  destruct (repeatedControlTransfer_runs dev data st) as (Hready & Hruns & Hret).
  split; [exact Hready|]. split; [exact Hruns|]. split.
  - intros bound r st' Hrun.
    destruct (Hret bound r st' Hrun) as (n & evs & Hn & _ & Hlog & Hlen & Hcalls & Hend).
    exists n, evs. auto.
  - assert (H43 := size16_bound _ _ (elem_byte data 4 Hdata) (elem_byte data 3 Hdata)).
    assert (H65 := size16_bound _ _ (elem_byte data 6 Hdata) (elem_byte data 5 Hdata)).
    assert (H87 := size16_bound _ _ (elem_byte data 8 Hdata) (elem_byte data 7 Hdata)).
    auto.
Qed.

(** A run of [repeatedControlTransfer_polls]: the buffer starts with 0,
    the record waits for 0x55, the device answers the first transfer with
    0x55. *)
Lemma repeatedControlTransfer_polls_witness :
  byte_list poll_for_0x55
  /\ exists st',
       repeatedControlTransfer (ready_device 0x55) 10 poll_for_0x55 (initial_state 100)
       = Ret 1 st'
       /\ map ev_result (usb_log st') = [1].
Proof.
  assert (Hbytes : byte_list poll_for_0x55).
  { unfold byte_list. apply (bool_decide_unpack _). vm_compute. exact I. }
  split; [exact Hbytes|].
  destruct (repeatedControlTransfer_polls (ready_device 0x55) poll_for_0x55 (initial_state 100)
              Hbytes) as (_ & Hrun & _).
  eexists. split.
  - apply (Hrun 1%nat); [|lia].
    eapply polls_retry.
    + exists 0. split; [reflexivity|vm_compute; discriminate].
    + reflexivity.
    + vm_compute; discriminate.
    + apply polls_ready. exists 0x55. split; reflexivity.
  - reflexivity.
Defined.
